(** * InformationRetrieval1, homework 2: the generalized language model
      (models/GeneralizedLanguageModel.py) and the tf-idf scorer
      (models/TFIDF.py).

    Conventions of the embedding.

    - Python [int]s (term identifiers, internal document identifiers,
      frequencies, lengths) are [Z].  Tokens, external document identifiers
      and query identifiers are [string]s.
    - Python [float]s and numpy [float64]s are exact reals [R]: rounding is
      not modelled.
    - Exceptions are the [Err] results of the [res] monad.  A Python-level
      division by zero raises [ZeroDivisionError]; [math.log] outside its
      domain raises [ValueError] with the message [math domain error].
      [ShapeError] is the [ValueError] numpy raises on shapes that do not
      fit (its message is not modelled).
    - A numpy division by zero does not raise: numpy carries on with [inf]
      or [nan].  The embedding has no such values; it stops there with the
      outcome [NonFinite], which therefore reads "the value is not a finite
      real, and what Python does with it afterwards is not followed".
      Dictionary lookups that numpy arithmetic does not depend on are placed
      before that arithmetic, so that a [KeyError] is never hidden by it
      inside one method.
    - So [Err NonFinite] is not a failure of the program: where the source
      keeps a [nan] and goes on (a [nan] score that [run] records, a [nan]
      similarity sum that [compute_doc_sim_sum] stores and [__init__]
      pickles) the exact model says nothing beyond "not a finite number".
      Statements about a raised exception exclude [NonFinite].  [run] does
      no arithmetic on a score, so its loops are also given over the scores
      as executed ([run_fl]): there a score is any float, [nan] and rounded
      values included, and [Err] is a raised exception only.
    - Dictionaries that the code only reads by key are [gmap]s; dictionaries
      that the code iterates ([queries], [doc_col], the [data] handed to the
      writer) are association lists in insertion order.
    - [print] and [time.time] calls have no counterpart. *)

From Stdlib Require Import ZArith Reals Lra Lia.
From stdpp Require Import base option list gmap strings.

Local Open Scope Z_scope.

(** ** Exceptions and results *)

Inductive exn : Type :=
  | KeyError
  | IndexError
  | ZeroDivisionError
  | ValueError (msg : string)
  | ShapeError
  | AttributeError
  | NonFinite.

Inductive res (A : Type) : Type :=
  | Ok (a : A)
  | Err (e : exn).
Arguments Ok {A} a.
Arguments Err {A} e.

#[global] Instance res_ret : MRet res := λ A a, Ok a.
#[global] Instance res_bind : MBind res := λ A B f r,
  match r with Ok a => f a | Err e => Err e end.
#[global] Instance res_fmap : FMap res := λ A B f r,
  match r with Ok a => Ok (f a) | Err e => Err e end.

(** [d[k]] on a plain dict. *)
Definition getitem {A} (o : option A) : res A :=
  match o with Some a => Ok a | None => Err KeyError end.

(** A [for] loop whose body may raise. *)
Fixpoint foldM {A S} (f : S → A → res S) (s : S) (l : list A) : res S :=
  match l with
  | [] => Ok s
  | a :: l' => s' ← f s a; foldM f s' l'
  end.

(** Building a list element by element, each step may raise. *)
Fixpoint forM {A B} (f : A → res B) (l : list A) : res (list B) :=
  match l with
  | [] => Ok []
  | a :: l' => b ← f a; bs ← forM f l'; Ok (b :: bs)
  end.

(** ** Numbers *)

Definition math_domain_error : exn := ValueError "math domain error".

(** Python [a / b] on ints and floats. *)
Definition py_div (a b : R) : res R :=
  if Req_dec_T b 0 then Err ZeroDivisionError else Ok (a / b)%R.

(** numpy [a / b]. *)
Definition np_div (a b : R) : res R :=
  if Req_dec_T b 0 then Err NonFinite else Ok (a / b)%R.

(** [math.log]. *)
Definition math_log (x : R) : res R :=
  if Rlt_dec 0 x then Ok (ln x) else Err math_domain_error.

(** [np.sum] of a one-dimensional array. *)
Definition np_sum (l : list R) : R := foldr Rplus 0%R l.

(** The dot product of two vectors of one length and [np.linalg.norm]. *)
Definition dot (v w : list R) : R := np_sum (zip_with Rmult v w).
Definition norm (v : list R) : R := sqrt (dot v v).

(** [np.dot] of two one-dimensional arrays. *)
Definition np_dot (v w : list R) : res R :=
  if decide (length v = length w) then Ok (dot v w) else Err ShapeError.

(** The row length of [doc_model]: [np.full((filter_doc_arr_len, 300), ...)]. *)
Definition dim : nat := 300.

(** [doc_model[idx, :] = v]: a vector of the row length is stored, a vector
    of length 1 is broadcast, any other length is refused. *)
Definition set_row (v : list R) : res (list R) :=
  if decide (length v = dim) then Ok v
  else match v with
       | [x] => Ok (replicate dim x)
       | _ => Err ShapeError
       end.

(** [np.dot(doc_model, query_vec)] with [query_vec] reshaped to a column:
    the column must have the row length, also for a [doc_model] without
    rows. *)
Definition aligned (query_vec : list R) : res unit :=
  if decide (length query_vec = dim) then Ok () else Err ShapeError.

(** ** Insertion-ordered dictionaries *)

Section dict.
Context {V : Type}.

Fixpoint dict_get (d : list (string * V)) (k : string) : option V :=
  match d with
  | [] => None
  | (k', v) :: d' => if decide (k' = k) then Some v else dict_get d' k
  end.

(** [d[k] = f(d[k])] on a [defaultdict] whose default is [dflt]. *)
Fixpoint dict_update (d : list (string * V)) (k : string) (dflt : V)
    (f : V → V) : list (string * V) :=
  match d with
  | [] => [(k, f dflt)]
  | (k', v) :: d' =>
      if decide (k' = k) then (k', f v) :: d'
      else (k', v) :: dict_update d' k dflt f
  end.
End dict.

(** ** The collaborators *)

(** [pyndri.Index]: [document], [document_base], [maximum_document] and
    [get_dictionary]. *)
Record Index := {
  documents : gmap Z (string * list Z);
  document_base : Z;
  maximum_document : Z;
  get_dictionary : gmap string Z * gmap Z string * gmap Z Z
}.

Definition document (ix : Index) (int_doc_id : Z) : res (string * list Z) :=
  match documents ix !! int_doc_id with
  | Some d => Ok d
  | None => Err IndexError
  end.

(** [gensim] model: the vectors [wv] and [most_similar]. *)
Record Word2Vec := {
  wv : gmap string (list R);
  most_similar : string → nat → res (list (string * R))
}.

(** The files the model touches: the two pickles and the run files. *)
Record FS := {
  pkl_doc_sim_sums : option (gmap Z R);
  pkl_col_Nt : option (gmap string (list string) * gmap string R);
  files : gmap string string
}.

Definition run_data : Type := list (string * list (R * string)).

(** ** GeneralizedLanguageModel *)

Module GeneralizedLanguageModel.

Record t := {
  index : Index;
  inverted_index : gmap Z (gmap Z Z);
  queries : list (string * list Z);
  col_freq : gmap Z Z;
  col_size : Z;
  doc_len : gmap Z Z;
  lamb : R;
  alph : R;
  beta : R;
  doc_col : option (list (string * list Z));
  token2id : gmap string Z;
  id2token : gmap Z string;
  id2df : gmap Z Z;
  word2vec : Word2Vec;
  doc_sim_sum : gmap Z R;
  col_Nt : gmap string (list string);
  sum_nT : gmap string R
}.

(** [sum(col_freq)]: iterating a dict yields its keys. *)
Definition sum_dict (d : gmap Z Z) : Z := map_fold (λ k _ acc, k + acc) 0 d.

(** [self.col_freq[k]] on a [defaultdict(int)]. *)
Definition col_freq_get (self : t) (k : Z) : Z := default 0 (col_freq self !! k).

(** [self.word2vec.wv[self.id2token[term_id]]]. *)
Definition term_vector (self : t) (term_id : Z) : res (list R) :=
  tok ← getitem (id2token self !! term_id);
  getitem (wv (word2vec self) !! tok).

(** [doc_model[idx, :] = self.word2vec.wv[self.id2token[term_id]]]: the row
    stored for a term. *)
Definition term_row (self : t) (term_id : Z) : res (list R) :=
  v ← term_vector self term_id;
  set_row v.

(** [doc_arr[doc_arr != 0]]. *)
Definition filter_doc (doc : list Z) : list Z := filter (λ x, x ≠ 0) doc.

(** [np.sum(filter_doc_arr == term_id)]. *)
Definition term_count (filter_doc_arr : list Z) (term_id : Z) : R :=
  INR (length (filter (λ x, x = term_id) filter_doc_arr)).

Definition compute_term_likelihood (self : t) (query_term_id int_doc_id : Z)
    : res R :=
  let doc_term_freq :=
    default 0 (default ∅ (inverted_index self !! query_term_id) !! int_doc_id) in
  doc_len ← getitem (doc_len self !! int_doc_id);
  py_div (IZR doc_term_freq) (IZR doc_len).

Definition compute_bg_likelihood (self : t) (query_term_id : Z) : res R :=
  let col_term_freq := col_freq_get self query_term_id in
  py_div (IZR col_term_freq) (IZR (col_size self)).

Definition compute_doc_transform (self : t) (query_term_id int_doc_id : Z)
    (doc : list Z) : res R :=
  query_vec ← term_vector self query_term_id;
  let filter_doc_arr := filter_doc doc in
  rows ← forM (λ term_id,
            v ← term_row self term_id;
            Ok (v, term_count filter_doc_arr term_id)) filter_doc_arr;
  _ ← aligned query_vec;
  dss ← getitem (doc_sim_sum self !! int_doc_id);
  dl ← getitem (doc_len self !! int_doc_id);
  terms ← forM (λ '(v, tf),
            s ← np_div (dot v query_vec) (norm v);
            similarity ← np_div s (norm query_vec);
            np_div (similarity * tf)%R (dss * IZR dl)%R) rows;
  Ok (np_sum terms).

Definition cos_sim (v1 v2 : list R) : res R :=
  d ← np_dot v1 v2;
  np_div d (norm v1 * norm v2)%R.

Definition compute_col_transform (self : t) (query_term_id : Z) : res R :=
  query_term ← getitem (id2token self !! query_term_id);
  query_vec ← getitem (wv (word2vec self) !! query_term);
  neighbours ← getitem (col_Nt self !! query_term);
  foldM (λ col_transform neighbour,
           nv ← getitem (wv (word2vec self) !! neighbour);
           similarity ← cos_sim query_vec nv;
           snt ← getitem (sum_nT self !! query_term);
           a ← py_div similarity snt;
           nid ← getitem (token2id self !! neighbour);
           b ← py_div (a * IZR (col_freq_get self nid))%R (IZR (col_size self));
           Ok (col_transform + b)%R)
        0%R neighbours.

(** The argument of [math.log] in [score]: the four components are
    evaluated left to right, whatever the weights. *)
Definition mixture (self : t) (query_term_id int_doc_id : Z) (doc : list Z)
    : res R :=
  tl ← compute_term_likelihood self query_term_id int_doc_id;
  dt ← compute_doc_transform self query_term_id int_doc_id doc;
  ct ← compute_col_transform self query_term_id;
  bg ← compute_bg_likelihood self query_term_id;
  Ok (lamb self * tl + alph self * dt + beta self * ct
      + (1 - lamb self - alph self - beta self) * bg)%R.

Definition score (self : t) (int_doc_id : Z) (query : list Z) : res R :=
  '(ext_doc_id, doc) ← document (index self) int_doc_id;
  foldM (λ score query_term_id,
           p ← mixture self query_term_id int_doc_id doc;
           l ← math_log p;
           Ok (score + l)%R)
        0%R query.

(** [np.unique]: the sorted distinct elements. *)
Fixpoint insert_unique (x : Z) (l : list Z) : list Z :=
  match l with
  | [] => [x]
  | y :: l' =>
      if decide (x < y) then x :: l
      else if decide (x = y) then l
      else y :: insert_unique x l'
  end.
Definition np_unique (l : list Z) : list Z := foldr insert_unique [] l.

(** [np.triu_indices(n, k)] as the list of index pairs, row by row: the
    pairs [(a, b)] of an [n] by [n] array with [a + k <= b].  A negative
    [n] gives no pair. *)
Definition triu_indices (n k : Z) : list (nat * nat) :=
  let idx := seq 0 (Z.to_nat n) in
  a ← idx;
  pair a <$> filter (λ b, Z.of_nat a + k ≤ Z.of_nat b) idx.

(** [doc_model.dot(doc_model.T) / norms / norms.T].  Entry [(i, j)] is
    [dot(v_i, v_j) / norm(v_i) / norm(v_j)]; an entry that numpy fills with
    [nan] is an [Err NonFinite] cell, which only matters once the cell is
    summed. *)
Definition cos_sim_matrix (doc_model : list (list R)) : list (list (res R)) :=
  (λ vi, (λ vj, s ← np_div (dot vi vj) (norm vi); np_div s (norm vj))
           <$> doc_model) <$> doc_model.

(** [a[rows, cols]] for one index pair. *)
Definition fancy_index (a : list (list (res R))) (ij : nat * nat) : res R :=
  match a !! ij.1 with
  | Some row => match row !! ij.2 with Some c => c | None => Err IndexError end
  | None => Err IndexError
  end.

(** The body of the loop of [compute_doc_sim_sum] for one document. *)
Definition doc_sim_sum_of (self : t) (int_doc_id : Z) : res R :=
  '(ext_doc_id, doc) ← document (index self) int_doc_id;
  let filter_doc_arr := filter_doc doc in
  let filter_doc_arr_len := Z.of_nat (length filter_doc_arr) in
  doc_model ← forM (term_row self) filter_doc_arr;
  let cos_sim := cos_sim_matrix doc_model in
  let upper_indices := triu_indices (filter_doc_arr_len - 1) 1 in
  cells ← forM (fancy_index (drop 1 <$> drop 1 cos_sim)) upper_indices;
  Ok (np_sum cells).

Definition self_doc_col (self : t) : res (list (string * list Z)) :=
  match doc_col self with Some dc => Ok dc | None => Err AttributeError end.

Definition compute_doc_sim_sum (self : t) : res (gmap Z R) :=
  dc ← self_doc_col self;
  let unique_ids := np_unique (concat dc.*2) in
  foldM (λ doc_sim_sums int_doc_id,
           s ← doc_sim_sum_of self int_doc_id;
           Ok (<[int_doc_id := s]> doc_sim_sums))
        ∅ unique_ids.

Definition compute_col_nt (self : t) (n_terms : nat)
    : res (gmap string (list string) * gmap string R) :=
  dc ← self_doc_col self;
  foldM (λ acc '(query_id, int_doc_ids),
           query ← getitem (dict_get (queries self) query_id);
           foldM (λ '(term_neighbours, term_neighbours_sum) query_term_id,
                    query_term ← getitem (id2token self !! query_term_id);
                    similar ← most_similar (word2vec self) query_term n_terms;
                    let neighbours := similar.*1 in
                    sims ← forM (λ ngh_term,
                              v1 ← getitem (wv (word2vec self) !! query_term);
                              v2 ← getitem (wv (word2vec self) !! ngh_term);
                              cos_sim v1 v2) neighbours;
                    Ok (<[query_term := neighbours]> term_neighbours,
                        <[query_term := np_sum sims]> term_neighbours_sum))
                 acc query)
        (∅, ∅) dc.

(** [__init__].  [w2v] is the model stored under [../word2vec/Word2Vec].
    The weights are stored as given. *)
Definition init (index : Index) (inverted_index : gmap Z (gmap Z Z))
    (queries : list (string * list Z)) (col_freq : gmap Z Z)
    (doc_len : gmap Z Z) (lamb alph beta : R)
    (doc_col : option (list (string * list Z)))
    (w2v : Word2Vec) (fs : FS) : res t * FS :=
  let '(token2id, id2token, id2df) := get_dictionary index in
  let mk dss nt snt :=
    {| index := index; inverted_index := inverted_index; queries := queries;
       col_freq := col_freq; col_size := sum_dict col_freq;
       doc_len := doc_len; lamb := lamb; alph := alph; beta := beta;
       doc_col := doc_col; token2id := token2id; id2token := id2token;
       id2df := id2df; word2vec := w2v;
       doc_sim_sum := dss; col_Nt := nt; sum_nT := snt |} in
  let r1 :=
    match pkl_doc_sim_sums fs with
    | Some dss => (Ok dss, fs)
    | None =>
        match compute_doc_sim_sum (mk ∅ ∅ ∅) with
        | Ok dss => (Ok dss, {| pkl_doc_sim_sums := Some dss;
                                pkl_col_Nt := pkl_col_Nt fs;
                                files := files fs |})
        | Err e => (Err e, fs)
        end
    end in
  match r1 with
  | (Err e, fs1) => (Err e, fs1)
  | (Ok dss, fs1) =>
      match pkl_col_Nt fs1 with
      | Some (nt, snt) => (Ok (mk dss nt snt), fs1)
      | None =>
          match compute_col_nt (mk dss ∅ ∅) 3 with
          | Ok (nt, snt) =>
              (Ok (mk dss nt snt),
               {| pkl_doc_sim_sums := pkl_doc_sim_sums fs1;
                  pkl_col_Nt := Some (nt, snt);
                  files := files fs1 |})
          | Err e => (Err e, fs1)
          end
      end
  end.

(** *** The retrieval driver *)

Definition run_out_path (model_name : string) : string :=
  "../retrievals/" +:+ model_name +:+ ".run".

(** [scores]: a [defaultdict] of [defaultdict]s with default [0]. *)
Definition scores_get (scores : gmap string (gmap string R))
    (query_id ext_doc_id : string) : R :=
  default 0%R (default ∅ (scores !! query_id) !! ext_doc_id).
Definition scores_set (scores : gmap string (gmap string R))
    (query_id ext_doc_id : string) (v : R) : gmap string (gmap string R) :=
  <[query_id := <[ext_doc_id := v]> (default ∅ (scores !! query_id))]> scores.

(** The flag [doc_is_in_inverted_index] after the loop over the query. *)
Definition doc_is_in_inverted_index (self : t) (int_doc_id : Z)
    (query : list Z) : bool :=
  foldl (λ flag query_term_id,
           match default ∅ (inverted_index self !! query_term_id) !! int_doc_id with
           | Some doc_term_freq => true
           | None => flag
           end)
        false query.

(** The two [if]s that both branches of [run] execute for one query and
    one document. *)
Definition run_pair (self : t) (query_id : string) (query : list Z)
    (int_doc_id : Z) (ext_doc_id : string)
    (st : gmap string (gmap string R) * run_data)
    : res (gmap string (gmap string R) * run_data) :=
  scores ← (if doc_is_in_inverted_index self int_doc_id query
            then s ← score self int_doc_id query;
                 Ok (scores_set st.1 query_id ext_doc_id s)
            else Ok st.1);
  let v := scores_get scores query_id ext_doc_id in
  if Req_dec_T v 0 then Ok (scores, st.2)
  else Ok (scores, dict_update st.2 query_id [] (λ l, l ++ [(v, ext_doc_id)])).

Definition run_all_documents (self : t)
    : res (gmap string (gmap string R) * run_data) :=
  foldM (λ st int_doc_id,
           '(ext_doc_id, doc) ← document (index self) int_doc_id;
           foldM (λ st '(query_id, query),
                    run_pair self query_id query int_doc_id ext_doc_id st)
                 st (queries self))
        (∅, [])
        (seqZ (document_base (index self))
              (maximum_document (index self) - document_base (index self))).

Definition run_doc_col (self : t) (doc_col : list (string * list Z))
    : res (gmap string (gmap string R) * run_data) :=
  foldM (λ st '(query_id, int_doc_ids),
           query ← getitem (dict_get (queries self) query_id);
           foldM (λ st int_doc_id,
                    '(ext_doc_id, doc) ← document (index self) int_doc_id;
                    run_pair self query_id query int_doc_id ext_doc_id st)
                 st int_doc_ids)
        (∅, []) doc_col.

Section run.
(** [Helper.write_run]: the text written for a [data], given the model
    name and [max_objects_per_query]. *)
Variable write_run : string → run_data → nat → string.

Definition run (self : t) (model_name : string)
    (doc_col : option (list (string * list Z))) (fs : FS)
    : res (option run_data) * FS :=
  let out_path := run_out_path model_name in
  if decide (is_Some (files fs !! out_path)) then (Ok None, fs)
  else
    match match doc_col with
          | None => run_all_documents self
          | Some dc => run_doc_col self dc
          end with
    | Err e => (Err e, fs)
    | Ok (scores, data) =>
        (Ok (Some data),
         {| pkl_doc_sim_sums := pkl_doc_sim_sums fs;
            pkl_col_Nt := pkl_col_Nt fs;
            files := <[out_path := write_run model_name data 1000%nat]>
                       (files fs) |})
    end.
End run.

(** *** The driver over the scores as executed

    [run] does no arithmetic on a score: it stores what [self.score]
    returns, compares it with [0] and appends it to [data].  The
    definitions of this section are the same loops for an arbitrary
    executed [score]: a function [score_fl] into a type [V] of floats,
    which may hold [nan], [inf] and rounded values.  Here [Err] is a
    raised exception and nothing else, [zero] is the default [0] of the
    two [defaultdict]s and [is_zero v] is the test [v == 0], which [nan]
    fails.  Taken at the exact [score] above, where a score that is not a
    finite number stops the model, they are [run_pair],
    [run_all_documents], [run_doc_col] and [run]. *)
Definition run_data_fl (V : Type) : Type := list (string * list (V * string)).

Section executed.
Context {V : Type}.
Variable zero : V.
Variable is_zero : V → bool.
Variable score_fl : Z → list Z → res V.

Definition scores_get_fl (scores : gmap string (gmap string V))
    (query_id ext_doc_id : string) : V :=
  default zero (default ∅ (scores !! query_id) !! ext_doc_id).
Definition scores_set_fl (scores : gmap string (gmap string V))
    (query_id ext_doc_id : string) (v : V) : gmap string (gmap string V) :=
  <[query_id := <[ext_doc_id := v]> (default ∅ (scores !! query_id))]> scores.

Definition run_pair_fl (self : t) (query_id : string) (query : list Z)
    (int_doc_id : Z) (ext_doc_id : string)
    (st : gmap string (gmap string V) * run_data_fl V)
    : res (gmap string (gmap string V) * run_data_fl V) :=
  scores ← (if doc_is_in_inverted_index self int_doc_id query
            then s ← score_fl int_doc_id query;
                 Ok (scores_set_fl st.1 query_id ext_doc_id s)
            else Ok st.1);
  let v := scores_get_fl scores query_id ext_doc_id in
  if is_zero v then Ok (scores, st.2)
  else Ok (scores, dict_update st.2 query_id [] (λ l, l ++ [(v, ext_doc_id)])).

Definition run_all_documents_fl (self : t)
    : res (gmap string (gmap string V) * run_data_fl V) :=
  foldM (λ st int_doc_id,
           '(ext_doc_id, doc) ← document (index self) int_doc_id;
           foldM (λ st '(query_id, query),
                    run_pair_fl self query_id query int_doc_id ext_doc_id st)
                 st (queries self))
        (∅, [])
        (seqZ (document_base (index self))
              (maximum_document (index self) - document_base (index self))).

Definition run_doc_col_fl (self : t) (doc_col : list (string * list Z))
    : res (gmap string (gmap string V) * run_data_fl V) :=
  foldM (λ st '(query_id, int_doc_ids),
           query ← getitem (dict_get (queries self) query_id);
           foldM (λ st int_doc_id,
                    '(ext_doc_id, doc) ← document (index self) int_doc_id;
                    run_pair_fl self query_id query int_doc_id ext_doc_id st)
                 st int_doc_ids)
        (∅, []) doc_col.

Variable write_run_fl : string → run_data_fl V → nat → string.

Definition run_fl (self : t) (model_name : string)
    (doc_col : option (list (string * list Z))) (fs : FS)
    : res (option (run_data_fl V)) * FS :=
  let out_path := run_out_path model_name in
  if decide (is_Some (files fs !! out_path)) then (Ok None, fs)
  else
    match match doc_col with
          | None => run_all_documents_fl self
          | Some dc => run_doc_col_fl self dc
          end with
    | Err e => (Err e, fs)
    | Ok (scores, data) =>
        (Ok (Some data),
         {| pkl_doc_sim_sums := pkl_doc_sim_sums fs;
            pkl_col_Nt := pkl_col_Nt fs;
            files := <[out_path := write_run_fl model_name data 1000%nat]>
                       (files fs) |})
    end.
End executed.

End GeneralizedLanguageModel.

(** ** TFIDF *)

Module TFIDF.

Record t := {
  index : Index;
  inverted_index : gmap Z (gmap Z Z);
  doc_len : gmap Z Z;
  tf_transform : string
}.

Definition init (index : Index) (inverted_index : gmap Z (gmap Z Z))
    (doc_len : gmap Z Z) (tf_transform : string) : t :=
  {| index := index; inverted_index := inverted_index; doc_len := doc_len;
     tf_transform := tf_transform |}.

Definition log_tf (self : t) (doc_term_freq : Z) : res R :=
  l ← math_log (IZR doc_term_freq);
  Ok (1 + l)%R.

Definition unsupported (tf_transform : string) : exn :=
  ValueError ("Unsupported term frequency transformation specified: "
              +:+ tf_transform).

Section score.
(** [compute_idf] is inherited from [VectorSpaceModel]. *)
Variable compute_idf : t → Z → res R.

Definition score (self : t) (int_doc_id query_term_id doc_term_freq : Z)
    : res R :=
  wtf ← (if decide (tf_transform self = "log")
         then log_tf self doc_term_freq
         else Err (unsupported (tf_transform self)));
  idf ← compute_idf self query_term_id;
  Ok (wtf * idf)%R.
End score.

End TFIDF.

(** ** What the specification says, for comparison with the code *)

Module Spec.
Import GeneralizedLanguageModel.

(** The collection size as the sum of the per-term frequency values. *)
Definition sum_values (d : gmap Z Z) : Z := map_fold (λ _ v acc, v + acc) 0 d.

(** Cosine similarity of two vectors. *)
Definition cosine (v w : list R) : R := (dot v w / (norm v * norm w))%R.

(** The distinct terms of a term stream, each once. *)
Definition distinct_terms (l : list Z) : list Z := remove_dups l.

(** P_doc_transform as a sum over the distinct terms of the document: each
    distinct term once, weighted once by its in-document frequency. *)
Definition doc_transform_distinct (self : t) (query_term_id int_doc_id : Z)
    (doc : list Z) : res R :=
  query_vec ← term_vector self query_term_id;
  let stream := filter_doc doc in
  weighted ← forM (λ term_id,
                v ← term_vector self term_id;
                Ok (cosine v query_vec * term_count stream term_id)%R)
              (distinct_terms stream);
  dss ← getitem (doc_sim_sum self !! int_doc_id);
  dl ← getitem (doc_len self !! int_doc_id);
  np_div (np_sum weighted) (dss * IZR dl)%R.

(** The index pairs [(i, j)] with [1 <= i < j <= n - 1]. *)
Definition inner_pairs (n : nat) : list (nat * nat) :=
  i ← seq 1 (n - 1);
  pair i <$> filter (λ j, (i < j)%nat) (seq 1 (n - 1)).

(** The sum of [cos(v_i, v_j)] over [1 <= i < j <= n - 1]. *)
Definition pair_cos_sum (vs : list (list R)) : R :=
  np_sum ((λ ij, cosine (vs !!! ij.1) (vs !!! ij.2)) <$> inner_pairs (length vs)).

(** The plain unsmoothed model: the sum over the query terms of
    [log(P_term(t, d))]. *)
Definition plain_score (self : t) (int_doc_id : Z) (query : list Z) : res R :=
  foldM (λ acc query_term_id,
           p ← compute_term_likelihood self query_term_id int_doc_id;
           l ← math_log p;
           Ok (acc + l)%R)
        0%R query.

(** The pairs of a query and a candidate document that [run] considers:
    with a [doc_col], the documents listed for each of its queries; without,
    every document of the index for every query. *)
Definition considered (self : t) (doc_col : option (list (string * list Z)))
    (query_id : string) (query : list Z) (int_doc_id : Z) : Prop :=
  match doc_col with
  | Some dc =>
      ∃ int_doc_ids, (query_id, int_doc_ids) ∈ dc
                     ∧ int_doc_id ∈ int_doc_ids
                     ∧ dict_get (queries self) query_id = Some query
  | None =>
      (query_id, query) ∈ queries self
      ∧ int_doc_id ∈ seqZ (document_base (index self))
                          (maximum_document (index self)
                           - document_base (index self))
  end.

(** The result list of a query in the [data] that [run] returns. *)
Definition data_get {V} (data : run_data_fl V) (query_id : string)
    : list (V * string) :=
  default [] (dict_get data query_id).

(** A pair [(s, ext)] is justified for a query when some considered
    document with that external identifier contains a query term according
    to the inverted index and [s] is the score returned for it, not zero. *)
Definition justified {V} (is_zero : V → bool) (score_fl : Z → list Z → res V)
    (self : t) (doc_col : option (list (string * list Z)))
    (query_id ext_doc_id : string) (s : V) : Prop :=
  ∃ query int_doc_id doc,
    considered self doc_col query_id query int_doc_id
    ∧ documents (index self) !! int_doc_id = Some (ext_doc_id, doc)
    ∧ doc_is_in_inverted_index self int_doc_id query = true
    ∧ score_fl int_doc_id query = Ok s
    ∧ is_zero s = false.

(** The lookups of [run] outside [score] succeed: with a [doc_col], its
    query identifiers are keys of [queries] and its documents are in the
    index; without, every identifier from [document_base] up to
    [maximum_document] is in the index. *)
Definition lookups_succeed (self : t)
    (doc_col : option (list (string * list Z))) : Prop :=
  match doc_col with
  | Some dc =>
      ∀ query_id int_doc_ids,
        (query_id, int_doc_ids) ∈ dc →
        is_Some (dict_get (queries self) query_id)
        ∧ ∀ int_doc_id, int_doc_id ∈ int_doc_ids →
                        is_Some (documents (index self) !! int_doc_id)
  | None =>
      ∀ int_doc_id,
        int_doc_id ∈ seqZ (document_base (index self))
                          (maximum_document (index self)
                           - document_base (index self)) →
        is_Some (documents (index self) !! int_doc_id)
  end.

(** The nonzero term identifiers of a document, in document order: the
    term stream without its zero padding. *)
Fixpoint retained (doc : list Z) : list Z :=
  match doc with
  | [] => []
  | term_id :: doc' =>
      if decide (term_id = 0) then retained doc' else term_id :: retained doc'
  end.

(** [vec] gives the embedding vectors of the nonzero terms of [doc]: for
    each of them the vector the word2vec model holds for the term's token,
    with the 300 entries of a row of [doc_model]. *)
Definition embeds (self : t) (doc : list Z) (vec : Z → list R) : Prop :=
  ∀ term_id, term_id ∈ doc → term_id ≠ 0 →
    ∃ token, id2token self !! term_id = Some token
             ∧ wv (word2vec self) !! token = Some (vec term_id)
             ∧ length (vec term_id) = dim.

(** The model with other mixture weights. *)
Definition with_weights (lamb alph beta : R) (self : t) : t :=
  {| index := index self; inverted_index := inverted_index self;
     queries := queries self; col_freq := col_freq self;
     col_size := col_size self; doc_len := doc_len self;
     lamb := lamb; alph := alph; beta := beta;
     doc_col := doc_col self; token2id := token2id self;
     id2token := id2token self; id2df := id2df self;
     word2vec := word2vec self; doc_sim_sum := doc_sim_sum self;
     col_Nt := col_Nt self; sum_nT := sum_nT self |}.

(** The invariant of the loops of [run]: every nonzero entry of [scores]
    and every recorded pair is justified. *)
Definition loop_invariant {V} (zero : V) (is_zero : V → bool)
    (score_fl : Z → list Z → res V) (self : t)
    (doc_col : option (list (string * list Z)))
    (st : gmap string (gmap string V) * run_data_fl V) : Prop :=
  (∀ qid ext, is_zero (scores_get_fl zero st.1 qid ext) = false →
              justified is_zero score_fl self doc_col qid ext
                (scores_get_fl zero st.1 qid ext))
  ∧ (∀ qid s ext, (s, ext) ∈ data_get st.2 qid →
                  justified is_zero score_fl self doc_col qid ext s).

End Spec.

(** ** A small collection

    Three tokens with vectors in a plane of the 300-dimensional space, four
    documents, two queries.  The caches are the ones the builders compute
    for these documents and queries. *)

Module Toy.
Import GeneralizedLanguageModel.

Definition token2id : gmap string Z := {["a" := 1; "b" := 2; "c" := 3]}.
Definition id2token : gmap Z string := {[1 := "a"; 2 := "b"; 3 := "c"]}.
Definition id2df : gmap Z Z := {[1 := 3; 2 := 2; 3 := 2]}.

Definition index : Index :=
  {| documents := {[1 := ("D1", [1; 2; 0; 3; 1]);
                    2 := ("D2", [1]);
                    3 := ("D3", [1; 1; 1]);
                    4 := ("D4", [2; 3; 2])]};
     document_base := 1;
     maximum_document := 5;
     get_dictionary := (token2id, id2token, id2df) |}.

Definition inverted_index : gmap Z (gmap Z Z) :=
  {[1 := {[1 := 2; 2 := 1; 3 := 3]};
    2 := {[1 := 1; 4 := 2]};
    3 := {[1 := 1; 4 := 1]}]}.

Definition doc_len : gmap Z Z := {[1 := 4; 2 := 1; 3 := 3; 4 := 3]}.
Definition col_freq : gmap Z Z := {[1 := 6; 2 := 3; 3 := 2]}.
Definition queries : list (string * list Z) := [("q1", [1]); ("q2", [1; 2])].

(** Vectors of the row length: two leading entries, then zeros. *)
Definition pad (v : list R) : list R := v ++ replicate (dim - length v) 0%R.
Definition va : list R := pad [1; 0]%R.
Definition vb : list R := pad [0; 1]%R.
Definition vc : list R := pad [3; 4]%R.

Definition vectors : gmap string (list R) :=
  {["a" := va; "b" := vb; "c" := vc]}.

Definition neighbours (token : string) : res (list (string * R)) :=
  if decide (token = "a") then Ok [("c", 3 / 5); ("b", 0)]%R
  else if decide (token = "b") then Ok [("c", 4 / 5); ("a", 0)]%R
  else if decide (token = "c") then Ok [("b", 4 / 5); ("a", 3 / 5)]%R
  else Err KeyError.

Definition word2vec : Word2Vec :=
  {| wv := vectors;
     most_similar := λ token topn, take topn <$> neighbours token |}.

Definition doc_sim_sum : gmap Z R :=
  {[1 := (7 / 5)%R; 2 := 0%R; 3 := 1%R; 4 := (4 / 5)%R]}.
Definition col_Nt : gmap string (list string) :=
  {["a" := ["c"; "b"]; "b" := ["c"; "a"]]}.
Definition sum_nT : gmap string R := {["a" := 3 / 5; "b" := 4 / 5]}%R.

Definition fs : FS :=
  {| pkl_doc_sim_sums := Some doc_sim_sum;
     pkl_col_Nt := Some (col_Nt, sum_nT);
     files := ∅ |}.

Definition doc_col : list (string * list Z) :=
  [("q2", [3; 1]); ("q1", [1; 3; 4; 2])].

(** The model [__init__] builds from these with the given weights. *)
Definition model (lamb alph beta : R) : t :=
  {| GeneralizedLanguageModel.index := index;
     GeneralizedLanguageModel.inverted_index := inverted_index;
     GeneralizedLanguageModel.queries := queries;
     GeneralizedLanguageModel.col_freq := col_freq;
     GeneralizedLanguageModel.col_size := 6;
     GeneralizedLanguageModel.doc_len := doc_len;
     GeneralizedLanguageModel.lamb := lamb;
     GeneralizedLanguageModel.alph := alph;
     GeneralizedLanguageModel.beta := beta;
     GeneralizedLanguageModel.doc_col := Some doc_col;
     GeneralizedLanguageModel.token2id := token2id;
     GeneralizedLanguageModel.id2token := id2token;
     GeneralizedLanguageModel.id2df := id2df;
     GeneralizedLanguageModel.word2vec := word2vec;
     GeneralizedLanguageModel.doc_sim_sum := doc_sim_sum;
     GeneralizedLanguageModel.col_Nt := col_Nt;
     GeneralizedLanguageModel.sum_nT := sum_nT |}.

(** A stand-in for [Helper.write_run]: one entry per query. *)
Definition write_run (model_name : string) (data : run_data)
    (max_objects_per_query : nat) : string :=
  foldr (λ '(query_id, results) out,
           query_id +:+ " " +:+ model_name +:+ " "
           +:+ foldr (λ r docs, r.2 +:+ " " +:+ docs) ""
                     (take max_objects_per_query results)
           +:+ ";" +:+ out)
        "" data.

Definition tfidf (tf_transform : string) : TFIDF.t :=
  TFIDF.init index inverted_index doc_len tf_transform.

(** A stand-in for the inherited [compute_idf]. *)
Definition compute_idf (self : TFIDF.t) (query_term_id : Z) : res R :=
  df ← getitem (id2df !! query_term_id);
  if decide (0 < df) then Ok (ln (4 / IZR df)) else Err ZeroDivisionError.

End Toy.

(** The model [__init__] builds over the same collection when [doc_col]
    lists documents 3 and 1 for the query "q2" only: the similarity sums
    cover these two documents and no other. *)
Module ToySubset.
Import GeneralizedLanguageModel.

Definition doc_col : list (string * list Z) := [("q2", [3; 1])].
Definition doc_sim_sum : gmap Z R := {[1 := (7 / 5)%R; 3 := 1%R]}.

Definition model (lamb alph beta : R) : t :=
  {| GeneralizedLanguageModel.index := Toy.index;
     GeneralizedLanguageModel.inverted_index := Toy.inverted_index;
     GeneralizedLanguageModel.queries := Toy.queries;
     GeneralizedLanguageModel.col_freq := Toy.col_freq;
     GeneralizedLanguageModel.col_size := 6;
     GeneralizedLanguageModel.doc_len := Toy.doc_len;
     GeneralizedLanguageModel.lamb := lamb;
     GeneralizedLanguageModel.alph := alph;
     GeneralizedLanguageModel.beta := beta;
     GeneralizedLanguageModel.doc_col := Some doc_col;
     GeneralizedLanguageModel.token2id := Toy.token2id;
     GeneralizedLanguageModel.id2token := Toy.id2token;
     GeneralizedLanguageModel.id2df := Toy.id2df;
     GeneralizedLanguageModel.word2vec := Toy.word2vec;
     GeneralizedLanguageModel.doc_sim_sum := doc_sim_sum;
     GeneralizedLanguageModel.col_Nt := Toy.col_Nt;
     GeneralizedLanguageModel.sum_nT := Toy.sum_nT |}.

End ToySubset.

(** The scores of the example collection as they are executed under the
    weights [(1, 0, 0)], over floats that are a finite number or [nan].
    Document 2 has the similarity sum [0]: for a nonempty query its
    document transform is [inf] or [nan], times [alph = 0] it is [nan],
    and [math.log(nan)] is [nan], so its score is [nan].  The other
    documents have finite scores, those of [score]. *)
Module ToyFloats.
Import GeneralizedLanguageModel.

Inductive float : Type :=
  | Finite (r : R)
  | NaN.

Definition zero : float := Finite 0.

(** [v == 0]. *)
Definition is_zero (v : float) : bool :=
  match v with
  | Finite r => if Req_dec_T r 0 then true else false
  | NaN => false
  end.

Definition score_fl (int_doc_id : Z) (query : list Z) : res float :=
  if decide (int_doc_id = 2) then Ok NaN
  else Finite <$> score (Toy.model 1 0 0) int_doc_id query.

(** A stand-in for [Helper.write_run], as [Toy.write_run]. *)
Definition write_run_fl (model_name : string) (data : run_data_fl float)
    (max_objects_per_query : nat) : string :=
  foldr (λ '(query_id, results) out,
           query_id +:+ " " +:+ model_name +:+ " "
           +:+ foldr (λ r docs, r.2 +:+ " " +:+ docs) ""
                     (take max_objects_per_query results)
           +:+ ";" +:+ out)
        "" data.

(** What the run over the candidates [1; 3; 4; 2] of query [q1] returns:
    document 1 with its score, document 2 with [nan]; document 3 scores
    exactly zero and document 4 holds no query term. *)
Definition data_q1 : run_data_fl float :=
  [("q1", [(Finite (0 + ln (2 / 4)), "D1"); (NaN, "D2")])].

End ToyFloats.

(** * Properties *)

(** ** The result monad and the numbers *)

Lemma bind_Ok {A B} (r : res A) (f : A → res B) (b : B) :
  (r ≫= f) = Ok b → ∃ a, r = Ok a ∧ f a = Ok b.
Proof. destruct r as [a|e]; [eauto | discriminate]. Qed.

Lemma py_div_Ok (a b : R) : b ≠ 0%R → py_div a b = Ok (a / b)%R.
Proof. intros Hb. unfold py_div. destruct (Req_dec_T b 0); [done | reflexivity]. Qed.

Lemma np_div_Ok (a b : R) : b ≠ 0%R → np_div a b = Ok (a / b)%R.
Proof. intros Hb. unfold np_div. destruct (Req_dec_T b 0); [done | reflexivity]. Qed.

Lemma np_div_cases (a b : R) :
  np_div a b = Ok (a / b)%R ∨ np_div a b = Err NonFinite.
Proof. unfold np_div. destruct (Req_dec_T b 0); [by right | by left]. Qed.

Lemma np_div_zero (a : R) : np_div a 0 = Err NonFinite.
Proof. unfold np_div. destruct (Req_dec_T 0 0); [reflexivity | done]. Qed.

Lemma np_dot_Ok (v w : list R) :
  length v = length w → np_dot v w = Ok (dot v w).
Proof. intros Hl. unfold np_dot. by rewrite decide_True. Qed.

Lemma aligned_Ok (query_vec : list R) :
  length query_vec = dim → aligned query_vec = Ok ().
Proof. intros Hl. unfold aligned. by rewrite decide_True. Qed.

Lemma np_sum_app (l k : list R) : np_sum (l ++ k) = (np_sum l + np_sum k)%R.
Proof.
  unfold np_sum. induction l as [|x l IH]; cbn; [lra|]. rewrite IH. lra.
Qed.

Lemma np_sum_zeros (n : nat) : np_sum (replicate n 0%R) = 0%R.
Proof. unfold np_sum. induction n as [|n IH]; cbn; [reflexivity|]. rewrite IH. lra. Qed.

Lemma dot_app (v w v' w' : list R) :
  length v = length w →
  dot (v ++ v') (w ++ w') = (dot v w + dot v' w')%R.
Proof.
  intros Hl. unfold dot. by rewrite zip_with_app, np_sum_app.
Qed.

Lemma dot_zeros (n : nat) : dot (replicate n 0%R) (replicate n 0%R) = 0%R.
Proof.
  unfold dot. rewrite zip_with_replicate.
  replace (0 * 0)%R with 0%R by lra. apply np_sum_zeros.
Qed.

Lemma math_log_Ok (x : R) : (0 < x)%R → math_log x = Ok (ln x).
Proof. intros Hx. unfold math_log. destruct (Rlt_dec 0 x); [reflexivity | done]. Qed.

Lemma math_log_Err (x : R) : (x <= 0)%R → math_log x = Err math_domain_error.
Proof. intros Hx. unfold math_log. destruct (Rlt_dec 0 x); [lra | reflexivity]. Qed.

(** ** TFIDF: the sublinear transform and the transform name *)

Section tfidf.
Import TFIDF.
Variable compute_idf : TFIDF.t → Z → res R.

Lemma log_tf_positive (self : TFIDF.t) (f : Z) :
  1 ≤ f → log_tf self f = Ok (1 + ln (IZR f))%R.
Proof.
  intros Hf. unfold log_tf. rewrite math_log_Ok; [reflexivity|].
  apply IZR_lt. lia.
Qed.

Lemma log_tf_nonpositive (self : TFIDF.t) (f : Z) :
  f ≤ 0 → log_tf self f = Err math_domain_error.
Proof.
  intros Hf. unfold log_tf. rewrite math_log_Err; [reflexivity|].
  apply IZR_le in Hf. exact Hf.
Qed.

Lemma score_unsupported (self : TFIDF.t) (d q f : Z) :
  tf_transform self ≠ "log" →
  score compute_idf self d q f = Err (unsupported (tf_transform self)).
Proof.
  intros Hne. unfold score.
  destruct (decide (tf_transform self = "log")); [done | reflexivity].
Qed.

(** C10.  With [tf_transform = 'log'], [TFIDF.score] needs
    [doc_term_freq >= 1]: for a frequency of [0] (and any frequency below
    [1]) the call to [math.log] inside [log_tf] raises the domain error
    before [compute_idf] is reached, whatever [compute_idf] does; from [1]
    on the transform is [1 + log(doc_term_freq)] and the score is that
    times the idf. *)
Theorem log_transform_requires_positive_frequency
    (self : TFIDF.t) (int_doc_id query_term_id doc_term_freq : Z) :
  tf_transform self = "log" →
  score compute_idf self int_doc_id query_term_id 0 = Err math_domain_error
  ∧ (doc_term_freq ≤ 0 →
     score compute_idf self int_doc_id query_term_id doc_term_freq
     = Err math_domain_error)
  ∧ (1 ≤ doc_term_freq →
     score compute_idf self int_doc_id query_term_id doc_term_freq
     = (idf ← compute_idf self query_term_id;
        Ok ((1 + ln (IZR doc_term_freq)) * idf)%R)).
Proof.
  intros Hlog. unfold score.
  destruct (decide (tf_transform self = "log")) as [_|]; [|done].
  split; [|split].
  - by rewrite log_tf_nonpositive.
  - intros Hf. by rewrite log_tf_nonpositive.
  - intros Hf. by rewrite log_tf_positive.
Qed.
End tfidf.

Lemma log_transform_requires_positive_frequency_witness :
  TFIDF.tf_transform (Toy.tfidf "log") = "log"
  ∧ TFIDF.score Toy.compute_idf (Toy.tfidf "log") 2 1 0
    = Err math_domain_error.
Proof.
  split; [reflexivity|].
  exact (proj1 (log_transform_requires_positive_frequency
                  Toy.compute_idf (Toy.tfidf "log") 2 1 0 eq_refl)).
Defined.

(** ** The driver's guard on an existing run file *)

Section run_guard.
Import GeneralizedLanguageModel.
Variable write_run : string → run_data → nat → string.

(** C6.  When the run file of [model_name] exists, [run] returns [None]
    and the files are exactly as before, whatever the model, the
    candidate documents and the scores would be: nothing is scored and
    nothing is written. *)
Theorem run_existing_output_untouched (self : t) (model_name : string)
    (doc_col : option (list (string * list Z))) (fs : FS) :
  is_Some (files fs !! run_out_path model_name) →
  run write_run self model_name doc_col fs = (Ok None, fs).
Proof.
  intros Hex. unfold run.
  destruct (decide (is_Some (files fs !! run_out_path model_name)));
    [reflexivity | done].
Qed.

(** X28.  A run that wrote its file is followed by no-op runs for that name. *)
Lemma run_twice (self self' : t) (model_name : string)
    (doc_col doc_col' : option (list (string * list Z)))
    (fs fs' : FS) (data : run_data) :
  run write_run self model_name doc_col fs = (Ok (Some data), fs') →
  run write_run self' model_name doc_col' fs' = (Ok None, fs').
Proof.
  unfold run at 1.
  destruct (decide (is_Some (files fs !! run_out_path model_name)));
    [discriminate|].
  destruct (match doc_col with
            | Some dc => run_doc_col self dc
            | None => run_all_documents self
            end) as [[scores data']|e]; [|discriminate].
  intros [= _ <-]. unfold run. cbn.
  rewrite lookup_insert_eq.
  destruct (decide (is_Some (Some (write_run model_name data' 1000%nat))))
    as [_|Hn]; [reflexivity|].
  destruct Hn. by eexists.
Qed.

End run_guard.

Lemma run_existing_output_untouched_witness :
  let fs := {| pkl_doc_sim_sums := None; pkl_col_Nt := None;
               files := {[ GeneralizedLanguageModel.run_out_path "GLM" := "old" ]} |} in
  GeneralizedLanguageModel.run Toy.write_run (Toy.model 1 0 0) "GLM"
    (Some Toy.doc_col) fs = (Ok None, fs).
Proof.
  intros fs.
  apply (run_existing_output_untouched Toy.write_run (Toy.model 1 0 0)
           "GLM" (Some Toy.doc_col) fs).
  exists "old". apply lookup_singleton_eq.
Defined.

(** ** Loops *)

Lemma forM_ext {A B} (f : A → res B) (g : A → B) (l : list A) :
  (∀ a, a ∈ l → f a = Ok (g a)) → forM f l = Ok (g <$> l).
Proof.
  induction l as [|a l IH]; intros Hf; [reflexivity|]. cbn.
  rewrite (Hf a) by left. cbn.
  rewrite IH; [reflexivity|]. intros b Hb. apply Hf. by right.
Qed.

Lemma forM_Ok_inv {A B} (f : A → res B) (l : list A) (bs : list B) :
  forM f l = Ok bs → Forall2 (λ a b, f a = Ok b) l bs.
Proof.
  revert bs. induction l as [|a l IH]; intros bs; cbn.
  - intros [= <-]. constructor.
  - intros H. apply bind_Ok in H as (b & Hb & H).
    apply bind_Ok in H as (bs' & Hbs & [= <-]).
    constructor; [done | by apply IH].
Qed.

Lemma forM_zip {A B C} (f : A → res B) (g : B → A → C) (l : list A)
    (bs : list B) :
  forM f l = Ok bs →
  forM (λ a, b ← f a; Ok (g b a)) l = Ok (zip_with g bs l).
Proof.
  revert bs. induction l as [|a l IH]; intros bs; cbn.
  - by intros [= <-].
  - intros H. apply bind_Ok in H as (b & Hb & H).
    apply bind_Ok in H as (bs' & Hbs & [= <-]).
    rewrite Hb. cbn. by rewrite (IH bs').
Qed.

Lemma foldM_Ok_inv {A S} (f : S → A → res S) (P : S → Prop) (l : list A)
    (s s' : S) :
  (∀ s a s', a ∈ l → P s → f s a = Ok s' → P s') →
  P s → foldM f s l = Ok s' → P s'.
Proof.
  revert s. induction l as [|a l IH]; intros s Hstep Hs; cbn.
  - by intros [= <-].
  - intros Hfold. apply bind_Ok in Hfold as (s1 & Hs1 & Hfold).
    apply (IH s1); [| |exact Hfold].
    + intros t b t' Hb Ht Hf. apply (Hstep t b t'); [by right|exact Ht|exact Hf].
    + apply (Hstep s a s1); [by left|exact Hs|exact Hs1].
Qed.

(** ** [np.unique] and [np.triu_indices] *)

Lemma elem_of_insert_unique (x y : Z) (l : list Z) :
  y ∈ GeneralizedLanguageModel.insert_unique x l ↔ y = x ∨ y ∈ l.
Proof.
  induction l as [|z l IH]; cbn.
  - rewrite list_elem_of_singleton, elem_of_nil. tauto.
  - destruct (decide (x < z)); [rewrite !elem_of_cons; tauto|].
    destruct (decide (x = z)) as [->|]; [rewrite !elem_of_cons; tauto|].
    rewrite !elem_of_cons, IH. tauto.
Qed.

Lemma elem_of_np_unique (l : list Z) (x : Z) :
  x ∈ GeneralizedLanguageModel.np_unique l ↔ x ∈ l.
Proof.
  induction l as [|y l IH]; cbn; [done|].
  rewrite elem_of_insert_unique, elem_of_cons.
  unfold GeneralizedLanguageModel.np_unique in IH. by rewrite IH.
Qed.

Lemma elem_of_triu_indices (n : Z) (a b : nat) :
  (a, b) ∈ GeneralizedLanguageModel.triu_indices n 1
  ↔ (a < b)%nat ∧ (b < Z.to_nat n)%nat.
Proof.
  unfold GeneralizedLanguageModel.triu_indices.
  rewrite list_elem_of_bind. split.
  - intros (a' & Hin & Ha'). apply list_elem_of_fmap in Hin as (b' & [= -> ->] & Hb').
    apply list_elem_of_filter in Hb' as [Hlt Hb'].
    apply elem_of_seq in Hb'. lia.
  - intros [Hab Hb]. exists a. split.
    + apply list_elem_of_fmap. exists b. split; [done|].
      apply list_elem_of_filter. split; [lia|]. apply elem_of_seq. lia.
    + apply elem_of_seq. lia.
Qed.

Lemma shift_pairs (P Q : nat → nat → Prop)
    `{∀ a b, Decision (P a b)} `{∀ a b, Decision (Q a b)} (l l' : list nat) :
  (∀ a b, P a b ↔ Q (S a) (S b)) →
  (λ ij : nat * nat, (S ij.1, S ij.2)) <$> (a ← l; pair a <$> filter (P a) l')
  = (i ← S <$> l; pair i <$> filter (Q i) (S <$> l')).
Proof.
  intros HPQ.
  assert (Hin : ∀ a, (λ ij : nat * nat, (S ij.1, S ij.2)) <$> (pair a <$> filter (P a) l')
                     = pair (S a) <$> filter (Q (S a)) (S <$> l')).
  { intros a. induction l' as [|b l' IH]; [reflexivity|].
    rewrite fmap_cons, !filter_cons.
    destruct (decide (P a b)) as [Hp|Hp], (decide (Q (S a) (S b))) as [Hq|Hq].
    - cbn. f_equal. apply IH.
    - destruct Hq. by apply HPQ.
    - destruct Hp. by apply HPQ.
    - apply IH. }
  induction l as [|a l IH]; [reflexivity|].
  cbn. rewrite fmap_app, Hin. f_equal. apply IH.
Qed.

Lemma inner_pairs_triu (n : nat) :
  (λ ij : nat * nat, (S ij.1, S ij.2))
    <$> GeneralizedLanguageModel.triu_indices (Z.of_nat n - 1) 1
  = Spec.inner_pairs n.
Proof.
  unfold GeneralizedLanguageModel.triu_indices, Spec.inner_pairs.
  replace (Z.to_nat (Z.of_nat n - 1)) with (n - 1)%nat by lia.
  rewrite <- (fmap_S_seq 0 (n - 1)).
  apply shift_pairs. intros a b. lia.
Qed.

(** ** The document similarity sums *)

Lemma norm_eq (v : list R) (r : R) : (0 <= r)%R → dot v v = (r * r)%R → norm v = r.
Proof. intros Hr Hv. unfold norm. rewrite Hv. by apply sqrt_square. Qed.

Section doc_sim_sum.
Import GeneralizedLanguageModel.

Lemma fancy_index_inner (M : list (list (res R))) (a b : nat) :
  fancy_index (drop 1 <$> drop 1 M) (a, b) = fancy_index M (S a, S b).
Proof.
  unfold fancy_index. cbn [fst snd].
  rewrite list_lookup_fmap, lookup_drop.
  change (1 + a)%nat with (S a).
  destruct (M !! S a) as [row|]; cbn; [|reflexivity].
  by rewrite lookup_drop.
Qed.

Lemma fancy_index_cos_sim (vs : list (list R)) (i j : nat) (vi vj : list R) :
  vs !! i = Some vi → vs !! j = Some vj →
  fancy_index (cos_sim_matrix vs) (i, j)
  = (s ← np_div (dot vi vj) (norm vi); np_div s (norm vj)).
Proof.
  intros Hi Hj. unfold fancy_index, cos_sim_matrix. cbn [fst snd].
  rewrite list_lookup_fmap, Hi. cbn.
  by rewrite list_lookup_fmap, Hj.
Qed.

Lemma cosine_cell (vi vj : list R) :
  norm vi ≠ 0%R → norm vj ≠ 0%R →
  (s ← np_div (dot vi vj) (norm vi); np_div s (norm vj))
  = Ok (Spec.cosine vi vj).
Proof.
  intros Hi Hj. rewrite np_div_Ok by done. cbn.
  rewrite np_div_Ok by done. unfold Spec.cosine. f_equal. by field.
Qed.

Lemma inner_cells (vs : list (list R)) :
  Forall (λ v, norm v ≠ 0%R) (drop 1 vs) →
  forM (fancy_index (drop 1 <$> drop 1 (cos_sim_matrix vs)))
       (triu_indices (Z.of_nat (length vs) - 1) 1)
  = Ok ((λ ij, Spec.cosine (vs !!! ij.1) (vs !!! ij.2))
          <$> Spec.inner_pairs (length vs)).
Proof.
  intros Hnz. rewrite <- inner_pairs_triu, <- list_fmap_compose.
  apply forM_ext. intros [a b] Hin.
  apply elem_of_triu_indices in Hin as [Hab Hb].
  destruct (lookup_lt_is_Some_2 vs (S a)) as [vi Hi]; [lia|].
  destruct (lookup_lt_is_Some_2 vs (S b)) as [vj Hj]; [lia|].
  rewrite fancy_index_inner, (fancy_index_cos_sim vs _ _ vi vj) by done.
  rewrite cosine_cell.
  - cbn. by rewrite (list_lookup_total_correct _ _ _ Hi),
                    (list_lookup_total_correct _ _ _ Hj).
  - apply (Forall_lookup_1 _ _ a vi Hnz). by rewrite lookup_drop.
  - apply (Forall_lookup_1 _ _ b vj Hnz). by rewrite lookup_drop.
Qed.

Lemma doc_sim_sum_of_Ok (self : t) (d : Z) (ext : string) (doc : list Z)
    (vs : list (list R)) :
  documents (index self) !! d = Some (ext, doc) →
  forM (term_row self) (filter_doc doc) = Ok vs →
  Forall (λ v, norm v ≠ 0%R) (drop 1 vs) →
  doc_sim_sum_of self d = Ok (Spec.pair_cos_sum vs).
Proof.
  intros Hdoc Hvs Hnz. unfold doc_sim_sum_of, document.
  rewrite Hdoc. cbn. rewrite Hvs. cbn.
  rewrite (Forall2_length _ _ _ (forM_Ok_inv _ _ _ Hvs)).
  by rewrite inner_cells.
Qed.


Lemma doc_sim_sums_fold (self : t) (ids : list Z) (acc sums : gmap Z R) :
  foldM (λ doc_sim_sums int_doc_id,
           s ← doc_sim_sum_of self int_doc_id;
           Ok (<[int_doc_id := s]> doc_sim_sums)) acc ids = Ok sums →
  ∀ d, (d ∈ ids → ∃ r, doc_sim_sum_of self d = Ok r ∧ sums !! d = Some r)
       ∧ (d ∉ ids → sums !! d = acc !! d).
Proof.
  revert acc. induction ids as [|a ids IH]; intros acc; cbn.
  - intros [= <-] d. split; [by intros ?%elem_of_nil | done].
  - intros Hfold d. apply bind_Ok in Hfold as (acc1 & Hacc1 & Hfold).
    apply bind_Ok in Hacc1 as (r & Hr & [= <-]).
    destruct (IH _ Hfold d) as [Hin Hout].
    destruct (decide (d ∈ ids)) as [Hd|Hd].
    + split; [by intros _; apply Hin | intros Hn; destruct Hn; by right].
    + rewrite (Hout Hd). split.
      * intros [->|?]%elem_of_cons; [|done].
        exists r. by rewrite lookup_insert_eq.
      * intros Hn. apply lookup_insert_ne. intros ->. apply Hn. by left.
Qed.

Lemma doc_sim_sums_total (self : t) (ids : list Z) (acc : gmap Z R) :
  (∀ d, d ∈ ids → ∃ r, doc_sim_sum_of self d = Ok r) →
  ∃ sums, foldM (λ doc_sim_sums int_doc_id,
                   s ← doc_sim_sum_of self int_doc_id;
                   Ok (<[int_doc_id := s]> doc_sim_sums)) acc ids = Ok sums.
Proof.
  revert acc. induction ids as [|a ids IH]; intros acc Hall; cbn; [eauto|].
  destruct (Hall a) as [r Hr]; [by left|]. rewrite Hr. cbn.
  apply IH. intros d Hd. apply Hall. by right.
Qed.

Lemma compute_doc_sim_sum_lookup (self : t) (dc : list (string * list Z))
    (sums : gmap Z R) (d : Z) :
  doc_col self = Some dc →
  compute_doc_sim_sum self = Ok sums →
  d ∈ concat dc.*2 →
  ∃ r, doc_sim_sum_of self d = Ok r ∧ sums !! d = Some r.
Proof.
  intros Hdc Hsum Hd. unfold compute_doc_sim_sum, self_doc_col in Hsum.
  rewrite Hdc in Hsum. cbn in Hsum.
  apply (doc_sim_sums_fold _ _ _ _ Hsum d). by apply elem_of_np_unique.
Qed.

Lemma filter_doc_retained (doc : list Z) : filter_doc doc = Spec.retained doc.
Proof.
  unfold filter_doc. induction doc as [|term_id doc IH]; [reflexivity|].
  rewrite filter_cons. cbn.
  destruct (decide (term_id = 0)) as [->|Hne].
  - by rewrite decide_False by (intros H; by apply H).
  - by rewrite decide_True, IH.
Qed.

Lemma embeds_rows (self : t) (doc : list Z) (vec : Z → list R) :
  Spec.embeds self doc vec →
  forM (term_row self) (filter_doc doc) = Ok (vec <$> Spec.retained doc).
Proof.
  intros Hvec. rewrite <- filter_doc_retained. apply forM_ext.
  intros term_id [Hne Hin]%list_elem_of_filter.
  destruct (Hvec term_id Hin Hne) as (token & Htok & Hv & Hlen).
  unfold term_row, term_vector. rewrite Htok. cbn. rewrite Hv. cbn.
  unfold set_row. by rewrite decide_True.
Qed.

Lemma doc_sim_sum_of_embedded (self : t) (d : Z) (ext : string)
    (doc : list Z) (vec : Z → list R) :
  documents (index self) !! d = Some (ext, doc) →
  Spec.embeds self doc vec →
  Forall (λ term_id, norm (vec term_id) ≠ 0%R) (drop 1 (Spec.retained doc)) →
  doc_sim_sum_of self d = Ok (Spec.pair_cos_sum (vec <$> Spec.retained doc)).
Proof.
  intros Hdoc Hvec Hnz.
  apply (doc_sim_sum_of_Ok self d ext doc); [done | by apply embeds_rows|].
  rewrite <- fmap_drop. by apply Forall_fmap.
Qed.

(** C3.  Let [vec] give the embedding vector of each term.  A document of
    the index whose nonzero terms, in document order, have the embedding
    vectors [v_0 .. v_(n-1)], of nonzero norm from the second one on, gets
    from the loop body of [compute_doc_sim_sum] the sum of [cos(v_i, v_j)]
    over the index pairs with [1 <= i < j <= n - 1]: the pairs [i < j]
    without the row and the column of the first retained term.  That is
    the value the returned mapping holds for the document when it is a
    candidate, whatever the other candidates are.  And when every
    candidate document is such a document, [compute_doc_sim_sum] does
    return a mapping. *)
Theorem doc_sim_sum_is_inner_pair_sum (self : t)
    (dc : list (string * list Z)) (vec : Z → list R) :
  doc_col self = Some dc →
  (∀ d ext doc,
     documents (index self) !! d = Some (ext, doc) →
     Spec.embeds self doc vec →
     Forall (λ term_id, norm (vec term_id) ≠ 0%R)
            (drop 1 (Spec.retained doc)) →
     doc_sim_sum_of self d
     = Ok (np_sum ((λ ij, Spec.cosine ((vec <$> Spec.retained doc) !!! ij.1)
                                      ((vec <$> Spec.retained doc) !!! ij.2))
                     <$> Spec.inner_pairs (length (Spec.retained doc))))
     ∧ ∀ sums,
         d ∈ concat dc.*2 → compute_doc_sim_sum self = Ok sums →
         sums !! d
         = Some (np_sum
                   ((λ ij, Spec.cosine ((vec <$> Spec.retained doc) !!! ij.1)
                                       ((vec <$> Spec.retained doc) !!! ij.2))
                      <$> Spec.inner_pairs (length (Spec.retained doc)))))
  ∧ ((∀ d, d ∈ concat dc.*2 →
           ∃ ext doc,
             documents (index self) !! d = Some (ext, doc)
             ∧ Spec.embeds self doc vec
             ∧ Forall (λ term_id, norm (vec term_id) ≠ 0%R)
                      (drop 1 (Spec.retained doc))) →
     ∃ sums, compute_doc_sim_sum self = Ok sums).
Proof.
  intros Hdc. split.
  - intros d ext doc Hdoc Hvec Hnz.
    pose proof (doc_sim_sum_of_embedded self d ext doc vec Hdoc Hvec Hnz)
      as Hof.
    unfold Spec.pair_cos_sum in Hof. rewrite length_fmap in Hof.
    split; [exact Hof|].
    intros sums Hd Hsums.
    destruct (compute_doc_sim_sum_lookup self dc sums d Hdc Hsums Hd)
      as (r & Hr & Hlook).
    rewrite Hof in Hr. by injection Hr as <-.
  - intros Hall.
    destruct (doc_sim_sums_total self (np_unique (concat dc.*2)) ∅)
      as [sums Hsums].
    { intros d Hd. apply (proj1 (elem_of_np_unique _ _)) in Hd.
      destruct (Hall d Hd) as (ext & doc & Hdoc & Hvec & Hnz).
      eexists. by eapply doc_sim_sum_of_embedded. }
    exists sums. unfold compute_doc_sim_sum, self_doc_col. by rewrite Hdc.
Qed.

End doc_sim_sum.

(** ** The four component probabilities *)

Lemma np_sum_zip_div {A B} (g : A → B → R) (c : R) (l : list A) (k : list B) :
  np_sum (zip_with (λ a b, g a b / c)%R l k) = (np_sum (zip_with g l k) / c)%R.
Proof.
  unfold np_sum. revert k.
  induction l as [|a l IH]; intros [|b k]; cbn; try (unfold Rdiv; ring).
  rewrite IH. unfold Rdiv. ring.
Qed.

Section scorer.
Import GeneralizedLanguageModel.
Variable self : t.

Lemma compute_term_likelihood_Ok (query_term_id int_doc_id dl : Z) :
  doc_len self !! int_doc_id = Some dl → dl ≠ 0 →
  compute_term_likelihood self query_term_id int_doc_id
  = Ok (IZR (default 0%Z (default ∅ (inverted_index self !! query_term_id)
                            !! int_doc_id)) / IZR dl)%R.
Proof.
  intros Hdl Hnz. unfold compute_term_likelihood. rewrite Hdl. cbn.
  apply py_div_Ok. intros H0. by apply eq_IZR_R0 in H0.
Qed.

Lemma compute_bg_likelihood_Ok (query_term_id : Z) :
  col_size self ≠ 0 →
  compute_bg_likelihood self query_term_id
  = Ok (IZR (col_freq_get self query_term_id) / IZR (col_size self))%R.
Proof.
  intros Hnz. unfold compute_bg_likelihood.
  apply py_div_Ok. intros H0. by apply eq_IZR_R0 in H0.
Qed.

Lemma doc_transform_terms (query_vec : list R) (c : R) (stream : list Z)
    (vs : list (list R)) (terms : list Z) :
  norm query_vec ≠ 0%R → c ≠ 0%R →
  Forall (λ v, norm v ≠ 0%R) vs →
  forM (λ '(v, tf),
          s ← np_div (dot v query_vec) (norm v);
          similarity ← np_div s (norm query_vec);
          np_div (similarity * tf)%R c)
       (zip_with (λ v term_id, (v, term_count stream term_id)) vs terms)
  = Ok (zip_with (λ v term_id,
                    Spec.cosine v query_vec * term_count stream term_id / c)%R
                 vs terms).
Proof.
  intros Hq Hc Hvs. revert terms.
  induction Hvs as [|v vs Hv Hvs IH]; intros [|term_id terms]; try reflexivity.
  cbn [zip_with forM].
  rewrite (np_div_Ok _ (norm v)) by done. cbn [mbind res_bind].
  rewrite (np_div_Ok _ (norm query_vec)) by done. cbn [mbind res_bind].
  rewrite (np_div_Ok _ c) by done. cbn [mbind res_bind].
  rewrite IH. cbn [mbind res_bind]. do 3 f_equal.
  unfold Spec.cosine. by field.
Qed.

Lemma compute_doc_transform_Ok (query_term_id int_doc_id : Z) (doc : list Z)
    (query_vec : list R) (vs : list (list R)) (dss : R) (dl : Z) :
  term_vector self query_term_id = Ok query_vec →
  length query_vec = dim →
  forM (term_row self) (filter_doc doc) = Ok vs →
  doc_sim_sum self !! int_doc_id = Some dss →
  doc_len self !! int_doc_id = Some dl →
  norm query_vec ≠ 0%R →
  Forall (λ v, norm v ≠ 0%R) vs →
  (dss * IZR dl)%R ≠ 0%R →
  compute_doc_transform self query_term_id int_doc_id doc
  = Ok (np_sum (zip_with (λ v term_id,
                  Spec.cosine v query_vec
                  * term_count (filter_doc doc) term_id)%R
                  vs (filter_doc doc))
        / (dss * IZR dl))%R.
Proof.
  intros Hq Hlen Hvs Hdss Hdl Hnq Hnv Hc. unfold compute_doc_transform.
  rewrite Hq. cbn.
  rewrite (forM_zip (term_row self)
             (λ v term_id, (v, term_count (filter_doc doc) term_id))
             (filter_doc doc) vs Hvs).
  cbn. rewrite (aligned_Ok _ Hlen). cbn. rewrite Hdss, Hdl. cbn.
  rewrite (doc_transform_terms query_vec _ (filter_doc doc) vs) by done.
  cbn. by rewrite np_sum_zip_div.
Qed.

(** A zero normaliser: with a nonempty retained stream numpy divides by
    zero. *)
Lemma compute_doc_transform_zero_normaliser (query_term_id int_doc_id : Z)
    (doc : list Z) (query_vec v : list R) (vs : list (list R))
    (dss : R) (dl : Z) :
  term_vector self query_term_id = Ok query_vec →
  length query_vec = dim →
  forM (term_row self) (filter_doc doc) = Ok (v :: vs) →
  doc_sim_sum self !! int_doc_id = Some dss →
  doc_len self !! int_doc_id = Some dl →
  (dss * IZR dl)%R = 0%R →
  compute_doc_transform self query_term_id int_doc_id doc = Err NonFinite.
Proof.
  intros Hq Hlen Hvs Hdss Hdl Hc. unfold compute_doc_transform.
  rewrite Hq. cbn.
  rewrite (forM_zip (term_row self)
             (λ v term_id, (v, term_count (filter_doc doc) term_id))
             (filter_doc doc) (v :: vs) Hvs).
  cbn. rewrite (aligned_Ok _ Hlen). cbn. rewrite Hdss, Hdl. cbn.
  destruct (filter_doc doc) as [|term_id terms]; [by apply forM_Ok_inv, Forall2_length in Hvs|].
  cbn [zip_with forM]. rewrite Hc.
  destruct (np_div_cases (dot v query_vec) (norm v)) as [-> | ->];
    [cbn [mbind res_bind] | reflexivity].
  destruct (np_div_cases (dot v query_vec / norm v) (norm query_vec))
    as [-> | ->]; [cbn [mbind res_bind] | reflexivity].
  by rewrite np_div_zero.
Qed.

(** C2, as the code has it.  When the lookups succeed, the vectors have the
    row length of [doc_model] and no norm and no normaliser is zero,
    [compute_doc_transform] returns the sum over the
    positions of the retained term stream (one summand per occurrence,
    not per distinct term) of the cosine similarity of the vector at that
    position to the query term's vector, times the in-document frequency
    of the term at that position, the whole sum divided by the document's
    similarity sum times its length. *)
Theorem doc_transform_sums_over_occurrences (query_term_id int_doc_id : Z)
    (doc : list Z) (query_vec : list R) (vs : list (list R))
    (dss : R) (dl : Z) :
  term_vector self query_term_id = Ok query_vec →
  length query_vec = dim →
  forM (term_row self) (filter_doc doc) = Ok vs →
  doc_sim_sum self !! int_doc_id = Some dss →
  doc_len self !! int_doc_id = Some dl →
  norm query_vec ≠ 0%R →
  Forall (λ v, norm v ≠ 0%R) vs →
  (dss * IZR dl)%R ≠ 0%R →
  compute_doc_transform self query_term_id int_doc_id doc
  = Ok (np_sum (zip_with (λ v term_id,
                  Spec.cosine v query_vec
                  * term_count (filter_doc doc) term_id)%R
                  vs (filter_doc doc))
        / (dss * IZR dl))%R.
Proof. apply compute_doc_transform_Ok. Qed.
End scorer.

(** ** Evaluating the example collection *)

Module ToyFacts.
Import GeneralizedLanguageModel.

Lemma dot_pad (v w : list R) :
  length v = length w → dot (Toy.pad v) (Toy.pad w) = dot v w.
Proof.
  intros Hl. unfold Toy.pad. rewrite Hl, dot_app by done.
  rewrite dot_zeros. lra.
Qed.

Ltac dot_fact :=
  unfold Toy.va, Toy.vb, Toy.vc; rewrite dot_pad by reflexivity; cbn; lra.

Lemma dot_aa : dot Toy.va Toy.va = 1%R. Proof. dot_fact. Qed.
Lemma dot_ab : dot Toy.va Toy.vb = 0%R. Proof. dot_fact. Qed.
Lemma dot_ac : dot Toy.va Toy.vc = 3%R. Proof. dot_fact. Qed.
Lemma dot_ba : dot Toy.vb Toy.va = 0%R. Proof. dot_fact. Qed.
Lemma dot_bb : dot Toy.vb Toy.vb = 1%R. Proof. dot_fact. Qed.
Lemma dot_bc : dot Toy.vb Toy.vc = 4%R. Proof. dot_fact. Qed.
Lemma dot_ca : dot Toy.vc Toy.va = 3%R. Proof. dot_fact. Qed.
Lemma dot_cb : dot Toy.vc Toy.vb = 4%R. Proof. dot_fact. Qed.
Lemma dot_cc : dot Toy.vc Toy.vc = 25%R. Proof. dot_fact. Qed.

Lemma norm_a : norm Toy.va = 1%R.
Proof. apply norm_eq; [lra|]. rewrite dot_aa. lra. Qed.
Lemma norm_b : norm Toy.vb = 1%R.
Proof. apply norm_eq; [lra|]. rewrite dot_bb. lra. Qed.
Lemma norm_c : norm Toy.vc = 5%R.
Proof. apply norm_eq; [lra|]. rewrite dot_cc. lra. Qed.

Lemma vec_a : Toy.vectors !! "a" = Some Toy.va.
Proof. reflexivity. Qed.
Lemma vec_b : Toy.vectors !! "b" = Some Toy.vb.
Proof. reflexivity. Qed.
Lemma vec_c : Toy.vectors !! "c" = Some Toy.vc.
Proof. reflexivity. Qed.
Lemma snt_a : Toy.sum_nT !! "a" = Some (3 / 5)%R.
Proof. reflexivity. Qed.
Lemma snt_b : Toy.sum_nT !! "b" = Some (4 / 5)%R.
Proof. reflexivity. Qed.
Lemma dss_1 : Toy.doc_sim_sum !! 1 = Some (7 / 5)%R.
Proof. reflexivity. Qed.
Lemma dss_2 : Toy.doc_sim_sum !! 2 = Some 0%R.
Proof. reflexivity. Qed.
Lemma dss_3 : Toy.doc_sim_sum !! 3 = Some 1%R.
Proof. reflexivity. Qed.
Lemma dss_4 : Toy.doc_sim_sum !! 4 = Some (4 / 5)%R.
Proof. reflexivity. Qed.

Lemma term_vector_1 l a b : term_vector (Toy.model l a b) 1 = Ok Toy.va.
Proof. reflexivity. Qed.
Lemma term_vector_2 l a b : term_vector (Toy.model l a b) 2 = Ok Toy.vb.
Proof. reflexivity. Qed.
Lemma term_vector_3 l a b : term_vector (Toy.model l a b) 3 = Ok Toy.vc.
Proof. reflexivity. Qed.

End ToyFacts.

Create Rewrite HintDb example.
#[global] Hint Rewrite
  ToyFacts.vec_a ToyFacts.vec_b ToyFacts.vec_c
  ToyFacts.snt_a ToyFacts.snt_b
  ToyFacts.dss_1 ToyFacts.dss_2 ToyFacts.dss_3 ToyFacts.dss_4
  ToyFacts.norm_a ToyFacts.norm_b ToyFacts.norm_c
  ToyFacts.dot_aa ToyFacts.dot_ab ToyFacts.dot_ac
  ToyFacts.dot_ba ToyFacts.dot_bb ToyFacts.dot_bc
  ToyFacts.dot_ca ToyFacts.dot_cb ToyFacts.dot_cc
  ToyFacts.term_vector_1 ToyFacts.term_vector_2
  ToyFacts.term_vector_3 : example.

(** Lookups whose values are integers or strings are computed; the
    real-valued ones are rewritten with the facts above. *)
Ltac ev_lookups :=
  repeat match goal with
  | |- context [@lookup ?K ?V ?M ?L ?k ?m] =>
      lazymatch V with R => fail | list R => fail | _ => idtac end;
      let r := eval vm_compute in (@lookup K V M L k m) in
      progress change (@lookup K V M L k m) with r
  end.

Ltac ev_counts :=
  repeat match goal with
  | |- context [GeneralizedLanguageModel.term_count ?l ?t] =>
      let n := eval vm_compute in (length (filter (λ x, x = t) l)) in
      change (GeneralizedLanguageModel.term_count l t) with (INR n)
  end.

Ltac real_side :=
  unfold Spec.cosine; cbn [np_sum zip_with foldr];
  autorewrite with example; ev_counts;
  cbn [np_sum zip_with foldr INR]; unfold Datatypes.id; lra.

Ltac ev_step :=
  first
  [ rewrite py_div_Ok by real_side
  | rewrite np_dot_Ok by reflexivity
  | rewrite np_div_Ok by real_side
  | rewrite math_log_Ok by real_side
  | progress autorewrite with example
  | progress cbn [getitem mbind res_bind forM foldM fst snd default
                  from_option id]
  | progress ev_lookups ].

Ltac norms_nonzero :=
  repeat constructor; autorewrite with example; lra.

Ltac ev_streams :=
  repeat match goal with
  | |- context [GeneralizedLanguageModel.filter_doc ?d] =>
      let r := eval vm_compute in (GeneralizedLanguageModel.filter_doc d) in
      change (GeneralizedLanguageModel.filter_doc d) with r
  | |- context [Spec.distinct_terms ?d] =>
      let r := eval vm_compute in (Spec.distinct_terms d) in
      change (Spec.distinct_terms d) with r
  end.

Module ToyScores.
Import GeneralizedLanguageModel.

(** Document 1 with the query term 1: the term occurs twice, so it is
    counted twice with weight two. *)
Lemma doc_transform_1_1 l a b :
  compute_doc_transform (Toy.model l a b) 1 1 [1; 2; 0; 3; 1]
  = Ok (23 / 28)%R.
Proof.
  rewrite (compute_doc_transform_Ok _ 1 1 _ Toy.va
             [Toy.va; Toy.vb; Toy.vc; Toy.va] (7 / 5)%R 4);
    [ | reflexivity | reflexivity | reflexivity | reflexivity | reflexivity
      | norms_nonzero | norms_nonzero | lra ].
  f_equal. ev_streams. real_side.
Qed.

Lemma doc_transform_distinct_1_1 l a b :
  Spec.doc_transform_distinct (Toy.model l a b) 1 1 [1; 2; 0; 3; 1]
  = Ok (13 / 28)%R.
Proof.
  unfold Spec.doc_transform_distinct. ev_streams.
  cbn [doc_sim_sum doc_len Toy.model].
  repeat ev_step. f_equal. real_side.
Qed.

End ToyScores.

(** C2, counterexample.  Document 1 of the example retains the stream
    [1; 2; 3; 1].  For the query term 1 the code returns 23/28: the two
    occurrences of term 1 each contribute [cos * 2].  The sum over the
    distinct terms, each weighted once by its frequency, is 13/28. *)
Lemma doc_transform_counts_each_occurrence :
  GeneralizedLanguageModel.compute_doc_transform (Toy.model 1 0 0) 1 1
    [1; 2; 0; 3; 1] = Ok (23 / 28)%R
  ∧ Spec.doc_transform_distinct (Toy.model 1 0 0) 1 1 [1; 2; 0; 3; 1]
    = Ok (13 / 28)%R
  ∧ GeneralizedLanguageModel.compute_doc_transform (Toy.model 1 0 0) 1 1
      [1; 2; 0; 3; 1]
    ≠ Spec.doc_transform_distinct (Toy.model 1 0 0) 1 1 [1; 2; 0; 3; 1].
Proof.
  rewrite ToyScores.doc_transform_1_1,
          ToyScores.doc_transform_distinct_1_1.
  split; [reflexivity|]. split; [reflexivity|].
  intros [= H]. lra.
Qed.

Lemma doc_transform_sums_over_occurrences_witness :
  GeneralizedLanguageModel.compute_doc_transform (Toy.model 1 0 0) 1 1
    [1; 2; 0; 3; 1]
  = Ok (np_sum (zip_with (λ v term_id,
                  Spec.cosine v Toy.va
                  * GeneralizedLanguageModel.term_count
                      (GeneralizedLanguageModel.filter_doc [1; 2; 0; 3; 1]%Z)
                      term_id)%R
                  [Toy.va; Toy.vb; Toy.vc; Toy.va]
                  (GeneralizedLanguageModel.filter_doc [1; 2; 0; 3; 1]%Z))
        / (7 / 5 * IZR 4))%R.
Proof.
  apply (doc_transform_sums_over_occurrences (Toy.model 1 0 0) 1 1
           [1; 2; 0; 3; 1] Toy.va [Toy.va; Toy.vb; Toy.vc; Toy.va]
           (7 / 5)%R 4).
  - reflexivity.
  - reflexivity.
  - reflexivity.
  - reflexivity.
  - reflexivity.
  - norms_nonzero.
  - norms_nonzero.
  - lra.
Defined.


(** ** The score *)

Lemma foldM_app {A S} (f : S → A → res S) (s : S) (l1 l2 : list A) :
  foldM f s (l1 ++ l2) = (s' ← foldM f s l1; foldM f s' l2).
Proof.
  revert s. induction l1 as [|a l1 IH]; intros s; cbn; [reflexivity|].
  destruct (f s a) as [s1|e]; cbn; [apply IH | reflexivity].
Qed.

Lemma foldM_ext_in {A S} (f g : S → A → res S) (s : S) (l : list A) :
  (∀ s a, a ∈ l → f s a = g s a) → foldM f s l = foldM g s l.
Proof.
  revert s. induction l as [|a l IH]; intros s Hfg; cbn; [reflexivity|].
  rewrite (Hfg s a) by left.
  destruct (g s a) as [s1|e]; cbn; [|reflexivity].
  apply IH. intros s' b Hb. apply Hfg. by right.
Qed.

Lemma foldM_Err_elem {A S} (f : S → A → res S) (l : list A) (a : A) :
  a ∈ l → (∀ s, ∃ e, f s a = Err e) → ∀ s, ∃ e, foldM f s l = Err e.
Proof.
  intros Ha Hf. induction l as [|b l IH]; intros s; [by apply elem_of_nil in Ha|].
  cbn. apply elem_of_cons in Ha as [<-|Ha].
  - destruct (Hf s) as [e ->]. by exists e.
  - destruct (f s b) as [s1|e]; cbn; [by apply IH | by exists e].
Qed.

Section score.
Import GeneralizedLanguageModel.
Variable self : t.

Lemma score_unfold (d : Z) (q : list Z) (ext : string) (doc : list Z) :
  documents (index self) !! d = Some (ext, doc) →
  score self d q
  = foldM (λ score query_term_id,
             p ← mixture self query_term_id d doc;
             l ← math_log p;
             Ok (score + l)%R) 0%R q.
Proof. intros Hdoc. unfold score, document. by rewrite Hdoc. Qed.

Lemma mixture_boundary (t d : Z) (doc : list Z) (dt ct bg : R) :
  lamb self = 1%R → alph self = 0%R → beta self = 0%R →
  compute_doc_transform self t d doc = Ok dt →
  compute_col_transform self t = Ok ct →
  compute_bg_likelihood self t = Ok bg →
  mixture self t d doc = compute_term_likelihood self t d.
Proof.
  intros Hl Ha Hb Hdt Hct Hbg. unfold mixture.
  destruct (compute_term_likelihood self t d) as [tl|e]; [|reflexivity].
  cbn. rewrite Hdt, Hct, Hbg. cbn. rewrite Hl, Ha, Hb. f_equal. ring.
Qed.

(** C7, as the code has it.  With [lamb = 1] and [alph = beta = 0], for a
    document of the index and a query for whose terms the three other
    components evaluate (no lookup fails, no division by zero), [score]
    is the plain unsmoothed model: the sum over the query terms of
    [log(P_term(t, d))], and it fails exactly as that sum does when some
    [P_term] is not positive or cannot be computed. *)
Theorem boundary_weights_give_plain_model (d : Z) (q : list Z)
    (ext : string) (doc : list Z) :
  lamb self = 1%R → alph self = 0%R → beta self = 0%R →
  documents (index self) !! d = Some (ext, doc) →
  (∀ t, t ∈ q →
        ∃ dt ct bg,
          compute_doc_transform self t d doc = Ok dt
          ∧ compute_col_transform self t = Ok ct
          ∧ compute_bg_likelihood self t = Ok bg) →
  score self d q = Spec.plain_score self d q.
Proof.
  intros Hl Ha Hb Hdoc Hall. rewrite (score_unfold d q ext doc Hdoc).
  unfold Spec.plain_score. apply foldM_ext_in. intros s t Ht.
  destruct (Hall t Ht) as (dt & ct & bg & Hdt & Hct & Hbg).
  by rewrite (mixture_boundary t d doc dt ct bg).
Qed.

Lemma score_step_nonpositive (t d : Z) (doc : list Z) (p s : R) :
  mixture self t d doc = Ok p → (p <= 0)%R →
  (p ← mixture self t d doc; l ← math_log p; Ok (s + l)%R)
  = Err math_domain_error.
Proof. intros -> Hp. cbn. by rewrite math_log_Err. Qed.


Lemma score_first_nonpositive (d : Z) (q1 q2 : list Z) (ext : string)
    (doc : list Z) (t : Z) (p : R) :
  documents (index self) !! d = Some (ext, doc) →
  (∀ t', t' ∈ q1 → ∃ p', mixture self t' d doc = Ok p' ∧ (0 < p')%R) →
  mixture self t d doc = Ok p → (p <= 0)%R →
  score self d (q1 ++ t :: q2) = Err math_domain_error.
Proof.
  intros Hdoc Hq1 Hp Hle. rewrite (score_unfold d _ ext doc Hdoc), foldM_app.
  assert (∀ s, ∃ s', foldM (λ score query_term_id,
                             p ← mixture self query_term_id d doc;
                             l ← math_log p;
                             Ok (score + l)%R) s q1 = Ok s') as Hpre.
  { induction q1 as [|t1 q1 IH]; intros s; cbn; [eauto|].
    destruct (Hq1 t1) as (p1 & -> & Hpos); [by left|]. cbn.
    rewrite math_log_Ok by done. cbn. apply IH.
    intros t' Ht'. apply Hq1. by right. }
  destruct (Hpre 0%R) as [s' ->]. cbn.
  by rewrite (score_step_nonpositive t d doc p).
Qed.
End score.

(** ** Scores in the example collection *)

Module ToyMixtures.
Import GeneralizedLanguageModel.

Lemma doc_transform_2_1 l a b :
  compute_doc_transform (Toy.model l a b) 2 1 [1; 2; 0; 3; 1]
  = Ok (9 / 28)%R.
Proof.
  rewrite (compute_doc_transform_Ok _ 2 1 _ Toy.vb
             [Toy.va; Toy.vb; Toy.vc; Toy.va] (7 / 5)%R 4);
    [ | reflexivity | reflexivity | reflexivity | reflexivity | reflexivity
      | norms_nonzero | norms_nonzero | lra ].
  f_equal. ev_streams. real_side.
Qed.

Lemma doc_transform_1_3 l a b :
  compute_doc_transform (Toy.model l a b) 1 3 [1; 1; 1] = Ok 3%R.
Proof.
  rewrite (compute_doc_transform_Ok _ 1 3 _ Toy.va
             [Toy.va; Toy.va; Toy.va] 1%R 3);
    [ | reflexivity | reflexivity | reflexivity | reflexivity | reflexivity
      | norms_nonzero | norms_nonzero | lra ].
  f_equal. ev_streams. real_side.
Qed.

Lemma doc_transform_2_3 l a b :
  compute_doc_transform (Toy.model l a b) 2 3 [1; 1; 1] = Ok 0%R.
Proof.
  rewrite (compute_doc_transform_Ok _ 2 3 _ Toy.vb
             [Toy.va; Toy.va; Toy.va] 1%R 3);
    [ | reflexivity | reflexivity | reflexivity | reflexivity | reflexivity
      | norms_nonzero | norms_nonzero | lra ].
  f_equal. ev_streams. real_side.
Qed.

(** Document 2 retains a single term: its similarity sum is [0]. *)
Lemma doc_transform_1_2 l a b :
  compute_doc_transform (Toy.model l a b) 1 2 [1] = Err NonFinite.
Proof.
  apply (compute_doc_transform_zero_normaliser _ 1 2 [1] Toy.va Toy.va
           [] 0%R 1); [reflexivity..|lra].
Qed.

Lemma col_transform_1 l a b :
  compute_col_transform (Toy.model l a b) 1 = Ok (1 / 3)%R.
Proof.
  unfold compute_col_transform, cos_sim, col_freq_get.
  cbn [id2token word2vec wv col_Nt sum_nT token2id col_freq col_size
       Toy.model Toy.word2vec].
  repeat ev_step. f_equal. real_side.
Qed.

Lemma col_transform_2 l a b :
  compute_col_transform (Toy.model l a b) 2 = Ok (1 / 3)%R.
Proof.
  unfold compute_col_transform, cos_sim, col_freq_get.
  cbn [id2token word2vec wv col_Nt sum_nT token2id col_freq col_size
       Toy.model Toy.word2vec].
  repeat ev_step. f_equal. real_side.
Qed.

Lemma bg_likelihood_1 l a b :
  compute_bg_likelihood (Toy.model l a b) 1 = Ok (6 / 6)%R.
Proof. by rewrite compute_bg_likelihood_Ok. Qed.
Lemma bg_likelihood_2 l a b :
  compute_bg_likelihood (Toy.model l a b) 2 = Ok (3 / 6)%R.
Proof. by rewrite compute_bg_likelihood_Ok. Qed.
Lemma bg_likelihood_3 l a b :
  compute_bg_likelihood (Toy.model l a b) 3 = Ok (2 / 6)%R.
Proof. by rewrite compute_bg_likelihood_Ok. Qed.

Lemma term_likelihood_1_1 l a b :
  compute_term_likelihood (Toy.model l a b) 1 1 = Ok (2 / 4)%R.
Proof. by rewrite (compute_term_likelihood_Ok _ 1 1 4). Qed.
Lemma term_likelihood_2_1 l a b :
  compute_term_likelihood (Toy.model l a b) 2 1 = Ok (1 / 4)%R.
Proof. by rewrite (compute_term_likelihood_Ok _ 2 1 4). Qed.
Lemma term_likelihood_1_2 l a b :
  compute_term_likelihood (Toy.model l a b) 1 2 = Ok (1 / 1)%R.
Proof. by rewrite (compute_term_likelihood_Ok _ 1 2 1). Qed.
Lemma term_likelihood_1_3 l a b :
  compute_term_likelihood (Toy.model l a b) 1 3 = Ok (3 / 3)%R.
Proof. by rewrite (compute_term_likelihood_Ok _ 1 3 3). Qed.
Lemma term_likelihood_2_3 l a b :
  compute_term_likelihood (Toy.model l a b) 2 3 = Ok (0 / 3)%R.
Proof. by rewrite (compute_term_likelihood_Ok _ 2 3 3). Qed.

(** The mixtures under the weights [(1, 0, 0)]. *)
Lemma mixture_1_1 :
  mixture (Toy.model 1 0 0) 1 1 [1; 2; 0; 3; 1] = Ok (2 / 4)%R.
Proof.
  rewrite (mixture_boundary _ 1 1 _ (23 / 28) (1 / 3) (6 / 6));
    [apply term_likelihood_1_1 | reflexivity..
     | apply ToyScores.doc_transform_1_1 | apply col_transform_1
     | apply bg_likelihood_1].
Qed.
Lemma mixture_2_1 :
  mixture (Toy.model 1 0 0) 2 1 [1; 2; 0; 3; 1] = Ok (1 / 4)%R.
Proof.
  rewrite (mixture_boundary _ 2 1 _ (9 / 28) (1 / 3) (3 / 6));
    [apply term_likelihood_2_1 | reflexivity..
     | apply doc_transform_2_1 | apply col_transform_2
     | apply bg_likelihood_2].
Qed.
Lemma mixture_1_3 :
  mixture (Toy.model 1 0 0) 1 3 [1; 1; 1] = Ok (3 / 3)%R.
Proof.
  rewrite (mixture_boundary _ 1 3 _ 3 (1 / 3) (6 / 6));
    [apply term_likelihood_1_3 | reflexivity..
     | apply doc_transform_1_3 | apply col_transform_1
     | apply bg_likelihood_1].
Qed.
Lemma mixture_2_3 :
  mixture (Toy.model 1 0 0) 2 3 [1; 1; 1] = Ok (0 / 3)%R.
Proof.
  rewrite (mixture_boundary _ 2 3 _ 0 (1 / 3) (3 / 6));
    [apply term_likelihood_2_3 | reflexivity..
     | apply doc_transform_2_3 | apply col_transform_2
     | apply bg_likelihood_2].
Qed.

Lemma ln_half_negative : (ln (2 / 4) < 0)%R.
Proof. rewrite <- ln_1. apply ln_increasing; lra. Qed.
Lemma ln_one : ln (3 / 3) = 0%R.
Proof. replace (3 / 3)%R with 1%R by lra. apply ln_1. Qed.

Lemma score_1_q1 : score (Toy.model 1 0 0) 1 [1] = Ok (0 + ln (2 / 4))%R.
Proof.
  rewrite (score_unfold _ 1 [1] "D1" [1; 2; 0; 3; 1]) by reflexivity.
  cbn [foldM]. rewrite mixture_1_1. cbn [mbind res_bind].
  by rewrite math_log_Ok by lra.
Qed.

Lemma score_3_q1 : score (Toy.model 1 0 0) 3 [1] = Ok 0%R.
Proof.
  rewrite (score_unfold _ 3 [1] "D3" [1; 1; 1]) by reflexivity.
  cbn [foldM]. rewrite mixture_1_3. cbn [mbind res_bind].
  rewrite math_log_Ok by lra. cbn [mbind res_bind]. rewrite ln_one.
  f_equal. lra.
Qed.

Lemma score_1_q2 :
  score (Toy.model 1 0 0) 1 [1; 2] = Ok (0 + ln (2 / 4) + ln (1 / 4))%R.
Proof.
  rewrite (score_unfold _ 1 [1; 2] "D1" [1; 2; 0; 3; 1]) by reflexivity.
  cbn [foldM]. rewrite mixture_1_1. cbn [mbind res_bind].
  rewrite math_log_Ok by lra. cbn [mbind res_bind].
  rewrite mixture_2_1. cbn [mbind res_bind].
  by rewrite math_log_Ok by lra.
Qed.

Lemma score_3_q2 :
  score (Toy.model 1 0 0) 3 [1; 2] = Err math_domain_error.
Proof.
  apply (score_first_nonpositive _ 3 [1] [] "D3" [1; 1; 1] 2 (0 / 3));
    [reflexivity | | apply mixture_2_3 | lra].
  intros t' Ht'. apply list_elem_of_singleton in Ht' as ->.
  exists (3 / 3)%R. split; [apply mixture_1_3 | lra].
Qed.

Lemma score_2_q1 : score (Toy.model 1 0 0) 2 [1] = Err NonFinite.
Proof.
  rewrite (score_unfold _ 2 [1] "D2" [1]) by reflexivity.
  cbn [foldM]. unfold mixture.
  rewrite term_likelihood_1_2. cbn [mbind res_bind].
  by rewrite doc_transform_1_2.
Qed.

Lemma plain_score_2_q1 :
  Spec.plain_score (Toy.model 1 0 0) 2 [1] = Ok 0%R.
Proof.
  unfold Spec.plain_score. cbn [foldM].
  rewrite term_likelihood_1_2. cbn [mbind res_bind].
  rewrite math_log_Ok by lra. cbn [mbind res_bind].
  replace (1 / 1)%R with 1%R by lra. rewrite ln_1. f_equal. lra.
Qed.

End ToyMixtures.

(** C7, counterexample.  Document 2 of the example retains a single term, so
    its similarity sum is [0].  Under the weights [(1, 0, 0)] and the query
    [1] the plain model gives [log(1/1) = 0], but [score] still evaluates
    the document transform, where numpy divides by zero: the score is not a
    finite number. *)
Lemma boundary_weights_single_term_document :
  GeneralizedLanguageModel.lamb (Toy.model 1 0 0) = 1%R
  ∧ GeneralizedLanguageModel.alph (Toy.model 1 0 0) = 0%R
  ∧ GeneralizedLanguageModel.beta (Toy.model 1 0 0) = 0%R
  ∧ GeneralizedLanguageModel.score (Toy.model 1 0 0) 2 [1] = Err NonFinite
  ∧ Spec.plain_score (Toy.model 1 0 0) 2 [1] = Ok 0%R
  ∧ GeneralizedLanguageModel.score (Toy.model 1 0 0) 2 [1]
    ≠ Spec.plain_score (Toy.model 1 0 0) 2 [1].
Proof.
  rewrite ToyMixtures.score_2_q1, ToyMixtures.plain_score_2_q1.
  repeat split; discriminate.
Qed.

Lemma boundary_weights_give_plain_model_witness :
  GeneralizedLanguageModel.score (Toy.model 1 0 0) 1 [1; 2]
  = Spec.plain_score (Toy.model 1 0 0) 1 [1; 2].
Proof.
  apply (boundary_weights_give_plain_model (Toy.model 1 0 0) 1 [1; 2]
           "D1" [1; 2; 0; 3; 1]).
  - reflexivity.
  - reflexivity.
  - reflexivity.
  - reflexivity.
  - intros t Ht. apply elem_of_cons in Ht as [->|Ht];
      [|apply list_elem_of_singleton in Ht as ->].
    + exists (23 / 28)%R, (1 / 3)%R, (6 / 6)%R.
      split; [apply ToyScores.doc_transform_1_1|].
      split; [apply ToyMixtures.col_transform_1
             | apply ToyMixtures.bg_likelihood_1].
    + exists (9 / 28)%R, (1 / 3)%R, (3 / 6)%R.
      split; [apply ToyMixtures.doc_transform_2_1|].
      split; [apply ToyMixtures.col_transform_2
             | apply ToyMixtures.bg_likelihood_2].
Defined.

(** ** The loops of the driver *)

Lemma foldM_establish {A S} (f : S → A → res S) (Q : S → Prop) (l : list A)
    (a : A) (s s' : S) :
  a ∈ l → foldM f s l = Ok s' →
  (∀ s b s', b ∈ l → f s b = Ok s' → Q s → Q s') →
  (∀ s s', f s a = Ok s' → Q s') →
  Q s'.
Proof.
  revert s. induction l as [|b l IH]; intros s Ha Hfold Hmono Hest;
    [by apply elem_of_nil in Ha|].
  cbn in Hfold. apply bind_Ok in Hfold as (s1 & Hs1 & Hfold).
  apply elem_of_cons in Ha as [->|Hin].
  - apply (foldM_Ok_inv f Q l s1 s'); [|by apply (Hest s)|exact Hfold].
    intros t c t' Hc Ht Hf. apply (Hmono t c t'); [by right|exact Hf|exact Ht].
  - apply (IH s1 Hin Hfold); [|exact Hest].
    intros t c t' Hc. apply Hmono. by right.
Qed.

Lemma dict_get_update_eq {V} (d : list (string * V)) (k : string) (dflt : V)
    (f : V → V) :
  dict_get (dict_update d k dflt f) k = Some (f (default dflt (dict_get d k))).
Proof.
  induction d as [|[k' v] d IH]; cbn.
  - by destruct (decide (k = k)).
  - destruct (decide (k' = k)) as [->|Hne]; cbn.
    + by destruct (decide (k = k)).
    + by destruct (decide (k' = k)).
Qed.

Lemma dict_get_update_ne {V} (d : list (string * V)) (k k' : string)
    (dflt : V) (f : V → V) :
  k ≠ k' → dict_get (dict_update d k dflt f) k' = dict_get d k'.
Proof.
  intros Hne. induction d as [|[k1 v] d IH]; cbn.
  - by destruct (decide (k = k')).
  - destruct (decide (k1 = k)) as [->|Hne1]; cbn.
    + by destruct (decide (k = k')).
    + by rewrite IH.
Qed.

Section run_pair.
Import GeneralizedLanguageModel.
Variable self : t.

Lemma scores_get_set_eq scores (qid ext : string) (v : R) :
  scores_get (scores_set scores qid ext v) qid ext = v.
Proof.
  unfold scores_get, scores_set. rewrite lookup_insert_eq. cbn.
  by rewrite lookup_insert_eq.
Qed.

Lemma doc_is_in_inverted_index_spec (d : Z) (q : list Z) :
  doc_is_in_inverted_index self d q = true
  ↔ ∃ t, t ∈ q ∧ is_Some (default ∅ (inverted_index self !! t) !! d).
Proof.
  unfold doc_is_in_inverted_index.
  assert (∀ flag,
    foldl (λ flag t,
             match default ∅ (inverted_index self !! t) !! d with
             | Some _ => true
             | None => flag
             end) flag q = true
    ↔ flag = true
      ∨ ∃ t, t ∈ q ∧ is_Some (default ∅ (inverted_index self !! t) !! d))
    as Hgen.
  { induction q as [|t q IH]; intros flag; cbn.
    - split; [by left|]. intros [?|(t & Ht & _)]; [done|].
      by apply elem_of_nil in Ht.
    - rewrite IH. split.
      + intros [Hflag|(t' & Ht' & Hs)].
        * destruct (default ∅ (inverted_index self !! t) !! d) eqn:Ht.
          -- right. exists t. split; [by left|]. rewrite Ht. by eexists.
          -- by left.
        * right. exists t'. split; [by right|done].
      + intros [->|(t' & Ht' & Hs)].
        * left. by destruct (default ∅ (inverted_index self !! t) !! d).
        * apply elem_of_cons in Ht' as [->|Ht'].
          -- left. by destruct Hs as [x ->].
          -- right. by exists t'. }
  rewrite Hgen. split; [intros [?|?]; done | by right].
Qed.


Lemma run_pair_recorded (qid : string) (q : list Z) (d : Z) (ext : string)
    st (s : R) :
  doc_is_in_inverted_index self d q = true →
  score self d q = Ok s → s ≠ 0%R →
  run_pair self qid q d ext st
  = Ok (scores_set st.1 qid ext s,
        dict_update st.2 qid [] (λ l, l ++ [(s, ext)])).
Proof.
  intros Hin Hs Hnz. unfold run_pair. rewrite Hin, Hs. cbn.
  rewrite scores_get_set_eq. by destruct (Req_dec_T s 0).
Qed.

Lemma run_pair_zero (qid : string) (q : list Z) (d : Z) (ext : string) st :
  doc_is_in_inverted_index self d q = true →
  score self d q = Ok 0%R →
  run_pair self qid q d ext st = Ok (scores_set st.1 qid ext 0%R, st.2).
Proof.
  intros Hin Hs. unfold run_pair. rewrite Hin, Hs. cbn.
  rewrite scores_get_set_eq. by destruct (Req_dec_T 0 0).
Qed.

Lemma run_pair_skipped (qid : string) (q : list Z) (d : Z) (ext : string)
    st :
  doc_is_in_inverted_index self d q = false →
  scores_get st.1 qid ext = 0%R →
  run_pair self qid q d ext st = Ok (st.1, st.2).
Proof.
  intros Hin Hs. unfold run_pair. rewrite Hin. cbn. rewrite Hs.
  by destruct (Req_dec_T 0 0).
Qed.
End run_pair.

Lemma getitem_Ok {A} (o : option A) (a : A) : getitem o = Ok a → o = Some a.
Proof. destruct o; [by intros [= ->] | discriminate]. Qed.

Lemma document_Ok (ix : Index) (d : Z) (ext : string) (doc : list Z) :
  document ix d = Ok (ext, doc) → documents ix !! d = Some (ext, doc).
Proof. unfold document. destruct (documents ix !! d); [by intros [= ->] | discriminate]. Qed.

Lemma foldM_total {A S} (f : S → A → res S) (l : list A) (s : S) :
  (∀ s a, a ∈ l → ∃ s', f s a = Ok s') → ∃ s', foldM f s l = Ok s'.
Proof.
  revert s. induction l as [|a l IH]; intros s Hf; cbn; [by eauto|].
  destruct (Hf s a) as [s1 ->]; [by left|]. cbn.
  apply IH. intros s' b Hb. apply Hf. by right.
Qed.

(** The driver over the scores as executed. *)
Section executed_pair.
Import GeneralizedLanguageModel.
Context {V : Type}.
Variable zero : V.
Variable is_zero : V → bool.
Variable score_fl : Z → list Z → res V.
Variable self : t.

Lemma scores_get_fl_set_eq (scores : gmap string (gmap string V))
    (qid ext : string) (v : V) :
  scores_get_fl zero (scores_set_fl scores qid ext v) qid ext = v.
Proof.
  unfold scores_get_fl, scores_set_fl. rewrite lookup_insert_eq. cbn.
  by rewrite lookup_insert_eq.
Qed.

Lemma scores_get_fl_set_ne (scores : gmap string (gmap string V))
    (qid ext qid' ext' : string) (v : V) :
  (qid, ext) ≠ (qid', ext') →
  scores_get_fl zero (scores_set_fl scores qid ext v) qid' ext'
  = scores_get_fl zero scores qid' ext'.
Proof.
  intros Hne. unfold scores_get_fl, scores_set_fl.
  destruct (decide (qid = qid')) as [<-|Hq].
  - rewrite lookup_insert_eq. cbn. rewrite lookup_insert_ne; [done|].
    intros ->. by apply Hne.
  - by rewrite lookup_insert_ne.
Qed.

(** What one execution of the two [if]s does. *)
Lemma run_pair_fl_Ok_inv (qid : string) (q : list Z) (d : Z) (ext : string)
    st st' :
  run_pair_fl zero is_zero score_fl self qid q d ext st = Ok st' →
  ∃ scores',
    (if doc_is_in_inverted_index self d q
     then ∃ s, score_fl d q = Ok s ∧ scores' = scores_set_fl st.1 qid ext s
     else scores' = st.1)
    ∧ st' = (scores',
             if is_zero (scores_get_fl zero scores' qid ext) then st.2
             else dict_update st.2 qid []
                    (λ l, l ++ [(scores_get_fl zero scores' qid ext, ext)])).
Proof.
  unfold run_pair_fl. intros Hrun.
  apply bind_Ok in Hrun as (scores' & Hscores & Hrun).
  exists scores'. split.
  - destruct (doc_is_in_inverted_index self d q).
    + apply bind_Ok in Hscores as (s & Hs & [= <-]). by exists s.
    + by injection Hscores as <-.
  - by destruct (is_zero (scores_get_fl zero scores' qid ext));
      injection Hrun as <-.
Qed.

Lemma run_pair_fl_Err (qid : string) (q : list Z) (d : Z) (ext : string)
    st (e : exn) :
  doc_is_in_inverted_index self d q = true →
  score_fl d q = Err e →
  run_pair_fl zero is_zero score_fl self qid q d ext st = Err e.
Proof. intros Hin Hs. unfold run_pair_fl. by rewrite Hin, Hs. Qed.

Lemma run_pair_fl_recorded (qid : string) (q : list Z) (d : Z)
    (ext : string) st (s : V) :
  doc_is_in_inverted_index self d q = true →
  score_fl d q = Ok s → is_zero s = false →
  run_pair_fl zero is_zero score_fl self qid q d ext st
  = Ok (scores_set_fl st.1 qid ext s,
        dict_update st.2 qid [] (λ l, l ++ [(s, ext)])).
Proof.
  intros Hin Hs Hnz. unfold run_pair_fl. rewrite Hin, Hs. cbn.
  by rewrite scores_get_fl_set_eq, Hnz.
Qed.

Lemma run_pair_fl_zero (qid : string) (q : list Z) (d : Z) (ext : string)
    st (s : V) :
  doc_is_in_inverted_index self d q = true →
  score_fl d q = Ok s → is_zero s = true →
  run_pair_fl zero is_zero score_fl self qid q d ext st
  = Ok (scores_set_fl st.1 qid ext s, st.2).
Proof.
  intros Hin Hs Hz. unfold run_pair_fl. rewrite Hin, Hs. cbn.
  by rewrite scores_get_fl_set_eq, Hz.
Qed.

Lemma run_pair_fl_skipped (qid : string) (q : list Z) (d : Z) (ext : string)
    st :
  doc_is_in_inverted_index self d q = false →
  is_zero (scores_get_fl zero st.1 qid ext) = true →
  run_pair_fl zero is_zero score_fl self qid q d ext st = Ok (st.1, st.2).
Proof.
  intros Hin Hs. unfold run_pair_fl. rewrite Hin. cbn. by rewrite Hs.
Qed.

(** A pair is passed over or recorded, never an error, unless [score]
    raises. *)
Lemma run_pair_fl_total (qid : string) (q : list Z) (d : Z) (ext : string)
    st :
  (doc_is_in_inverted_index self d q = true → ∃ s, score_fl d q = Ok s) →
  ∃ st', run_pair_fl zero is_zero score_fl self qid q d ext st = Ok st'.
Proof.
  intros Hs. unfold run_pair_fl.
  destruct (doc_is_in_inverted_index self d q).
  - destruct Hs as [s ->]; [done|]. cbn.
    destruct (is_zero _); by eauto.
  - cbn. destruct (is_zero _); by eauto.
Qed.
End executed_pair.

Section executed_driver.
Import GeneralizedLanguageModel.
Context {V : Type}.
Variable zero : V.
Variable is_zero : V → bool.
Variable score_fl : Z → list Z → res V.
Variable self : t.
Variable doc_col : option (list (string * list Z)).
Hypothesis is_zero_zero : is_zero zero = true.

Lemma inv_init : Spec.loop_invariant zero is_zero score_fl self doc_col (∅, []).
Proof.
  split.
  - intros qid ext Hnz. unfold scores_get_fl in Hnz. cbn [fst] in Hnz.
    rewrite lookup_empty in Hnz. cbn in Hnz.
    rewrite lookup_empty in Hnz. cbn in Hnz. congruence.
  - intros qid s ext Hin. by apply elem_of_nil in Hin.
Qed.

Lemma run_pair_preserves (qid : string) (q : list Z) (d : Z) (ext : string)
    (doc : list Z) st st' :
  Spec.considered self doc_col qid q d →
  documents (index self) !! d = Some (ext, doc) →
  run_pair_fl zero is_zero score_fl self qid q d ext st = Ok st' →
  Spec.loop_invariant zero is_zero score_fl self doc_col st →
  Spec.loop_invariant zero is_zero score_fl self doc_col st'.
Proof.
  intros Hcons Hdoc Hrun [Hs Hd].
  apply run_pair_fl_Ok_inv in Hrun as (scores' & Hsc & ->).
  assert (∀ qid' ext', is_zero (scores_get_fl zero scores' qid' ext') = false →
            Spec.justified is_zero score_fl self doc_col qid' ext'
              (scores_get_fl zero scores' qid' ext')) as Hs'.
  { destruct (doc_is_in_inverted_index self d q) eqn:Hin.
    - destruct Hsc as (s & Hscore & ->). intros qid' ext'.
      destruct (decide ((qid, ext) = (qid', ext'))) as [[= <- <-]|Hne].
      + rewrite scores_get_fl_set_eq. intros Hnz. by exists q, d, doc.
      + rewrite scores_get_fl_set_ne by done. apply Hs.
    - subst scores'. exact Hs. }
  split; [exact Hs'|]. cbn [snd].
  destruct (is_zero (scores_get_fl zero scores' qid ext)) eqn:Hz;
    [exact Hd|].
  intros qid' s' ext' Hin'. unfold Spec.data_get in Hin'.
  destruct (decide (qid = qid')) as [<-|Hne].
  - rewrite dict_get_update_eq in Hin'. cbn in Hin'.
    apply elem_of_app in Hin' as [Hold|Hnew]; [by apply Hd|].
    apply list_elem_of_singleton in Hnew as [= -> ->]. by apply Hs'.
  - rewrite dict_get_update_ne in Hin' by done. by apply Hd.
Qed.

Lemma run_pair_mono (qid : string) (q : list Z) (d : Z) (ext : string)
    st st' (k e : string) (s : V) :
  run_pair_fl zero is_zero score_fl self qid q d ext st = Ok st' →
  (s, e) ∈ Spec.data_get st.2 k → (s, e) ∈ Spec.data_get st'.2 k.
Proof.
  intros Hrun Hin. apply run_pair_fl_Ok_inv in Hrun as (scores' & _ & ->).
  cbn [snd]. destruct (is_zero (scores_get_fl zero scores' qid ext)); [done|].
  unfold Spec.data_get in *. destruct (decide (qid = k)) as [<-|Hne].
  - rewrite dict_get_update_eq. cbn. apply elem_of_app. by left.
  - by rewrite dict_get_update_ne.
Qed.

Lemma run_pair_establishes (qid : string) (q : list Z) (d : Z)
    (ext : string) st st' (s : V) :
  doc_is_in_inverted_index self d q = true →
  score_fl d q = Ok s → is_zero s = false →
  run_pair_fl zero is_zero score_fl self qid q d ext st = Ok st' →
  (s, ext) ∈ Spec.data_get st'.2 qid.
Proof.
  intros Hin Hs Hnz Hrun.
  rewrite (run_pair_fl_recorded zero is_zero score_fl self qid q d ext st s
             Hin Hs Hnz) in Hrun.
  injection Hrun as <-. cbn [snd]. unfold Spec.data_get.
  rewrite dict_get_update_eq. cbn. apply elem_of_app. right. by left.
Qed.
End executed_driver.

Section executed_loops.
Import GeneralizedLanguageModel.
Context {V : Type}.
Variable zero : V.
Variable is_zero : V → bool.
Variable score_fl : Z → list Z → res V.
Variable self : t.
Hypothesis is_zero_zero : is_zero zero = true.

Lemma run_doc_col_justified (dc : list (string * list Z)) st :
  run_doc_col_fl zero is_zero score_fl self dc = Ok st →
  ∀ qid s ext, (s, ext) ∈ Spec.data_get st.2 qid →
               Spec.justified is_zero score_fl self (Some dc) qid ext s.
Proof.
  intros Hrun. unfold run_doc_col_fl in Hrun.
  refine (proj2 (foldM_Ok_inv _
                   (Spec.loop_invariant zero is_zero score_fl self (Some dc))
                   dc _ st _
                   (inv_init zero is_zero score_fl self (Some dc)
                      is_zero_zero) Hrun)).
  intros st0 [qid ds] st1 Hqds Hinv Hbody.
  apply bind_Ok in Hbody as (q & Hq%getitem_Ok & Hinner).
  refine (foldM_Ok_inv _
            (Spec.loop_invariant zero is_zero score_fl self (Some dc))
            ds _ st1 _ Hinv Hinner).
  intros st2 d st3 Hd Hinv2 Hstep.
  apply bind_Ok in Hstep as ([ext doc] & Hdoc%document_Ok & Hpair).
  apply (run_pair_preserves zero is_zero score_fl self (Some dc)
           qid q d ext doc st2 st3);
    [by exists ds | done..].
Qed.

Lemma run_all_documents_justified st :
  run_all_documents_fl zero is_zero score_fl self = Ok st →
  ∀ qid s ext, (s, ext) ∈ Spec.data_get st.2 qid →
               Spec.justified is_zero score_fl self None qid ext s.
Proof.
  intros Hrun. unfold run_all_documents_fl in Hrun.
  refine (proj2 (foldM_Ok_inv _
                   (Spec.loop_invariant zero is_zero score_fl self None)
                   _ _ st _
                   (inv_init zero is_zero score_fl self None is_zero_zero)
                   Hrun)).
  intros st0 d st1 Hd Hinv Hbody.
  apply bind_Ok in Hbody as ([ext doc] & Hdoc%document_Ok & Hinner).
  refine (foldM_Ok_inv _
            (Spec.loop_invariant zero is_zero score_fl self None)
            (queries self) _ st1 _ Hinv Hinner).
  intros st2 [qid q] st3 Hq Hinv2 Hpair.
  by apply (run_pair_preserves zero is_zero score_fl self None
              qid q d ext doc st2 st3).
Qed.

Lemma run_doc_col_records (dc : list (string * list Z)) st (qid : string)
    (q : list Z) (d : Z) (ext : string) (doc : list Z) (s : V) :
  run_doc_col_fl zero is_zero score_fl self dc = Ok st →
  Spec.considered self (Some dc) qid q d →
  documents (index self) !! d = Some (ext, doc) →
  doc_is_in_inverted_index self d q = true →
  score_fl d q = Ok s → is_zero s = false →
  (s, ext) ∈ Spec.data_get st.2 qid.
Proof.
  intros Hrun (ds & Hqds & Hd & Hq) Hdoc Hin Hs Hnz.
  unfold run_doc_col_fl in Hrun.
  apply (foldM_establish _ (λ st, (s, ext) ∈ Spec.data_get st.2 qid)
           dc (qid, ds) _ st Hqds Hrun).
  - intros st0 [qid' ds'] st1 _ Hbody Hold.
    apply bind_Ok in Hbody as (q' & _ & Hinner).
    refine (foldM_Ok_inv _ (λ st, (s, ext) ∈ Spec.data_get st.2 qid)
              ds' _ st1 _ Hold Hinner).
    intros st2 d' st3 _ Hold2 Hstep.
    apply bind_Ok in Hstep as ([ext' doc'] & _ & Hpair).
    by apply (run_pair_mono zero is_zero score_fl self qid' q' d' ext'
                st2 st3).
  - intros st0 st1 Hbody. rewrite Hq in Hbody. cbn in Hbody.
    apply (foldM_establish _ (λ st, (s, ext) ∈ Spec.data_get st.2 qid)
             ds d _ st1 Hd Hbody).
    + intros st2 d' st3 _ Hstep Hold.
      apply bind_Ok in Hstep as ([ext' doc'] & _ & Hpair).
      by apply (run_pair_mono zero is_zero score_fl self qid q d' ext'
                  st2 st3).
    + intros st2 st3 Hstep. unfold document in Hstep.
      rewrite Hdoc in Hstep. cbn in Hstep.
      by apply (run_pair_establishes zero is_zero score_fl self qid q d ext
                  st2 st3 s).
Qed.

Lemma run_all_documents_records st (qid : string) (q : list Z) (d : Z)
    (ext : string) (doc : list Z) (s : V) :
  run_all_documents_fl zero is_zero score_fl self = Ok st →
  Spec.considered self None qid q d →
  documents (index self) !! d = Some (ext, doc) →
  doc_is_in_inverted_index self d q = true →
  score_fl d q = Ok s → is_zero s = false →
  (s, ext) ∈ Spec.data_get st.2 qid.
Proof.
  intros Hrun [Hq Hd] Hdoc Hin Hs Hnz.
  unfold run_all_documents_fl in Hrun.
  apply (foldM_establish _ (λ st, (s, ext) ∈ Spec.data_get st.2 qid)
           _ d _ st Hd Hrun).
  - intros st0 d' st1 _ Hbody Hold.
    apply bind_Ok in Hbody as ([ext' doc'] & _ & Hinner).
    refine (foldM_Ok_inv _ (λ st, (s, ext) ∈ Spec.data_get st.2 qid)
              (queries self) _ st1 _ Hold Hinner).
    intros st2 [qid' q'] st3 _ Hold2 Hpair.
    by apply (run_pair_mono zero is_zero score_fl self qid' q' d' ext'
                st2 st3).
  - intros st0 st1 Hbody. unfold document in Hbody.
    rewrite Hdoc in Hbody. cbn in Hbody.
    apply (foldM_establish _ (λ st, (s, ext) ∈ Spec.data_get st.2 qid)
             (queries self) (qid, q) _ st1 Hq Hbody).
    + intros st2 [qid' q'] st3 _ Hpair Hold.
      by apply (run_pair_mono zero is_zero score_fl self qid' q' d ext
                  st2 st3).
    + intros st2 st3 Hpair.
      by apply (run_pair_establishes zero is_zero score_fl self qid q d ext
                  st2 st3 s).
Qed.

(** The loops complete when the lookups succeed and [score] raises for no
    pair that is scored. *)
Lemma run_loops_complete (doc_col : option (list (string * list Z))) :
  Spec.lookups_succeed self doc_col →
  (∀ qid q d, Spec.considered self doc_col qid q d →
              doc_is_in_inverted_index self d q = true →
              ∃ s, score_fl d q = Ok s) →
  ∃ st, match doc_col with
        | None => run_all_documents_fl zero is_zero score_fl self
        | Some dc => run_doc_col_fl zero is_zero score_fl self dc
        end = Ok st.
Proof.
  intros Hlook Hscore. destruct doc_col as [dc|]; cbn in Hlook.
  - unfold run_doc_col_fl. apply foldM_total.
    intros st [qid ds] Hqds. destruct (Hlook qid ds Hqds) as [[q Hq] Hds].
    rewrite Hq. cbn. apply foldM_total. intros st' d Hd.
    destruct (Hds d Hd) as [[ext doc] Hdoc]. unfold document.
    rewrite Hdoc. cbn. apply run_pair_fl_total. intros Hin.
    apply (Hscore qid q d); [|done]. by exists ds.
  - unfold run_all_documents_fl. apply foldM_total.
    intros st d Hd. destruct (Hlook d Hd) as [[ext doc] Hdoc].
    unfold document. rewrite Hdoc. cbn. apply foldM_total.
    intros st' [qid q] Hq. apply run_pair_fl_total. intros Hin.
    by apply (Hscore qid q d).
Qed.

(** The loops handle no exception. *)
Lemma run_loops_fl_abort (doc_col : option (list (string * list Z)))
    (qid : string) (q : list Z) (d : Z) (ext : string) (doc : list Z)
    (e : exn) :
  Spec.considered self doc_col qid q d →
  documents (index self) !! d = Some (ext, doc) →
  doc_is_in_inverted_index self d q = true →
  score_fl d q = Err e →
  ∃ e', match doc_col with
        | None => run_all_documents_fl zero is_zero score_fl self
        | Some dc => run_doc_col_fl zero is_zero score_fl self dc
        end = Err e'.
Proof.
  intros Hcons Hdoc Hin Hs. destruct doc_col as [dc|].
  - destruct Hcons as (ds & Hqds & Hd & Hq). unfold run_doc_col_fl.
    apply (foldM_Err_elem _ dc (qid, ds) Hqds). intros st.
    rewrite Hq. cbn. apply (foldM_Err_elem _ ds d Hd). intros st'.
    unfold document. rewrite Hdoc. cbn. exists e.
    by apply run_pair_fl_Err.
  - destruct Hcons as [Hq Hd]. unfold run_all_documents_fl.
    apply (foldM_Err_elem _ _ d Hd). intros st.
    unfold document. rewrite Hdoc. cbn.
    apply (foldM_Err_elem _ (queries self) (qid, q) Hq). intros st'.
    exists e. by apply run_pair_fl_Err.
Qed.
End executed_loops.

(** The exact driver is the executed driver at the exact [score]. *)
Definition real_is_zero (v : R) : bool := if Req_dec_T v 0 then true else false.

Section exact_driver.
Import GeneralizedLanguageModel.
Variable self : t.

Lemma run_pair_exact (qid : string) (q : list Z) (d : Z) (ext : string) st :
  run_pair_fl 0%R real_is_zero (score self) self qid q d ext st
  = run_pair self qid q d ext st.
Proof.
  unfold run_pair_fl, run_pair, real_is_zero.
  destruct (doc_is_in_inverted_index self d q); cbn.
  - destruct (score self d q) as [s|e]; cbn; [|reflexivity].
    change (scores_get_fl 0%R) with scores_get.
    change (@scores_set_fl R) with scores_set.
    by destruct (Req_dec_T _ 0).
  - change (scores_get_fl 0%R) with scores_get.
    by destruct (Req_dec_T _ 0).
Qed.

Lemma run_loops_exact (doc_col : option (list (string * list Z))) :
  match doc_col with
  | None => run_all_documents_fl 0%R real_is_zero (score self) self
  | Some dc => run_doc_col_fl 0%R real_is_zero (score self) self dc
  end
  = match doc_col with
    | None => run_all_documents self
    | Some dc => run_doc_col self dc
    end.
Proof.
  destruct doc_col as [dc|].
  - unfold run_doc_col_fl, run_doc_col. apply foldM_ext_in.
    intros st [qid ds] _. destruct (getitem _) as [q|e]; cbn; [|reflexivity].
    apply foldM_ext_in. intros st' d _.
    destruct (document (index self) d) as [[ext doc]|e]; cbn; [|reflexivity].
    apply run_pair_exact.
  - unfold run_all_documents_fl, run_all_documents. apply foldM_ext_in.
    intros st d _.
    destruct (document (index self) d) as [[ext doc]|e]; cbn; [|reflexivity].
    apply foldM_ext_in. intros st' [qid q] _. apply run_pair_exact.
Qed.

Lemma run_exact (write_run : string → run_data → nat → string)
    (model_name : string) (doc_col : option (list (string * list Z)))
    (fs : FS) :
  run_fl 0%R real_is_zero (score self) write_run self model_name doc_col fs
  = run write_run self model_name doc_col fs.
Proof.
  unfold run_fl, run.
  destruct (decide (is_Some (files fs !! run_out_path model_name)));
    [reflexivity|].
  by rewrite run_loops_exact.
Qed.
End exact_driver.

(** ** The driver *)

Lemma NoDup_fst_functional {A B} (l : list (A * B)) (x : A) (y1 y2 : B) :
  NoDup l.*1 → (x, y1) ∈ l → (x, y2) ∈ l → y1 = y2.
Proof.
  induction l as [|[a b] l IH]; cbn; intros Hnd H1 H2;
    [by apply elem_of_nil in H1|].
  apply NoDup_cons in Hnd as [Ha Hnd].
  apply elem_of_cons in H1 as [H1|H1]; apply elem_of_cons in H2 as [H2|H2].
  - congruence.
  - injection H1 as -> ->. destruct Ha. apply list_elem_of_fmap.
    by exists (a, y2).
  - injection H2 as -> ->. destruct Ha. apply list_elem_of_fmap.
    by exists (a, y1).
  - by apply IH.
Qed.

Section driver_claims.
Import GeneralizedLanguageModel.
Variable write_run : string → run_data → nat → string.
Variable self : t.

Lemma run_fresh (model_name : string)
    (doc_col : option (list (string * list Z))) (fs : FS) :
  files fs !! run_out_path model_name = None →
  run write_run self model_name doc_col fs
  = match match doc_col with
          | None => run_all_documents self
          | Some dc => run_doc_col self dc
          end with
    | Err e => (Err e, fs)
    | Ok (scores, data) =>
        (Ok (Some data),
         {| pkl_doc_sim_sums := pkl_doc_sim_sums fs;
            pkl_col_Nt := pkl_col_Nt fs;
            files := <[run_out_path model_name
                       := write_run model_name data 1000%nat]> (files fs) |})
    end.
Proof.
  intros Hnone. unfold run.
  destruct (decide (is_Some (files fs !! run_out_path model_name)))
    as [Hsome|_]; [|reflexivity].
  rewrite Hnone in Hsome. by destruct Hsome.
Qed.

Lemma considered_query (doc_col : option (list (string * list Z)))
    (qid : string) (q q' : list Z) (d d' : Z) :
  NoDup (queries self).*1 →
  Spec.considered self doc_col qid q d →
  Spec.considered self doc_col qid q' d' →
  q = q'.
Proof.
  intros Hnd. destruct doc_col as [dc|]; cbn.
  - intros (_ & _ & _ & Hq) (_ & _ & _ & Hq'). congruence.
  - intros [Hq _] [Hq' _]. by apply (NoDup_fst_functional _ qid q q' Hnd).
Qed.

(** C8.  [run] stores and compares the score it is given and does no
    arithmetic on it, so the claim is stated for whatever [self.score]
    returns when executed: [score_fl] is any function into any type [V]
    of floats ([nan] and rounded values included), [is_zero] the test
    [== 0], true of the default [zero] of the [defaultdict]s.  Over an
    index whose external identifiers are distinct and a [queries] dict
    (distinct keys):

    - a document failing either condition is passed over, not treated as
      an error: when the lookups of [run] succeed and [score] raises for
      no pair that is scored, the run completes and returns its [data];
    - in the [data] of every run that completes, for every query and every
      candidate document that [run] considers, the pair of a score and the
      document's external identifier is in the query's result list exactly
      when the inverted index has the document under at least one query
      term and the score returned for the pair is not zero. *)
Theorem recorded_iff_indexed_and_nonzero {V : Type} (zero : V)
    (is_zero : V → bool) (score_fl : Z → list Z → res V)
    (write_run_fl : string → run_data_fl V → nat → string)
    (model_name : string) (doc_col : option (list (string * list Z)))
    (fs : FS) :
  is_zero zero = true →
  NoDup (queries self).*1 →
  (∀ d d' ext doc doc',
     documents (index self) !! d = Some (ext, doc) →
     documents (index self) !! d' = Some (ext, doc') → d = d') →
  (files fs !! run_out_path model_name = None →
   Spec.lookups_succeed self doc_col →
   (∀ qid q d, Spec.considered self doc_col qid q d →
               doc_is_in_inverted_index self d q = true →
               ∃ s, score_fl d q = Ok s) →
   ∃ data fs',
     run_fl zero is_zero score_fl write_run_fl self model_name doc_col fs
     = (Ok (Some data), fs'))
  ∧ ∀ data fs',
      run_fl zero is_zero score_fl write_run_fl self model_name doc_col fs
      = (Ok (Some data), fs') →
      ∀ qid q d ext doc s,
        Spec.considered self doc_col qid q d →
        documents (index self) !! d = Some (ext, doc) →
        (s, ext) ∈ Spec.data_get data qid
        ↔ (∃ t, t ∈ q ∧ is_Some (default ∅ (inverted_index self !! t) !! d))
          ∧ score_fl d q = Ok s ∧ is_zero s = false.
Proof.
  intros Hzero Hnd Hinj. split.
  - intros Hfresh Hlook Hscore. unfold run_fl.
    destruct (decide (is_Some (files fs !! run_out_path model_name)))
      as [Hsome|_]; [rewrite Hfresh in Hsome; by destruct Hsome|].
    destruct (run_loops_complete zero is_zero score_fl self doc_col
                Hlook Hscore) as [[scores data] ->].
    by eauto.
  - intros data fs' Hrun qid q d ext doc s Hcons Hdoc.
    rewrite <- doc_is_in_inverted_index_spec.
    assert (∃ scores,
              match doc_col with
              | None => run_all_documents_fl zero is_zero score_fl self
              | Some dc => run_doc_col_fl zero is_zero score_fl self dc
              end = Ok (scores, data)) as [scores Hloops].
    { revert Hrun. unfold run_fl.
      destruct (decide (is_Some (files fs !! run_out_path model_name)));
        [discriminate|].
      destruct (match doc_col with
                | None => run_all_documents_fl zero is_zero score_fl self
                | Some dc => run_doc_col_fl zero is_zero score_fl self dc
                end) as [[scores data']|e]; [|discriminate].
      intros [= <- _]. by exists scores. }
    split.
    + intros Hin.
      assert (Spec.justified is_zero score_fl self doc_col qid ext s)
        as (q' & d' & doc' & Hcons' & Hdoc' & Hin' & Hs' & Hnz).
      { destruct doc_col as [dc|].
        - by apply (run_doc_col_justified zero is_zero score_fl self Hzero
                      dc (scores, data) Hloops).
        - by apply (run_all_documents_justified zero is_zero score_fl self
                      Hzero (scores, data) Hloops). }
      rewrite (Hinj d d' ext doc doc' Hdoc Hdoc').
      by rewrite (considered_query doc_col qid q q' d d' Hnd Hcons Hcons').
    + intros (Hin & Hs & Hnz). destruct doc_col as [dc|].
      * by apply (run_doc_col_records zero is_zero score_fl self dc
                    (scores, data) qid q d ext doc s).
      * by apply (run_all_documents_records zero is_zero score_fl self
                    (scores, data) qid q d ext doc s).
Qed.


End driver_claims.

(** ** Runs over the example collection *)

Module ToyRuns.
Import GeneralizedLanguageModel.

Lemma documents_inv (d : Z) (ext : string) (doc : list Z) :
  documents Toy.index !! d = Some (ext, doc) →
  (d = 1 ∧ ext = "D1") ∨ (d = 2 ∧ ext = "D2")
  ∨ (d = 3 ∧ ext = "D3") ∨ (d = 4 ∧ ext = "D4").
Proof.
  destruct (decide (d = 1)) as [->|H1]; [intros [= <- _]; tauto|].
  destruct (decide (d = 2)) as [->|H2]; [intros [= <- _]; tauto|].
  destruct (decide (d = 3)) as [->|H3]; [intros [= <- _]; tauto|].
  destruct (decide (d = 4)) as [->|H4]; [intros [= <- _]; tauto|].
  unfold Toy.index. cbn [documents].
  rewrite !lookup_insert_ne, lookup_singleton_ne by done. discriminate.
Qed.

Lemma ext_ids_distinct (d d' : Z) (ext : string) (doc doc' : list Z) :
  documents Toy.index !! d = Some (ext, doc) →
  documents Toy.index !! d' = Some (ext, doc') → d = d'.
Proof.
  intros H H'. apply documents_inv in H, H'.
  destruct H as [[-> ->]|[[-> ->]|[[-> ->]|[-> ->]]]];
    destruct H' as [[-> E]|[[-> E]|[[-> E]|[-> E]]]];
    first [reflexivity | discriminate E].
Qed.

Lemma query_ids_distinct : NoDup Toy.queries.*1.
Proof. apply (bool_decide_unpack _). vm_compute. exact I. Qed.

(** The candidates of query [q1] under the weights [(1, 0, 0)]: document 1
    is recorded, document 3 scores exactly zero and document 4 holds no
    query term. *)
Definition data_q1 : run_data := [("q1", [((0 + ln (2 / 4))%R, "D1")])].

Lemma run_q1 :
  run Toy.write_run (Toy.model 1 0 0) "GLM"
    (Some [("q1", [1; 3; 4])]) Toy.fs
  = (Ok (Some data_q1),
     {| pkl_doc_sim_sums := Some Toy.doc_sim_sum;
        pkl_col_Nt := Some (Toy.col_Nt, Toy.sum_nT);
        files := {[ run_out_path "GLM"
                    := Toy.write_run "GLM" data_q1 1000%nat ]} |}).
Proof.
  rewrite run_fresh by reflexivity. unfold run_doc_col. cbn [foldM].
  change (dict_get (queries (Toy.model 1 0 0)) "q1") with (Some [1]).
  cbn [getitem mbind res_bind].
  change (document (index (Toy.model 1 0 0)) 1)
    with (Ok ("D1", [1; 2; 0; 3; 1]) : res (string * list Z)).
  cbn [mbind res_bind].
  rewrite (run_pair_recorded _ "q1" [1] 1 "D1" _ (0 + ln (2 / 4))%R);
    [ | reflexivity | apply ToyMixtures.score_1_q1
      | pose proof ToyMixtures.ln_half_negative; lra ].
  cbn [mbind res_bind].
  change (document (index (Toy.model 1 0 0)) 3)
    with (Ok ("D3", [1; 1; 1]) : res (string * list Z)).
  cbn [mbind res_bind].
  rewrite (run_pair_zero _ "q1" [1] 3 "D3");
    [ | reflexivity | apply ToyMixtures.score_3_q1 ].
  cbn [mbind res_bind].
  change (document (index (Toy.model 1 0 0)) 4)
    with (Ok ("D4", [2; 3; 2]) : res (string * list Z)).
  cbn [mbind res_bind].
  rewrite (run_pair_skipped _ "q1" [1] 4 "D4"); [ | reflexivity | reflexivity ].
  reflexivity.
Qed.


(** Weights outside the simplex: [lamb = 2], [alph = 0], [beta = -1]. *)
Lemma mixture_1_1_weights l a b :
  mixture (Toy.model l a b) 1 1 [1; 2; 0; 3; 1]
  = Ok (l * (2 / 4) + a * (23 / 28) + b * (1 / 3)
        + (1 - l - a - b) * (6 / 6))%R.
Proof.
  unfold mixture.
  by rewrite ToyMixtures.term_likelihood_1_1,
             ToyScores.doc_transform_1_1,
             ToyMixtures.col_transform_1, ToyMixtures.bg_likelihood_1.
Qed.

Definition score_invalid : R :=
  (0 + ln (2 * (2 / 4) + 0 * (23 / 28) + -1 * (1 / 3)
           + (1 - 2 - 0 - -1) * (6 / 6)))%R.

Lemma score_invalid_weights :
  score (Toy.model 2 0 (-1)) 1 [1] = Ok score_invalid.
Proof.
  rewrite (score_unfold _ 1 [1] "D1" [1; 2; 0; 3; 1]) by reflexivity.
  cbn [foldM]. rewrite mixture_1_1_weights. cbn [mbind res_bind].
  rewrite math_log_Ok; [reflexivity | lra].
Qed.

Lemma score_invalid_nonzero : score_invalid ≠ 0%R.
Proof.
  unfold score_invalid.
  set (x := (2 * (2 / 4) + 0 * (23 / 28) + -1 * (1 / 3)
             + (1 - 2 - 0 - -1) * (6 / 6))%R).
  assert (ln x < ln 1)%R as Hlt by (apply ln_increasing; unfold x; lra).
  rewrite ln_1 in Hlt. lra.
Qed.

Definition data_invalid : run_data := [("q1", [(score_invalid, "D1")])].

Lemma run_invalid_weights :
  run Toy.write_run (Toy.model 2 0 (-1)) "GLM"
    (Some [("q1", [1])]) Toy.fs
  = (Ok (Some data_invalid),
     {| pkl_doc_sim_sums := Some Toy.doc_sim_sum;
        pkl_col_Nt := Some (Toy.col_Nt, Toy.sum_nT);
        files := {[ run_out_path "GLM"
                    := Toy.write_run "GLM" data_invalid 1000%nat ]} |}).
Proof.
  rewrite run_fresh by reflexivity. unfold run_doc_col. cbn [foldM].
  change (dict_get (queries (Toy.model 2 0 (-1))) "q1") with (Some [1]).
  cbn [getitem mbind res_bind].
  change (document (index (Toy.model 2 0 (-1))) 1)
    with (Ok ("D1", [1; 2; 0; 3; 1]) : res (string * list Z)).
  cbn [mbind res_bind].
  rewrite (run_pair_recorded _ "q1" [1] 1 "D1" _ score_invalid);
    [ | reflexivity | apply score_invalid_weights
      | apply score_invalid_nonzero ].
  reflexivity.
Qed.

End ToyRuns.

(** The executed run of the example over the candidates 1, 3, 4 and 2 of
    query [q1]. *)
Module ToyFloatRuns.
Import GeneralizedLanguageModel.

Lemma is_zero_zero : ToyFloats.is_zero ToyFloats.zero = true.
Proof. unfold ToyFloats.is_zero, ToyFloats.zero. by destruct (Req_dec_T 0 0). Qed.

Lemma score_fl_1 :
  ToyFloats.score_fl 1 [1] = Ok (ToyFloats.Finite (0 + ln (2 / 4))).
Proof.
  unfold ToyFloats.score_fl. rewrite decide_False by done.
  by rewrite ToyMixtures.score_1_q1.
Qed.

Lemma score_fl_3 : ToyFloats.score_fl 3 [1] = Ok (ToyFloats.Finite 0).
Proof.
  unfold ToyFloats.score_fl. rewrite decide_False by done.
  by rewrite ToyMixtures.score_3_q1.
Qed.

Lemma score_fl_2 : ToyFloats.score_fl 2 [1] = Ok ToyFloats.NaN.
Proof. unfold ToyFloats.score_fl. by rewrite decide_True. Qed.

Lemma score_fl_1_nonzero :
  ToyFloats.is_zero (ToyFloats.Finite (0 + ln (2 / 4))) = false.
Proof.
  unfold ToyFloats.is_zero.
  destruct (Req_dec_T (0 + ln (2 / 4)) 0) as [Hz|]; [|reflexivity].
  pose proof ToyMixtures.ln_half_negative. lra.
Qed.

(** The files after the run. *)
Definition fs_q1 : FS :=
  {| pkl_doc_sim_sums := Some Toy.doc_sim_sum;
     pkl_col_Nt := Some (Toy.col_Nt, Toy.sum_nT);
     files := {[ run_out_path "GLM"
                 := ToyFloats.write_run_fl "GLM" ToyFloats.data_q1
                      1000%nat ]} |}.

Lemma run_fl_q1 :
  run_fl ToyFloats.zero ToyFloats.is_zero ToyFloats.score_fl
    ToyFloats.write_run_fl (Toy.model 1 0 0) "GLM"
    (Some [("q1", [1; 3; 4; 2])]) Toy.fs
  = (Ok (Some ToyFloats.data_q1), fs_q1).
Proof.
  unfold run_fl.
  destruct (decide (is_Some (files Toy.fs !! run_out_path "GLM")))
    as [[x Hx]|_]; [discriminate|].
  unfold run_doc_col_fl. cbn [foldM].
  change (dict_get (queries (Toy.model 1 0 0)) "q1") with (Some [1]).
  cbn [getitem mbind res_bind].
  change (document (index (Toy.model 1 0 0)) 1)
    with (Ok ("D1", [1; 2; 0; 3; 1]) : res (string * list Z)).
  cbn [mbind res_bind].
  rewrite (run_pair_fl_recorded _ _ _ _ "q1" [1] 1 "D1" _
             (ToyFloats.Finite (0 + ln (2 / 4))));
    [ | reflexivity | apply score_fl_1 | apply score_fl_1_nonzero ].
  cbn [mbind res_bind].
  change (document (index (Toy.model 1 0 0)) 3)
    with (Ok ("D3", [1; 1; 1]) : res (string * list Z)).
  cbn [mbind res_bind].
  rewrite (run_pair_fl_zero _ _ _ _ "q1" [1] 3 "D3" _ (ToyFloats.Finite 0));
    [ | reflexivity | apply score_fl_3 | apply is_zero_zero ].
  cbn [mbind res_bind].
  change (document (index (Toy.model 1 0 0)) 4)
    with (Ok ("D4", [2; 3; 2]) : res (string * list Z)).
  cbn [mbind res_bind].
  rewrite (run_pair_fl_skipped _ _ _ _ "q1" [1] 4 "D4");
    [ | reflexivity | apply is_zero_zero ].
  cbn [mbind res_bind].
  change (document (index (Toy.model 1 0 0)) 2)
    with (Ok ("D2", [1]) : res (string * list Z)).
  cbn [mbind res_bind].
  rewrite (run_pair_fl_recorded _ _ _ _ "q1" [1] 2 "D2" _ ToyFloats.NaN);
    [ | reflexivity | apply score_fl_2 | reflexivity ].
  reflexivity.
Qed.

End ToyFloatRuns.

(** C8, witness: query [q1] with the candidates 1, 3, 4 and 2, executed.
    The run completes; document 1 is recorded with its score, document 2
    with [nan], document 3 scores exactly zero and document 4 holds no
    query term. *)
Lemma recorded_iff_indexed_and_nonzero_witness :
  (∃ data fs',
     GeneralizedLanguageModel.run_fl ToyFloats.zero ToyFloats.is_zero
       ToyFloats.score_fl ToyFloats.write_run_fl (Toy.model 1 0 0) "GLM"
       (Some [("q1", [1; 3; 4; 2])]) Toy.fs
     = (Ok (Some data), fs'))
  ∧ GeneralizedLanguageModel.run_fl ToyFloats.zero ToyFloats.is_zero
      ToyFloats.score_fl ToyFloats.write_run_fl (Toy.model 1 0 0) "GLM"
      (Some [("q1", [1; 3; 4; 2])]) Toy.fs
    = (Ok (Some ToyFloats.data_q1), ToyFloatRuns.fs_q1)
  ∧ ∀ d ext doc s,
      d ∈ [1; 3; 4; 2] →
      documents Toy.index !! d = Some (ext, doc) →
      (s, ext) ∈ [(ToyFloats.Finite (0 + ln (2 / 4)), "D1");
                  (ToyFloats.NaN, "D2")]
      ↔ (∃ t, t ∈ [1]
              ∧ is_Some (default ∅ (Toy.inverted_index !! t) !! d))
        ∧ ToyFloats.score_fl d [1] = Ok s
        ∧ ToyFloats.is_zero s = false.
Proof.
  destruct (recorded_iff_indexed_and_nonzero (Toy.model 1 0 0)
              ToyFloats.zero ToyFloats.is_zero ToyFloats.score_fl
              ToyFloats.write_run_fl "GLM"
              (Some [("q1", [1; 3; 4; 2])]) Toy.fs
              ToyFloatRuns.is_zero_zero ToyRuns.query_ids_distinct
              ToyRuns.ext_ids_distinct) as [Hcomplete Hiff].
  split; [|split; [apply ToyFloatRuns.run_fl_q1|]].
  - apply Hcomplete.
    + reflexivity.
    + intros qid ds Hin. apply list_elem_of_singleton in Hin as [= -> ->].
      split; [by eexists|]. intros d Hd.
      repeat (apply elem_of_cons in Hd as [->|Hd]);
        [by eexists.. | by apply elem_of_nil in Hd].
    + intros qid q d (ds & Hin & Hd & Hq) Hflag.
      apply list_elem_of_singleton in Hin as [= -> ->].
      injection Hq as <-.
      repeat (apply elem_of_cons in Hd as [->|Hd]);
        [ eexists; apply ToyFloatRuns.score_fl_1
        | eexists; apply ToyFloatRuns.score_fl_3
        | discriminate Hflag
        | eexists; apply ToyFloatRuns.score_fl_2
        | by apply elem_of_nil in Hd ].
  - intros d ext doc s Hd Hdoc.
    apply (Hiff ToyFloats.data_q1 ToyFloatRuns.fs_q1 ToyFloatRuns.run_fl_q1
             "q1" [1] d ext doc s).
    + exists [1; 3; 4; 2]. split; [by left|].
      split; [exact Hd | reflexivity].
    + exact Hdoc.
Defined.



(** ** The constructor *)

Section constructor.
Import GeneralizedLanguageModel.

Lemma init_example (l a b : R) :
  init Toy.index Toy.inverted_index Toy.queries
    Toy.col_freq Toy.doc_len l a b (Some Toy.doc_col)
    Toy.word2vec Toy.fs
  = (Ok (Toy.model l a b), Toy.fs).
Proof. reflexivity. Qed.

Lemma init_col_size (ix : Index) (ii : gmap Z (gmap Z Z))
    (qs : list (string * list Z)) (cf dl : gmap Z Z) (l a b : R)
    (dc : option (list (string * list Z))) (w2v : Word2Vec) (fs fs' : FS)
    (self : t) :
  init ix ii qs cf dl l a b dc w2v fs = (Ok self, fs') →
  col_freq self = cf ∧ col_size self = sum_dict cf
  ∧ lamb self = l ∧ alph self = a ∧ beta self = b.
Proof.
  unfold init. destruct (get_dictionary ix) as [[t2i i2t] df].
  destruct (pkl_doc_sim_sums fs) as [dss|];
    [|destruct (compute_doc_sim_sum _) as [dss|e]; [|discriminate]];
    cbn [pkl_col_Nt].
  all: destruct (pkl_col_Nt fs) as [[nt snt]|];
    [|destruct (compute_col_nt _ _) as [[nt snt]|e]; [|discriminate]].
  all: by intros [= <- _].
Qed.

Lemma init_weights (ix : Index) (ii : gmap Z (gmap Z Z))
    (qs : list (string * list Z)) (cf dl : gmap Z Z) (l a b l' a' b' : R)
    (dc : option (list (string * list Z))) (w2v : Word2Vec) (fs : FS) :
  init ix ii qs cf dl l' a' b' dc w2v fs
  = (Spec.with_weights l' a' b' <$> (init ix ii qs cf dl l a b dc w2v fs).1,
     (init ix ii qs cf dl l a b dc w2v fs).2).
Proof.
  unfold init. destruct (get_dictionary ix) as [[t2i i2t] df].
  destruct (pkl_doc_sim_sums fs) as [dss|];
    [|destruct (compute_doc_sim_sum _) as [dss|e]; [|reflexivity]];
    cbn [pkl_col_Nt].
  all: destruct (pkl_col_Nt fs) as [[nt snt]|]; [reflexivity|].
  all: by destruct (compute_col_nt _ 3) as [[nt snt]|e].
Qed.
End constructor.

Section constructor_claims.
Import GeneralizedLanguageModel.

Lemma bg_likelihood_after_init (ix : Index) (ii : gmap Z (gmap Z Z))
    (qs : list (string * list Z)) (cf dl : gmap Z Z) (l a b : R)
    (dc : option (list (string * list Z))) (w2v : Word2Vec) (fs fs' : FS)
    (self : t) (query_term_id : Z) :
  init ix ii qs cf dl l a b dc w2v fs = (Ok self, fs') →
  compute_bg_likelihood self query_term_id
  = py_div (IZR (default 0 (cf !! query_term_id))) (IZR (sum_dict cf)).
Proof.
  intros (Hcf & Hsize & _)%init_col_size.
  unfold compute_bg_likelihood, col_freq_get. by rewrite Hcf, Hsize.
Qed.

(** C1, the code on the example collection.  The collection frequency
    table [{1: 6, 2: 3, 3: 2}] holds 11 term occurrences, but [__init__]
    computes [col_size] as [sum(col_freq)], the sum of the keys, which is
    6.  The background likelihood of term 1 is then 6/6 and not 6/11, and
    the likelihoods of the three terms of the vocabulary add up to 11/6,
    not to 1. *)
Theorem background_likelihood_divides_by_key_sum :
  init Toy.index Toy.inverted_index Toy.queries
    Toy.col_freq Toy.doc_len 1 0 0 (Some Toy.doc_col)
    Toy.word2vec Toy.fs
  = (Ok (Toy.model 1 0 0), Toy.fs)
  ∧ col_size (Toy.model 1 0 0) = sum_dict Toy.col_freq
  ∧ sum_dict Toy.col_freq = 6
  ∧ Spec.sum_values Toy.col_freq = 11
  ∧ compute_bg_likelihood (Toy.model 1 0 0) 1 = Ok (6 / 6)%R
  ∧ compute_bg_likelihood (Toy.model 1 0 0) 2 = Ok (3 / 6)%R
  ∧ compute_bg_likelihood (Toy.model 1 0 0) 3 = Ok (2 / 6)%R
  ∧ (6 / 6)%R ≠ (6 / 11)%R
  ∧ (6 / 6 + 3 / 6 + 2 / 6)%R ≠ 1%R.
Proof.
  split; [reflexivity|]. split; [reflexivity|]. split; [reflexivity|].
  split; [reflexivity|].
  split; [apply ToyMixtures.bg_likelihood_1|].
  split; [apply ToyMixtures.bg_likelihood_2|].
  split; [apply ToyMixtures.bg_likelihood_3|].
  split; lra.
Qed.

Variable compute_idf : TFIDF.t → Z → res R.

(** C5, as the code has it.  A transform name other than ['log'] makes
    every call of [TFIDF.score] raise the [ValueError] that names the
    transform, before the idf is computed.  The mixture weights are not
    checked anywhere: [__init__] stores the weights it is given, and when
    it fails it fails in the same way, with the same files, for every
    other choice of weights; and [run] under any weights, negative ones
    and ones that sum to more than 1 included, completes and writes its
    run file whenever its lookups succeed and [score], as executed, raises
    for no pair that is scored. *)
Theorem configuration_checks (tfidf : TFIDF.t) :
  TFIDF.tf_transform tfidf ≠ "log" →
  (∀ int_doc_id query_term_id doc_term_freq,
     TFIDF.score compute_idf tfidf int_doc_id query_term_id doc_term_freq
     = Err (TFIDF.unsupported (TFIDF.tf_transform tfidf)))
  ∧ (∀ ix ii qs cf dl l a b dc w2v fs,
      match init ix ii qs cf dl l a b dc w2v fs with
      | (Ok self, _) => lamb self = l ∧ alph self = a ∧ beta self = b
      | (Err e, fs') =>
          ∀ l' a' b', init ix ii qs cf dl l' a' b' dc w2v fs = (Err e, fs')
      end)
  ∧ ∀ (V : Type) (zero : V) (is_zero : V → bool)
      (score_fl : Z → list Z → res V)
      (write_run_fl : string → run_data_fl V → nat → string) (self : t)
      (l a b : R) model_name doc_col fs,
      files fs !! run_out_path model_name = None →
      Spec.lookups_succeed self doc_col →
      (∀ qid q d, Spec.considered self doc_col qid q d →
                  doc_is_in_inverted_index self d q = true →
                  ∃ s, score_fl d q = Ok s) →
      ∃ data,
        run_fl zero is_zero score_fl write_run_fl
          (Spec.with_weights l a b self) model_name doc_col fs
        = (Ok (Some data),
           {| pkl_doc_sim_sums := pkl_doc_sim_sums fs;
              pkl_col_Nt := pkl_col_Nt fs;
              files := <[run_out_path model_name
                         := write_run_fl model_name data 1000%nat]>
                         (files fs) |}).
Proof.
  intros Hne. split; [|split].
  - intros d q f. by apply score_unsupported.
  - intros ix ii qs cf dl l a b dc w2v fs.
    destruct (init ix ii qs cf dl l a b dc w2v fs) as [[self|e] fs'] eqn:Hinit.
    + by apply init_col_size in Hinit as (_ & _ & ? & ? & ?).
    + intros l' a' b'.
      by rewrite (init_weights ix ii qs cf dl l a b l' a' b'), Hinit.
  - intros V zero is_zero score_fl write_run_fl self l a b model_name
      doc_col fs Hfresh Hlook Hscore.
    unfold run_fl.
    destruct (decide (is_Some (files fs !! run_out_path model_name)))
      as [Hsome|_]; [rewrite Hfresh in Hsome; by destruct Hsome|].
    destruct (run_loops_complete zero is_zero score_fl
                (Spec.with_weights l a b self) doc_col Hlook Hscore)
      as [[scores data] ->].
    by exists data.
Qed.
End constructor_claims.

(** C5, counterexample.  The weights [lamb = 2], [alph = 0], [beta = -1]
    are not mixture weights, yet [__init__] builds the model without an
    error, and a run under them scores document 1 for query [q1] and
    writes its run file. *)
Lemma invalid_weights_are_accepted :
  (-1 < 0)%R ∧ (1 < 2)%R
  ∧ GeneralizedLanguageModel.init Toy.index Toy.inverted_index
      Toy.queries Toy.col_freq Toy.doc_len 2 0 (-1)
      (Some Toy.doc_col) Toy.word2vec Toy.fs
    = (Ok (Toy.model 2 0 (-1)), Toy.fs)
  ∧ GeneralizedLanguageModel.run Toy.write_run (Toy.model 2 0 (-1))
      "GLM" (Some [("q1", [1])]) Toy.fs
    = (Ok (Some ToyRuns.data_invalid),
       {| pkl_doc_sim_sums := Some Toy.doc_sim_sum;
          pkl_col_Nt := Some (Toy.col_Nt, Toy.sum_nT);
          files := {[ GeneralizedLanguageModel.run_out_path "GLM"
                      := Toy.write_run "GLM" ToyRuns.data_invalid
                           1000%nat ]} |}).
Proof.
  split; [lra|]. split; [lra|]. split; [reflexivity|].
  apply ToyRuns.run_invalid_weights.
Qed.

Lemma configuration_checks_witness :
  (∀ int_doc_id query_term_id doc_term_freq,
     TFIDF.score Toy.compute_idf (Toy.tfidf "sqrt") int_doc_id
       query_term_id doc_term_freq
     = Err (TFIDF.unsupported "sqrt"))
  ∧ (∀ ix ii qs cf dl l a b dc w2v fs,
      match GeneralizedLanguageModel.init ix ii qs cf dl l a b dc w2v fs with
      | (Ok self, _) =>
          GeneralizedLanguageModel.lamb self = l
          ∧ GeneralizedLanguageModel.alph self = a
          ∧ GeneralizedLanguageModel.beta self = b
      | (Err e, fs') =>
          ∀ l' a' b',
            GeneralizedLanguageModel.init ix ii qs cf dl l' a' b' dc w2v fs
            = (Err e, fs')
      end)
  ∧ ∃ data,
      GeneralizedLanguageModel.run Toy.write_run (Toy.model 2 0 (-1)) "GLM"
        (Some [("q1", [1])]) Toy.fs
      = (Ok (Some data),
         {| pkl_doc_sim_sums := Some Toy.doc_sim_sum;
            pkl_col_Nt := Some (Toy.col_Nt, Toy.sum_nT);
            files := {[ GeneralizedLanguageModel.run_out_path "GLM"
                        := Toy.write_run "GLM" data 1000%nat ]} |}).
Proof.
  destruct (configuration_checks Toy.compute_idf (Toy.tfidf "sqrt"))
    as (Hscore & Hinit & Hrun); [discriminate|].
  split; [exact Hscore|]. split; [exact Hinit|].
  rewrite <- run_exact.
  apply (Hrun R 0%R real_is_zero
           (GeneralizedLanguageModel.score (Toy.model 2 0 (-1)))
           Toy.write_run (Toy.model 1 0 0) 2%R 0%R (-1)%R "GLM"
           (Some [("q1", [1])]) Toy.fs).
  - reflexivity.
  - intros qid ds Hin. apply list_elem_of_singleton in Hin as [= -> ->].
    split; [by eexists|].
    intros d Hd. apply list_elem_of_singleton in Hd as ->. by eexists.
  - intros qid q d (ds & Hin & Hd & Hq) _.
    apply list_elem_of_singleton in Hin as [= -> ->].
    apply list_elem_of_singleton in Hd as ->.
    injection Hq as <-. exists ToyRuns.score_invalid.
    apply ToyRuns.score_invalid_weights.
Defined.

(** ** The caches of the example collection

    Starting without pickles, [__init__] computes the two caches of the
    example, stores them and builds the example model. *)

(** The rows of the example collection by term identifier. *)
Definition toy_row (term_id : Z) : list R :=
  if decide (term_id = 1) then Toy.va
  else if decide (term_id = 2) then Toy.vb
  else Toy.vc.

Module ToyCaches.
Import GeneralizedLanguageModel.

Ltac ev_pairs :=
  repeat match goal with
  | |- context [Spec.inner_pairs ?n] =>
      let r := eval vm_compute in (Spec.inner_pairs n) in
      change (Spec.inner_pairs n) with r
  end.

Ltac pair_sum :=
  unfold Spec.pair_cos_sum; ev_pairs;
  cbn [fmap list_fmap fst snd lookup_total list_lookup_total]; real_side.

Lemma pair_sum_1 :
  Spec.pair_cos_sum [Toy.va; Toy.vb; Toy.vc; Toy.va] = (7 / 5)%R.
Proof. pair_sum. Qed.
Lemma pair_sum_2 : Spec.pair_cos_sum [Toy.va] = 0%R.
Proof. pair_sum. Qed.
Lemma pair_sum_3 : Spec.pair_cos_sum [Toy.va; Toy.va; Toy.va] = 1%R.
Proof. pair_sum. Qed.
Lemma pair_sum_4 : Spec.pair_cos_sum [Toy.vb; Toy.vc; Toy.vb] = (4 / 5)%R.
Proof. pair_sum. Qed.

Lemma doc_sim_sum_computed l a b :
  compute_doc_sim_sum (Toy.model l a b) = Ok Toy.doc_sim_sum.
Proof.
  unfold compute_doc_sim_sum, self_doc_col.
  cbn [doc_col Toy.model mbind res_bind].
  let r := eval vm_compute in (np_unique (concat Toy.doc_col.*2)) in
  change (np_unique (concat Toy.doc_col.*2)) with r.
  cbn [foldM].
  rewrite (doc_sim_sum_of_Ok _ 1 "D1" [1; 2; 0; 3; 1]
             [Toy.va; Toy.vb; Toy.vc; Toy.va]);
    [ | reflexivity | reflexivity | cbn [drop]; norms_nonzero ].
  cbn [mbind res_bind].
  rewrite (doc_sim_sum_of_Ok _ 2 "D2" [1] [Toy.va]);
    [ | reflexivity | reflexivity | cbn [drop]; norms_nonzero ].
  cbn [mbind res_bind].
  rewrite (doc_sim_sum_of_Ok _ 3 "D3" [1; 1; 1] [Toy.va; Toy.va; Toy.va]);
    [ | reflexivity | reflexivity | cbn [drop]; norms_nonzero ].
  cbn [mbind res_bind].
  rewrite (doc_sim_sum_of_Ok _ 4 "D4" [2; 3; 2] [Toy.vb; Toy.vc; Toy.vb]);
    [ | reflexivity | reflexivity | cbn [drop]; norms_nonzero ].
  cbn [mbind res_bind].
  rewrite pair_sum_1, pair_sum_2, pair_sum_3, pair_sum_4.
  reflexivity.
Qed.

Lemma similar_a :
  most_similar Toy.word2vec "a" 3 = Ok [("c", 3 / 5); ("b", 0)]%R.
Proof. reflexivity. Qed.
Lemma similar_b :
  most_similar Toy.word2vec "b" 3 = Ok [("c", 4 / 5); ("a", 0)]%R.
Proof. reflexivity. Qed.

Lemma col_nt_computed l a b :
  compute_col_nt (Toy.model l a b) 3 = Ok (Toy.col_Nt, Toy.sum_nT).
Proof.
  unfold compute_col_nt, self_doc_col, cos_sim.
  cbn [doc_col Toy.model mbind res_bind Toy.doc_col foldM queries id2token
       word2vec].
  change (dict_get Toy.queries "q2") with (Some [1; 2]).
  change (dict_get Toy.queries "q1") with (Some [1]).
  repeat first [ rewrite similar_a | rewrite similar_b | ev_step
               | progress cbn [fmap list_fmap wv Toy.word2vec] ].
  replace (np_sum [(3 / (1 * 5))%R; (0 / (1 * 1))%R]) with (3 / 5)%R
    by real_side.
  replace (np_sum [(4 / (1 * 5))%R; (0 / (1 * 1))%R]) with (4 / 5)%R
    by real_side.
  reflexivity.
Qed.

Lemma init_from_scratch l a b :
  init Toy.index Toy.inverted_index Toy.queries Toy.col_freq Toy.doc_len
    l a b (Some Toy.doc_col) Toy.word2vec
    {| pkl_doc_sim_sums := None; pkl_col_Nt := None; files := ∅ |}
  = (Ok (Toy.model l a b), Toy.fs).
Proof.
  unfold init. cbn [get_dictionary Toy.index pkl_doc_sim_sums pkl_col_Nt].
  change (compute_doc_sim_sum _) with (compute_doc_sim_sum (Toy.model l a b)).
  rewrite doc_sim_sum_computed. cbn [pkl_col_Nt].
  change (compute_col_nt _ 3) with (compute_col_nt (Toy.model l a b) 3).
  rewrite col_nt_computed. reflexivity.
Qed.

End ToyCaches.

Lemma toy_embeds (l a b : R) (doc : list Z) :
  doc ⊆ [0; 1; 2; 3] → Spec.embeds (Toy.model l a b) doc toy_row.
Proof.
  intros Hsub term_id Hin Hne. apply Hsub in Hin.
  repeat (apply elem_of_cons in Hin as [->|Hin]);
    [ done | exists "a" | exists "b" | exists "c"
    | by apply elem_of_nil in Hin ];
    (split; [reflexivity|]; split; reflexivity).
Qed.

Lemma toy_row_norm (term_id : Z) :
  term_id ∈ [1; 2; 3] → norm (toy_row term_id) ≠ 0%R.
Proof.
  intros Hin.
  repeat (apply elem_of_cons in Hin as [->|Hin]);
    [ change (norm Toy.va ≠ 0%R); rewrite ToyFacts.norm_a
    | change (norm Toy.vb ≠ 0%R); rewrite ToyFacts.norm_b
    | change (norm Toy.vc ≠ 0%R); rewrite ToyFacts.norm_c
    | by apply elem_of_nil in Hin ]; lra.
Qed.

(** C3, witness: the example collection, where the four candidate
    documents retain the streams [1; 2; 3; 1], [1], [1; 1; 1] and
    [2; 3; 2]. *)
Lemma doc_sim_sum_is_inner_pair_sum_witness :
  GeneralizedLanguageModel.doc_sim_sum_of (Toy.model 1 0 0) 1
  = Ok (np_sum ((λ ij, Spec.cosine
                         ([Toy.va; Toy.vb; Toy.vc; Toy.va] !!! ij.1)
                         ([Toy.va; Toy.vb; Toy.vc; Toy.va] !!! ij.2))
                  <$> [(1, 2); (1, 3); (2, 3)]%nat))
  ∧ (∀ sums,
       GeneralizedLanguageModel.compute_doc_sim_sum (Toy.model 1 0 0)
       = Ok sums →
       sums !! 1 = Some (7 / 5)%R)
  ∧ ∃ sums,
      GeneralizedLanguageModel.compute_doc_sim_sum (Toy.model 1 0 0)
      = Ok sums.
Proof.
  destruct (doc_sim_sum_is_inner_pair_sum (Toy.model 1 0 0) Toy.doc_col
              toy_row eq_refl) as [Hdoc Htotal].
  destruct (Hdoc 1 "D1" [1; 2; 0; 3; 1] eq_refl) as [Hof Hsums].
  { apply toy_embeds. intros x Hx.
    repeat (apply elem_of_cons in Hx as [->|Hx]);
      [ do 1 right; by left | do 2 right; by left | by left
      | do 3 right; by left | do 1 right; by left
      | by apply elem_of_nil in Hx ]. }
  { change (Forall (λ term_id, norm (toy_row term_id) ≠ 0%R) [2; 3; 1]).
    repeat constructor; apply toy_row_norm;
      [ right; by left | do 2 right; by left | by left ]. }
  split; [exact Hof|]. split.
  - intros sums Hs. rewrite (Hsums sums); [|by right; left|exact Hs].
    f_equal. apply ToyCaches.pair_sum_1.
  - apply Htotal. intros d Hd. cbn in Hd.
    assert (d ∈ [1; 2; 3; 4]) as Hd'.
    { repeat (apply elem_of_cons in Hd as [->|Hd]);
        [ do 2 right; by left | by left | by left | do 2 right; by left
        | do 3 right; by left | right; by left
        | by apply elem_of_nil in Hd ]. }
    clear Hd.
    repeat (apply elem_of_cons in Hd' as [->|Hd']);
      [ exists "D1", [1; 2; 0; 3; 1]
      | exists "D2", [1]
      | exists "D3", [1; 1; 1]
      | exists "D4", [2; 3; 2]
      | by apply elem_of_nil in Hd' ];
      (split; [reflexivity|]; split;
       [ apply toy_embeds; intros x Hx;
         repeat (apply elem_of_cons in Hx as [->|Hx]);
         try (by apply elem_of_nil in Hx);
         first [ by left | right; by left | do 2 right; by left
               | do 3 right; by left ]
       | apply Forall_forall; intros x Hx; apply toy_row_norm;
         first [ change (x ∈ [2; 3; 1]) in Hx
               | change (x ∈ []) in Hx
               | change (x ∈ [1; 1]) in Hx
               | change (x ∈ [3; 2]) in Hx ];
         repeat (apply elem_of_cons in Hx as [->|Hx]);
         try (by apply elem_of_nil in Hx);
         first [ by left | right; by left | do 2 right; by left ] ]).
Defined.

(** * Further properties of the code *)

(** ** Cosine similarity *)

Lemma dot_comm (v w : list R) : dot v w = dot w v.
Proof.
  unfold dot, np_sum. revert w.
  induction v as [|a v IH]; intros [|b w]; cbn; try reflexivity.
  rewrite IH. lra.
Qed.

Lemma dot_self_nonneg (v : list R) : (0 <= dot v v)%R.
Proof.
  unfold dot, np_sum. induction v as [|a v IH]; cbn; [lra|]. nra.
Qed.

Lemma dot_cons (a b : R) (v w : list R) :
  dot (a :: v) (b :: w) = (a * b + dot v w)%R.
Proof. reflexivity. Qed.

Lemma cauchy_schwarz (v w : list R) :
  (dot v w * dot v w <= dot v v * dot w w)%R.
Proof.
  revert w. induction v as [|a v IH]; intros w.
  - unfold dot at 1 2 3. cbn. pose proof (dot_self_nonneg w). lra.
  - destruct w as [|b w].
    + unfold dot at 1 2 4. cbn. pose proof (dot_self_nonneg (a :: v)). lra.
    + rewrite !dot_cons. specialize (IH w).
      pose proof (dot_self_nonneg v) as HA.
      pose proof (dot_self_nonneg w) as HB.
      set (A := dot v v) in *. set (B := dot w w) in *.
      set (D := dot v w) in *.
      assert (2 * (a * b) * D <= a * a * B + b * b * A)%R as Hmix.
      { destruct (Req_dec_T A 0) as [HA0|HA0].
        - assert (D = 0)%R as -> by nra. nra.
        - assert (0 < A)%R as HApos by lra.
          apply (Rmult_le_reg_l A); [exact HApos|].
          pose proof (Rle_0_sqr (a * D - b * A)) as Hsq.
          unfold Rsqr in Hsq. nra. }
      nra.
Qed.

Section cos_sim.
Import GeneralizedLanguageModel.

(** X1.  [cos_sim] does not depend on the order of its arguments, errors
    included. *)
Theorem cos_sim_symmetric (v1 v2 : list R) : cos_sim v1 v2 = cos_sim v2 v1.
Proof.
  unfold cos_sim, np_dot.
  destruct (decide (length v1 = length v2)) as [Hl|Hl].
  - rewrite decide_True by done. cbn.
    by rewrite dot_comm, (Rmult_comm (norm v1)).
  - rewrite decide_False by (intros E; by apply Hl). reflexivity.
Qed.

(** X2.  Whenever [cos_sim] returns a value, the value lies in [[-1, 1]]. *)
Theorem cos_sim_bounded (v1 v2 : list R) (c : R) :
  cos_sim v1 v2 = Ok c → (-1 <= c <= 1)%R.
Proof.
  unfold cos_sim, np_dot.
  destruct (decide (length v1 = length v2)) as [Hl|Hl]; [|discriminate].
  cbn. unfold np_div.
  destruct (Req_dec_T (norm v1 * norm v2) 0) as [|Hn]; [discriminate|].
  intros [= <-].
  pose proof (cauchy_schwarz v1 v2) as Hcs.
  pose proof (dot_self_nonneg v1) as H1.
  pose proof (dot_self_nonneg v2) as H2.
  pose proof (sqrt_pos (dot v1 v1)) as Hs1.
  pose proof (sqrt_pos (dot v2 v2)) as Hs2.
  pose proof (sqrt_sqrt _ H1) as Hq1.
  pose proof (sqrt_sqrt _ H2) as Hq2.
  unfold norm in *.
  set (n1 := sqrt (dot v1 v1)) in *. set (n2 := sqrt (dot v2 v2)) in *.
  set (D := dot v1 v2) in *.
  assert (0 < n1 * n2)%R as Hpos by nra.
  assert (D * D <= (n1 * n2) * (n1 * n2))%R as Hsq by nra.
  assert (- (n1 * n2) <= D <= n1 * n2)%R as [Hlo Hhi] by nra.
  split.
  - apply (Rmult_le_reg_r (n1 * n2)); [exact Hpos|].
    unfold Rdiv. rewrite Rmult_assoc, Rinv_l by lra. lra.
  - apply (Rmult_le_reg_r (n1 * n2)); [exact Hpos|].
    unfold Rdiv. rewrite Rmult_assoc, Rinv_l by lra. lra.
Qed.

(** X3.  In exact arithmetic, a vector of nonzero norm has similarity [1]
    to itself. *)
Theorem cos_sim_self (v : list R) : norm v ≠ 0%R → cos_sim v v = Ok 1%R.
Proof.
  intros Hn. unfold cos_sim. rewrite np_dot_Ok by done. cbn.
  rewrite np_div_Ok by nra. f_equal.
  pose proof (sqrt_sqrt _ (dot_self_nonneg v)) as Hq. unfold norm in *.
  set (n := sqrt (dot v v)) in *. rewrite <- Hq. by field.
Qed.

Lemma cos_sim_value (v1 v2 : list R) :
  length v1 = length v2 → (norm v1 * norm v2)%R ≠ 0%R →
  cos_sim v1 v2 = Ok (dot v1 v2 / (norm v1 * norm v2))%R.
Proof.
  intros Hl Hn. unfold cos_sim. rewrite np_dot_Ok by done. cbn.
  by rewrite np_div_Ok.
Qed.

(** X4.  A vector of norm zero has no similarity to anything of its length:
    numpy divides by zero. *)
Theorem cos_sim_zero_norm (v1 v2 : list R) :
  length v1 = length v2 → norm v1 = 0%R ∨ norm v2 = 0%R →
  cos_sim v1 v2 = Err NonFinite.
Proof.
  intros Hl Hn. unfold cos_sim. rewrite np_dot_Ok by done. cbn.
  replace (norm v1 * norm v2)%R with 0%R by (destruct Hn as [-> | ->]; lra).
  apply np_div_zero.
Qed.
End cos_sim.

Lemma cos_sim_bounded_witness :
  GeneralizedLanguageModel.cos_sim Toy.va Toy.vc = Ok (3 / (1 * 5))%R
  ∧ (-1 <= 3 / (1 * 5) <= 1)%R.
Proof.
  assert (GeneralizedLanguageModel.cos_sim Toy.va Toy.vc = Ok (3 / (1 * 5))%R)
    as Hc.
  { unfold GeneralizedLanguageModel.cos_sim. repeat ev_step. reflexivity. }
  split; [exact Hc|].
  exact (cos_sim_bounded Toy.va Toy.vc (3 / (1 * 5))%R Hc).
Defined.

Lemma cos_sim_self_witness :
  GeneralizedLanguageModel.cos_sim Toy.vc Toy.vc = Ok 1%R.
Proof.
  apply (cos_sim_self Toy.vc). rewrite ToyFacts.norm_c. lra.
Defined.

Lemma cos_sim_zero_norm_witness :
  GeneralizedLanguageModel.cos_sim [0; 0]%R [3; 4]%R = Err NonFinite.
Proof.
  apply (cos_sim_zero_norm [0; 0]%R [3; 4]%R); [reflexivity|].
  left. unfold norm, dot. cbn.
  replace (0 * 0 + (0 * 0 + 0))%R with 0%R by lra. apply sqrt_0.
Defined.

(** ** The term likelihood *)

Section term_likelihood.
Import GeneralizedLanguageModel.
Variable self : t.

(** X5.  A document that [run] does not admit for a query (the flag
    [doc_is_in_inverted_index] stays false) has term likelihood [0] for
    every term of the query, provided its length is known and not zero. *)
Theorem skipped_document_has_zero_likelihood (d dl : Z) (q : list Z) (t : Z) :
  doc_len self !! d = Some dl → dl ≠ 0 →
  doc_is_in_inverted_index self d q = false →
  t ∈ q →
  compute_term_likelihood self t d = Ok 0%R.
Proof.
  intros Hdl Hnz Hflag Ht.
  rewrite (compute_term_likelihood_Ok self t d dl Hdl Hnz).
  destruct (default ∅ (inverted_index self !! t) !! d) as [f|] eqn:Hf.
  - assert (doc_is_in_inverted_index self d q = true) as Htrue.
    { apply doc_is_in_inverted_index_spec. exists t. split; [done|].
      rewrite Hf. by eexists. }
    congruence.
  - cbn. f_equal. unfold Rdiv. ring.
Qed.

(** X6.  With a frequency between [0] and the document length, the term
    likelihood is a value between [0] and [1]. *)
Theorem term_likelihood_range (t d dl : Z) :
  doc_len self !! d = Some dl → 0 < dl →
  0 ≤ default 0 (default ∅ (inverted_index self !! t) !! d) ≤ dl →
  ∃ p, compute_term_likelihood self t d = Ok p ∧ (0 <= p <= 1)%R.
Proof.
  intros Hdl Hpos [Hlo Hhi].
  rewrite (compute_term_likelihood_Ok self t d dl Hdl) by lia.
  eexists. split; [reflexivity|].
  apply IZR_le in Hlo, Hhi. apply IZR_lt in Hpos.
  set (f := IZR (default 0 (default ∅ (inverted_index self !! t) !! d))) in *.
  split.
  - apply Rmult_le_reg_r with (IZR dl); [lra|].
    unfold Rdiv. rewrite Rmult_assoc, Rinv_l by lra. lra.
  - apply Rmult_le_reg_r with (IZR dl); [lra|].
    unfold Rdiv. rewrite Rmult_assoc, Rinv_l by lra. lra.
Qed.

End term_likelihood.

Lemma skipped_document_has_zero_likelihood_witness :
  GeneralizedLanguageModel.compute_term_likelihood (Toy.model 1 0 0) 1 4
  = Ok 0%R.
Proof.
  apply (skipped_document_has_zero_likelihood (Toy.model 1 0 0) 4 3 [1] 1).
  - reflexivity.
  - lia.
  - reflexivity.
  - by left.
Defined.

Lemma term_likelihood_range_witness :
  ∃ p, GeneralizedLanguageModel.compute_term_likelihood (Toy.model 1 0 0) 1 1
       = Ok p ∧ (0 <= p <= 1)%R.
Proof.
  apply (term_likelihood_range (Toy.model 1 0 0) 1 1 4).
  - reflexivity.
  - lia.
  - vm_compute. split; discriminate.
Defined.

(** ** The collection transform and its cache *)

Section col_transform.
Import GeneralizedLanguageModel.
Variable self : t.

(** The summand of one neighbour in [compute_col_transform]. *)
Let summand (query_vec : list R) (snt : R) (neighbour : string) : R :=
  (Spec.cosine query_vec (default [] (wv (word2vec self) !! neighbour)) / snt
   * IZR (col_freq_get self (default 0%Z (token2id self !! neighbour)))
   / IZR (col_size self))%R.

Lemma col_transform_loop (query_term : string) (query_vec : list R) (snt : R)
    (neighbours : list string) (acc : R) :
  sum_nT self !! query_term = Some snt → snt ≠ 0%R → col_size self ≠ 0 →
  (∀ n, n ∈ neighbours →
        ∃ nv nid, wv (word2vec self) !! n = Some nv
                  ∧ length query_vec = length nv
                  ∧ (norm query_vec * norm nv)%R ≠ 0%R
                  ∧ token2id self !! n = Some nid) →
  foldM (λ col_transform neighbour,
           nv ← getitem (wv (word2vec self) !! neighbour);
           similarity ← cos_sim query_vec nv;
           snt ← getitem (sum_nT self !! query_term);
           a ← py_div similarity snt;
           nid ← getitem (token2id self !! neighbour);
           b ← py_div (a * IZR (col_freq_get self nid))%R (IZR (col_size self));
           Ok (col_transform + b)%R)
        acc neighbours
  = Ok (acc + np_sum (summand query_vec snt <$> neighbours))%R.
Proof.
  intros Hsnt Hnz Hcs.
  match goal with |- _ → foldM ?f _ _ = _ => set (body := f) end.
  revert acc.
  induction neighbours as [|n ns IH]; intros acc Hall; cbn [foldM fmap list_fmap].
  - f_equal. unfold np_sum. cbn. lra.
  - destruct (Hall n) as (nv & nid & Hnv & Hlen & Hnorm & Hnid); [by left|].
    assert (body acc n = Ok (acc + summand query_vec snt n)%R) as ->.
    { unfold body. rewrite Hnv. cbn [getitem mbind res_bind].
      rewrite (cos_sim_value query_vec nv) by done. cbn [mbind res_bind].
      rewrite Hsnt. cbn [getitem mbind res_bind].
      rewrite py_div_Ok by done. cbn [mbind res_bind].
      rewrite Hnid. cbn [getitem mbind res_bind].
      rewrite py_div_Ok by (intros H0; by apply eq_IZR_R0 in H0).
      cbn [mbind res_bind]. f_equal. unfold summand, Spec.cosine.
      rewrite Hnv, Hnid. cbn. lra. }
    cbn [mbind res_bind]. rewrite IH by (intros m Hm; apply Hall; by right).
    f_equal. unfold np_sum. cbn. lra.
Qed.

(** X7.  When every lookup succeeds and no denominator is zero,
    [compute_col_transform] is the sum over the cached neighbours of
    (similarity to the query term / cached similarity sum) times
    (collection frequency of the neighbour / collection size). *)
Theorem col_transform_is_neighbour_sum (query_term_id : Z)
    (query_term : string) (query_vec : list R) (neighbours : list string)
    (snt : R) :
  id2token self !! query_term_id = Some query_term →
  wv (word2vec self) !! query_term = Some query_vec →
  col_Nt self !! query_term = Some neighbours →
  sum_nT self !! query_term = Some snt → snt ≠ 0%R → col_size self ≠ 0 →
  (∀ n, n ∈ neighbours →
        ∃ nv nid, wv (word2vec self) !! n = Some nv
                  ∧ length query_vec = length nv
                  ∧ (norm query_vec * norm nv)%R ≠ 0%R
                  ∧ token2id self !! n = Some nid) →
  compute_col_transform self query_term_id
  = Ok (np_sum
          ((λ neighbour,
              Spec.cosine query_vec
                (default [] (wv (word2vec self) !! neighbour)) / snt
              * IZR (col_freq_get self
                       (default 0%Z (token2id self !! neighbour)))
              / IZR (col_size self))%R <$> neighbours)).
Proof.
  intros Htok Hqv Hns Hsnt Hnz Hcs Hall. unfold compute_col_transform.
  rewrite Htok. cbn [getitem mbind res_bind]. rewrite Hqv. cbn [getitem mbind res_bind].
  rewrite Hns. cbn [getitem mbind res_bind].
  rewrite (col_transform_loop query_term query_vec snt neighbours 0%R) by done.
  f_equal. unfold summand. lra.
Qed.

(** X8.  A query term whose token has a vector but no entry in the neighbour
    cache gives [KeyError]. *)
Theorem col_transform_missing_cache_entry (query_term_id : Z)
    (query_term : string) (query_vec : list R) :
  id2token self !! query_term_id = Some query_term →
  wv (word2vec self) !! query_term = Some query_vec →
  col_Nt self !! query_term = None →
  compute_col_transform self query_term_id = Err KeyError.
Proof.
  intros Htok Hqv Hns. unfold compute_col_transform.
  rewrite Htok. cbn [getitem mbind res_bind]. rewrite Hqv.
  cbn [getitem mbind res_bind]. by rewrite Hns.
Qed.
End col_transform.

Lemma col_transform_is_neighbour_sum_witness :
  GeneralizedLanguageModel.compute_col_transform (Toy.model 1 0 0) 1
  = Ok (np_sum
          ((λ neighbour,
              Spec.cosine Toy.va (default [] (Toy.vectors !! neighbour))
              / (3 / 5)
              * IZR (GeneralizedLanguageModel.col_freq_get (Toy.model 1 0 0)
                       (default 0%Z (Toy.token2id !! neighbour)))
              / IZR 6)%R <$> ["c"; "b"])).
Proof.
  apply (col_transform_is_neighbour_sum (Toy.model 1 0 0) 1 "a" Toy.va
           ["c"; "b"] (3 / 5)%R).
  - reflexivity.
  - reflexivity.
  - reflexivity.
  - reflexivity.
  - lra.
  - discriminate.
  - intros n Hn. apply elem_of_cons in Hn as [->|Hn];
      [|apply list_elem_of_singleton in Hn as ->].
    + exists Toy.vc, 3. split; [reflexivity|]. split; [reflexivity|].
      split; [autorewrite with example; lra | reflexivity].
    + exists Toy.vb, 2. split; [reflexivity|]. split; [reflexivity|].
      split; [autorewrite with example; lra | reflexivity].
Defined.

Lemma col_transform_missing_cache_entry_witness :
  GeneralizedLanguageModel.compute_col_transform (Toy.model 1 0 0) 3
  = Err KeyError.
Proof.
  apply (col_transform_missing_cache_entry (Toy.model 1 0 0) 3 "c" Toy.vc).
  - reflexivity.
  - reflexivity.
  - reflexivity.
Defined.

Lemma foldM_elem_Ok {A S} (f : S → A → res S) (l : list A) (a : A) (s s' : S) :
  foldM f s l = Ok s' → a ∈ l → ∃ s1 s2, f s1 a = Ok s2.
Proof.
  revert s. induction l as [|b l IH]; intros s Hfold Ha;
    [by apply elem_of_nil in Ha|].
  cbn in Hfold. apply bind_Ok in Hfold as (s1 & Hs1 & Hfold).
  apply elem_of_cons in Ha as [->|Ha]; [by exists s, s1 | by apply (IH s1)].
Qed.

Section col_nt.
Import GeneralizedLanguageModel.
Variable self : t.
Variable n_terms : nat.

(** The similarities summed for a query token in [compute_col_nt]. *)
Let sims_of (query_term : string) (neighbours : list string) : res (list R) :=
  forM (λ ngh_term,
          v1 ← getitem (wv (word2vec self) !! query_term);
          v2 ← getitem (wv (word2vec self) !! ngh_term);
          cos_sim v1 v2) neighbours.

(** The body of the inner loop of [compute_col_nt]. *)
Let step (acc : gmap string (list string) * gmap string R)
    (query_term_id : Z) : res (gmap string (list string) * gmap string R) :=
  (λ '(term_neighbours, term_neighbours_sum) query_term_id,
     query_term ← getitem (id2token self !! query_term_id);
     similar ← most_similar (word2vec self) query_term n_terms;
     let neighbours := similar.*1 in
     sims ← forM (λ ngh_term,
               v1 ← getitem (wv (word2vec self) !! query_term);
               v2 ← getitem (wv (word2vec self) !! ngh_term);
               cos_sim v1 v2) neighbours;
     Ok (<[query_term := neighbours]> term_neighbours,
         <[query_term := np_sum sims]> term_neighbours_sum))
    acc query_term_id.

Lemma col_nt_step_inv acc t acc' :
  step acc t = Ok acc' →
  ∃ tok similar sims,
    id2token self !! t = Some tok
    ∧ most_similar (word2vec self) tok n_terms = Ok similar
    ∧ sims_of tok similar.*1 = Ok sims
    ∧ acc' = (<[tok := similar.*1]> acc.1, <[tok := np_sum sims]> acc.2).
Proof.
  unfold step. destruct acc as [tn tns]. intros Hstep.
  apply bind_Ok in Hstep as (tok & Htok%getitem_Ok & Hstep).
  apply bind_Ok in Hstep as (similar & Hsim & Hstep).
  apply bind_Ok in Hstep as (sims & Hsims & [= <-]).
  by exists tok, similar, sims.
Qed.

Lemma col_nt_step_preserves (tok : string) (similar : list (string * R))
    (sims : list R) acc t acc' :
  most_similar (word2vec self) tok n_terms = Ok similar →
  sims_of tok similar.*1 = Ok sims →
  step acc t = Ok acc' →
  (acc.1 !! tok = Some similar.*1 ∧ acc.2 !! tok = Some (np_sum sims)) →
  (acc'.1 !! tok = Some similar.*1 ∧ acc'.2 !! tok = Some (np_sum sims)).
Proof.
  intros Hsim Hsims Hstep [H1 H2].
  apply col_nt_step_inv in Hstep as (tok' & similar' & sims' & _ & Hsim' & Hsims' & ->).
  cbn [fst snd]. destruct (decide (tok' = tok)) as [->|Hne].
  - rewrite Hsim in Hsim'. injection Hsim' as <-.
    rewrite Hsims in Hsims'. injection Hsims' as <-.
    by rewrite !lookup_insert_eq.
  - by rewrite !lookup_insert_ne.
Qed.

Lemma col_nt_step_establishes (tok : string) (similar : list (string * R))
    (sims : list R) acc t acc' :
  id2token self !! t = Some tok →
  most_similar (word2vec self) tok n_terms = Ok similar →
  sims_of tok similar.*1 = Ok sims →
  step acc t = Ok acc' →
  acc'.1 !! tok = Some similar.*1 ∧ acc'.2 !! tok = Some (np_sum sims).
Proof.
  intros Htok Hsim Hsims Hstep.
  apply col_nt_step_inv in Hstep as (tok' & similar' & sims' & Htok' & Hsim' & Hsims' & ->).
  rewrite Htok in Htok'. injection Htok' as <-.
  rewrite Hsim in Hsim'. injection Hsim' as <-.
  rewrite Hsims in Hsims'. injection Hsims' as <-.
  cbn [fst snd]. by rewrite !lookup_insert_eq.
Qed.

(** X9.  The neighbour cache that [compute_col_nt] returns has an entry for the
    token of every term of every query listed in [doc_col]: the entry
    holds the tokens [most_similar] returned for it, and the second cache
    holds the sum of their similarities to it.  So [compute_col_transform]
    finds its cache entries for these terms. *)
Theorem col_nt_covers_query_terms (dc : list (string * list Z))
    (nt : gmap string (list string)) (snt : gmap string R)
    (qid : string) (ds : list Z) (q : list Z) (t : Z) :
  doc_col self = Some dc →
  compute_col_nt self n_terms = Ok (nt, snt) →
  (qid, ds) ∈ dc → dict_get (queries self) qid = Some q → t ∈ q →
  ∃ tok similar sims,
    id2token self !! t = Some tok
    ∧ most_similar (word2vec self) tok n_terms = Ok similar
    ∧ forM (λ ngh_term,
              v1 ← getitem (wv (word2vec self) !! tok);
              v2 ← getitem (wv (word2vec self) !! ngh_term);
              cos_sim v1 v2) similar.*1 = Ok sims
    ∧ nt !! tok = Some similar.*1
    ∧ snt !! tok = Some (np_sum sims).
Proof.
  intros Hdc Hnt Hqds Hq Ht.
  unfold compute_col_nt, self_doc_col in Hnt. rewrite Hdc in Hnt.
  cbn [mbind res_bind] in Hnt.
  change (foldM (λ acc '(query_id, int_doc_ids),
                   query ← getitem (dict_get (queries self) query_id);
                   foldM step acc query) (∅, ∅) dc = Ok (nt, snt)) in Hnt.
  destruct (foldM_elem_Ok _ dc (qid, ds) _ _ Hnt Hqds) as (s1 & s2 & Hbody).
  cbn beta iota in Hbody. rewrite Hq in Hbody. cbn [getitem mbind res_bind] in Hbody.
  destruct (foldM_elem_Ok _ q t _ _ Hbody Ht) as (s3 & s4 & Hstep).
  apply col_nt_step_inv in Hstep as (tok & similar & sims & Htok & Hsim & Hsims & _).
  exists tok, similar, sims. split; [done|]. split; [done|]. split; [done|].
  change (((nt, snt).1 !! tok = Some similar.*1)
          ∧ ((nt, snt).2 !! tok = Some (np_sum sims))).
  apply (foldM_establish _
           (λ acc, acc.1 !! tok = Some similar.*1
                   ∧ acc.2 !! tok = Some (np_sum sims))
           dc (qid, ds) _ (nt, snt) Hqds Hnt).
  - intros st [qid' ds'] st' _ Hb Hold. cbn beta iota in Hb.
    apply bind_Ok in Hb as (q' & _ & Hinner).
    refine (foldM_Ok_inv _
              (λ acc, acc.1 !! tok = Some similar.*1
                      ∧ acc.2 !! tok = Some (np_sum sims))
              q' _ st' _ Hold Hinner).
    intros st1 t' st2 _ Hold1 Hstep1.
    by apply (col_nt_step_preserves tok similar sims st1 t' st2).
  - intros st st' Hb. cbn beta iota in Hb. rewrite Hq in Hb.
    cbn [getitem mbind res_bind] in Hb.
    apply (foldM_establish _
             (λ acc, acc.1 !! tok = Some similar.*1
                     ∧ acc.2 !! tok = Some (np_sum sims))
             q t _ st' Ht Hb).
    + intros st1 t' st2 _ Hstep1 Hold1.
      by apply (col_nt_step_preserves tok similar sims st1 t' st2).
    + intros st1 st2 Hstep1.
      by apply (col_nt_step_establishes tok similar sims st1 t st2).
Qed.

(** A query identifier of [doc_col] that [queries] does not know gives
    [KeyError] unless an earlier query already failed, and in no case a
    result. *)
Lemma col_nt_unknown_query (dc : list (string * list Z)) (qid : string)
    (ds : list Z) :
  doc_col self = Some dc →
  (qid, ds) ∈ dc → dict_get (queries self) qid = None →
  ∃ e, compute_col_nt self n_terms = Err e.
Proof.
  intros Hdc Hqds Hq. unfold compute_col_nt, self_doc_col. rewrite Hdc.
  cbn [mbind res_bind].
  apply (foldM_Err_elem _ dc (qid, ds) Hqds). intros st.
  cbn beta iota. rewrite Hq. by exists KeyError.
Qed.
End col_nt.

Lemma col_nt_covers_query_terms_witness :
  ∃ tok similar sims,
    Toy.id2token !! 2 = Some tok
    ∧ most_similar Toy.word2vec tok 3 = Ok similar
    ∧ forM (λ ngh_term,
              v1 ← getitem (Toy.vectors !! tok);
              v2 ← getitem (Toy.vectors !! ngh_term);
              GeneralizedLanguageModel.cos_sim v1 v2) similar.*1 = Ok sims
    ∧ Toy.col_Nt !! tok = Some similar.*1
    ∧ Toy.sum_nT !! tok = Some (np_sum sims).
Proof.
  apply (col_nt_covers_query_terms (Toy.model 1 0 0) 3 Toy.doc_col
           Toy.col_Nt Toy.sum_nT "q2" [3; 1] [1; 2] 2).
  - reflexivity.
  - apply ToyCaches.col_nt_computed.
  - by left.
  - reflexivity.
  - right. by left.
Defined.

(** ** The constructor and its pickles *)

Section constructor_caches.
Import GeneralizedLanguageModel.

(** X10.  Without a [doc_col] (the default of [__init__]) a cache that is not
    pickled cannot be built: [self.doc_col.values()] and
    [self.doc_col.items()] fail on [None].  The constructor then raises
    [AttributeError] and writes nothing. *)
Theorem init_without_doc_col (ix : Index) (ii : gmap Z (gmap Z Z))
    (qs : list (string * list Z)) (cf dl : gmap Z Z) (l a b : R)
    (w2v : Word2Vec) (fs : FS) :
  pkl_doc_sim_sums fs = None ∨ pkl_col_Nt fs = None →
  init ix ii qs cf dl l a b None w2v fs = (Err AttributeError, fs).
Proof.
  intros Hmiss. unfold init. destruct (get_dictionary ix) as [[t2i i2t] df].
  destruct (pkl_doc_sim_sums fs) as [dss|] eqn:Hdss; [|reflexivity].
  destruct Hmiss as [?| ->]; [discriminate | reflexivity].
Qed.

(** X11.  With both pickles present the constructor computes nothing: it cannot
    fail, leaves the files as they are and takes the caches from the
    pickles, whatever index, queries and [doc_col] it is given. *)
Theorem init_loads_pickles (ix : Index) (ii : gmap Z (gmap Z Z))
    (qs : list (string * list Z)) (cf dl : gmap Z Z) (l a b : R)
    (dc : option (list (string * list Z))) (w2v : Word2Vec) (fs : FS)
    (dss : gmap Z R) (nt : gmap string (list string)) (snt : gmap string R) :
  pkl_doc_sim_sums fs = Some dss → pkl_col_Nt fs = Some (nt, snt) →
  ∃ self,
    init ix ii qs cf dl l a b dc w2v fs = (Ok self, fs)
    ∧ doc_sim_sum self = dss ∧ col_Nt self = nt ∧ sum_nT self = snt.
Proof.
  intros Hdss Hnt. unfold init. destruct (get_dictionary ix) as [[t2i i2t] df].
  rewrite Hdss, Hnt. eexists. split; [reflexivity|]. by cbn.
Qed.

Lemma init_Ok_files (ix : Index) (ii : gmap Z (gmap Z Z))
    (qs : list (string * list Z)) (cf dl : gmap Z Z) (l a b : R)
    (dc : option (list (string * list Z))) (w2v : Word2Vec) (fs fs' : FS)
    (self : t) :
  init ix ii qs cf dl l a b dc w2v fs = (Ok self, fs') →
  pkl_doc_sim_sums fs' = Some (doc_sim_sum self)
  ∧ pkl_col_Nt fs' = Some (col_Nt self, sum_nT self)
  ∧ files fs' = files fs.
Proof.
  unfold init. destruct (get_dictionary ix) as [[t2i i2t] df].
  destruct (pkl_doc_sim_sums fs) as [dss|] eqn:Hdss;
    [|destruct (compute_doc_sim_sum _) as [dss|e]; [|discriminate]];
    cbn [pkl_col_Nt].
  all: destruct (pkl_col_Nt fs) as [[nt snt]|] eqn:Hnt;
    [|destruct (compute_col_nt _ _) as [[nt snt]|e]; [|discriminate]].
  all: intros [= <- <-]; cbn; by rewrite ?Hdss, ?Hnt.
Qed.

(** X12.  A constructor that succeeds leaves both pickles behind, holding the
    caches of the model it returns, and touches no run file. *)
Theorem init_stores_caches (ix : Index) (ii : gmap Z (gmap Z Z))
    (qs : list (string * list Z)) (cf dl : gmap Z Z) (l a b : R)
    (dc : option (list (string * list Z))) (w2v : Word2Vec) (fs fs' : FS)
    (self : t) :
  init ix ii qs cf dl l a b dc w2v fs = (Ok self, fs') →
  pkl_doc_sim_sums fs' = Some (doc_sim_sum self)
  ∧ pkl_col_Nt fs' = Some (col_Nt self, sum_nT self)
  ∧ files fs' = files fs.
Proof. apply init_Ok_files. Qed.

(** X13.  Constructing the model a second time, on the files the first
    construction left, gives the same model and changes no file: the
    caches are computed at most once. *)
Theorem init_twice (ix : Index) (ii : gmap Z (gmap Z Z))
    (qs : list (string * list Z)) (cf dl : gmap Z Z) (l a b : R)
    (dc : option (list (string * list Z))) (w2v : Word2Vec) (fs fs' : FS)
    (self : t) :
  init ix ii qs cf dl l a b dc w2v fs = (Ok self, fs') →
  init ix ii qs cf dl l a b dc w2v fs' = (Ok self, fs').
Proof.
  intros Hinit.
  destruct (init_Ok_files _ _ _ _ _ _ _ _ _ _ _ _ _ Hinit)
    as (Hdss & Hnt & _).
  revert Hinit. unfold init. destruct (get_dictionary ix) as [[t2i i2t] df].
  rewrite Hdss, Hnt.
  destruct (pkl_doc_sim_sums fs) as [dss|];
    [|destruct (compute_doc_sim_sum _) as [dss|e]; [|discriminate]];
    cbn [pkl_col_Nt].
  all: destruct (pkl_col_Nt fs) as [[nt snt]|];
    [|destruct (compute_col_nt _ _) as [[nt snt]|e]; [|discriminate]].
  all: by intros [= <- _].
Qed.

(** X14.  A constructor that raises an exception leaves the neighbour
    pickle and the run files as they were; the similarity-sum pickle it may
    have written just before.  (The outcome [NonFinite] is no exception:
    there the code carries on with [nan] or [inf].) *)
Theorem init_failure_files (ix : Index) (ii : gmap Z (gmap Z Z))
    (qs : list (string * list Z)) (cf dl : gmap Z Z) (l a b : R)
    (dc : option (list (string * list Z))) (w2v : Word2Vec) (fs fs' : FS)
    (e : exn) :
  init ix ii qs cf dl l a b dc w2v fs = (Err e, fs') →
  e ≠ NonFinite →
  pkl_col_Nt fs' = pkl_col_Nt fs ∧ files fs' = files fs
  ∧ (pkl_doc_sim_sums fs' = pkl_doc_sim_sums fs
     ∨ (pkl_doc_sim_sums fs = None ∧ is_Some (pkl_doc_sim_sums fs'))).
Proof.
  intros Hinit _. revert Hinit.
  unfold init. destruct (get_dictionary ix) as [[t2i i2t] df].
  destruct (pkl_doc_sim_sums fs) as [dss|] eqn:Hdss;
    [|destruct (compute_doc_sim_sum _) as [dss|e']];
    cbn [pkl_col_Nt].
  3: { intros [= <- <-]. rewrite Hdss. by auto. }
  all: destruct (pkl_col_Nt fs) as [[nt snt]|] eqn:Hnt;
    [discriminate|destruct (compute_col_nt _ _) as [[nt snt]|e'']; [discriminate|]].
  all: intros [= <- <-]; cbn; rewrite ?Hdss, ?Hnt.
  - by auto.
  - split; [done|]. split; [done|]. right. split; [done | by eexists].
Qed.
End constructor_caches.

Lemma init_without_doc_col_witness :
  GeneralizedLanguageModel.init Toy.index Toy.inverted_index Toy.queries
    Toy.col_freq Toy.doc_len 1 0 0 None Toy.word2vec
    {| pkl_doc_sim_sums := Some Toy.doc_sim_sum; pkl_col_Nt := None;
       files := ∅ |}
  = (Err AttributeError,
     {| pkl_doc_sim_sums := Some Toy.doc_sim_sum; pkl_col_Nt := None;
        files := ∅ |}).
Proof.
  apply (init_without_doc_col Toy.index Toy.inverted_index Toy.queries
           Toy.col_freq Toy.doc_len 1 0 0 Toy.word2vec).
  right. reflexivity.
Defined.

Lemma init_loads_pickles_witness :
  ∃ self,
    GeneralizedLanguageModel.init Toy.index Toy.inverted_index Toy.queries
      Toy.col_freq Toy.doc_len 1 0 0 None Toy.word2vec Toy.fs
    = (Ok self, Toy.fs)
    ∧ GeneralizedLanguageModel.doc_sim_sum self = Toy.doc_sim_sum
    ∧ GeneralizedLanguageModel.col_Nt self = Toy.col_Nt
    ∧ GeneralizedLanguageModel.sum_nT self = Toy.sum_nT.
Proof.
  apply (init_loads_pickles Toy.index Toy.inverted_index Toy.queries
           Toy.col_freq Toy.doc_len 1 0 0 None Toy.word2vec Toy.fs
           Toy.doc_sim_sum Toy.col_Nt Toy.sum_nT).
  - reflexivity.
  - reflexivity.
Defined.

Lemma init_stores_caches_witness :
  pkl_doc_sim_sums Toy.fs
  = Some (GeneralizedLanguageModel.doc_sim_sum (Toy.model 1 0 0))
  ∧ pkl_col_Nt Toy.fs
    = Some (GeneralizedLanguageModel.col_Nt (Toy.model 1 0 0),
            GeneralizedLanguageModel.sum_nT (Toy.model 1 0 0))
  ∧ files Toy.fs = ∅.
Proof.
  apply (init_stores_caches Toy.index Toy.inverted_index Toy.queries
           Toy.col_freq Toy.doc_len 1 0 0 (Some Toy.doc_col) Toy.word2vec
           {| pkl_doc_sim_sums := None; pkl_col_Nt := None; files := ∅ |}
           Toy.fs (Toy.model 1 0 0)).
  apply ToyCaches.init_from_scratch.
Defined.

Lemma init_twice_witness :
  GeneralizedLanguageModel.init Toy.index Toy.inverted_index Toy.queries
    Toy.col_freq Toy.doc_len 1 0 0 (Some Toy.doc_col) Toy.word2vec Toy.fs
  = (Ok (Toy.model 1 0 0), Toy.fs).
Proof.
  apply (init_twice Toy.index Toy.inverted_index Toy.queries
           Toy.col_freq Toy.doc_len 1 0 0 (Some Toy.doc_col) Toy.word2vec
           {| pkl_doc_sim_sums := None; pkl_col_Nt := None; files := ∅ |}).
  apply ToyCaches.init_from_scratch.
Defined.

Lemma init_failure_files_witness :
  pkl_col_Nt {| pkl_doc_sim_sums := Some Toy.doc_sim_sum; pkl_col_Nt := None;
                files := ∅ |} = None
  ∧ files {| pkl_doc_sim_sums := Some Toy.doc_sim_sum; pkl_col_Nt := None;
             files := ∅ |} = ∅
  ∧ (pkl_doc_sim_sums {| pkl_doc_sim_sums := Some Toy.doc_sim_sum;
                         pkl_col_Nt := None; files := ∅ |}
     = Some Toy.doc_sim_sum
     ∨ (Some Toy.doc_sim_sum = None
        ∧ is_Some (pkl_doc_sim_sums
                     {| pkl_doc_sim_sums := Some Toy.doc_sim_sum;
                        pkl_col_Nt := None; files := ∅ |}))).
Proof.
  apply (init_failure_files Toy.index Toy.inverted_index Toy.queries
           Toy.col_freq Toy.doc_len 1 0 0 None Toy.word2vec
           {| pkl_doc_sim_sums := Some Toy.doc_sim_sum; pkl_col_Nt := None;
              files := ∅ |} _ AttributeError).
  - reflexivity.
  - discriminate.
Defined.

(** ** The score as a sum of logarithms *)

Lemma np_sum_Permutation (l k : list R) : l ≡ₚ k → np_sum l = np_sum k.
Proof.
  unfold np_sum.
  induction 1 as [|x l k _ IH|x y l|l k m _ IH1 _ IH2]; cbn;
    [reflexivity | by rewrite IH | lra | congruence].
Qed.

Lemma forM_Permutation {A B} (f : A → res B) (l l' : list A) (bs : list B) :
  l ≡ₚ l' → forM f l = Ok bs → ∃ bs', forM f l' = Ok bs' ∧ bs ≡ₚ bs'.
Proof.
  intros Hperm. revert bs.
  induction Hperm as [|x l l' _ IH|x y l|l l' l'' _ IH1 _ IH2]; intros bs; cbn.
  - intros [= <-]. by exists [].
  - intros H. apply bind_Ok in H as (b & Hb & H).
    apply bind_Ok in H as (bs1 & Hbs1 & [= <-]).
    destruct (IH _ Hbs1) as (bs' & -> & Hp). rewrite Hb. cbn.
    exists (b :: bs'). split; [done | by constructor].
  - intros H. apply bind_Ok in H as (b & Hb & H).
    apply bind_Ok in H as (bs1 & H & [= <-]).
    apply bind_Ok in H as (c & Hc & H).
    apply bind_Ok in H as (bs2 & Hbs2 & [= <-]).
    rewrite Hc, Hb, Hbs2. cbn. exists (c :: b :: bs2).
    split; [done | by constructor].
  - intros H. destruct (IH1 _ H) as (bs1 & H1 & Hp1).
    destruct (IH2 _ H1) as (bs2 & H2 & Hp2).
    exists bs2. split; [done | by etrans].
Qed.

Section score_sum.
Variable m : Z → res R.

Let body (score : R) (query_term_id : Z) : res R :=
  p ← m query_term_id; l ← math_log p; Ok (score + l)%R.

Lemma score_loop_Ok (q : list Z) (a s : R) :
  foldM body a q = Ok s →
  ∃ ps, forM m q = Ok ps ∧ Forall (λ p, (0 < p)%R) ps
        ∧ s = (a + np_sum (ln <$> ps))%R.
Proof.
  revert a. induction q as [|t q IH]; intros a; cbn.
  - intros [= <-]. exists []. split; [done|]. split; [constructor|].
    cbn. lra.
  - intros H. apply bind_Ok in H as (a1 & Ha1 & H). unfold body in Ha1.
    apply bind_Ok in Ha1 as (p & Hp & Ha1).
    apply bind_Ok in Ha1 as (l & Hl & [= <-]).
    destruct (Rlt_le_dec 0 p) as [Hpos|Hle];
      [|rewrite math_log_Err in Hl by done; discriminate].
    rewrite math_log_Ok in Hl by done. injection Hl as <-.
    destruct (IH _ H) as (ps & Hps & Hall & ->).
    exists (p :: ps). rewrite Hp. cbn. rewrite Hps. cbn.
    split; [done|]. split; [by constructor|]. unfold np_sum. cbn. lra.
Qed.

Lemma score_loop_sum (q : list Z) (a : R) (ps : list R) :
  forM m q = Ok ps → Forall (λ p, (0 < p)%R) ps →
  foldM body a q = Ok (a + np_sum (ln <$> ps))%R.
Proof.
  revert a ps. induction q as [|t q IH]; intros a ps; cbn.
  - intros [= <-] _. cbn. f_equal. lra.
  - intros H Hall. apply bind_Ok in H as (p & Hp & H).
    apply bind_Ok in H as (ps' & Hps & [= <-]).
    apply Forall_cons in Hall as [Hpos Hall].
    assert (body a t = Ok (a + ln p)%R) as ->
      by (unfold body; rewrite Hp; cbn; by rewrite math_log_Ok).
    cbn. rewrite (IH _ ps') by done. f_equal. unfold np_sum. cbn. lra.
Qed.
End score_sum.

Section score_structure.
Import GeneralizedLanguageModel.
Variable self : t.

(** X17.  In exact arithmetic, for a document of the index [score]
    returns a finite number exactly when the mixture of every query term
    is a positive finite number, and that number is the sum of their
    logarithms.  ([Ok] is a finite result: a mixture that is [nan] or
    [inf] gives no finite score.) *)
Theorem score_is_sum_of_logs (d : Z) (q : list Z) (ext : string)
    (doc : list Z) (s : R) :
  documents (index self) !! d = Some (ext, doc) →
  score self d q = Ok s
  ↔ ∃ ps, forM (λ t, mixture self t d doc) q = Ok ps
          ∧ Forall (λ p, (0 < p)%R) ps
          ∧ s = np_sum (ln <$> ps).
Proof.
  intros Hdoc. rewrite (score_unfold self d q ext doc Hdoc). split.
  - intros H. apply score_loop_Ok in H as (ps & Hps & Hall & ->).
    exists ps. split; [done|]. split; [done | lra].
  - intros (ps & Hps & Hall & ->).
    rewrite (score_loop_sum _ q 0 ps Hps Hall). f_equal. lra.
Qed.

(** X18.  A score does not depend on the order of the query terms (the order
    only decides which error is raised when several terms fail). *)
Theorem score_permutation (d : Z) (q q' : list Z) (s : R) :
  q ≡ₚ q' → score self d q = Ok s → score self d q' = Ok s.
Proof.
  intros Hperm. unfold score.
  destruct (document (index self) d) as [[ext doc]|e]; cbn; [|done].
  intros H. apply score_loop_Ok in H as (ps & Hps & Hall & ->).
  destruct (forM_Permutation _ q q' ps Hperm Hps) as (ps' & Hps' & Hp).
  rewrite (score_loop_sum _ q' 0 ps' Hps'); [|by rewrite <- Hp].
  do 2 f_equal. apply np_sum_Permutation. by rewrite Hp.
Qed.

(** X19.  In exact arithmetic, finite scores add up over the query: the
    score of a concatenation is the sum of the scores of its parts. *)
Theorem score_app (d : Z) (q1 q2 : list Z) (s1 s2 : R) :
  score self d q1 = Ok s1 → score self d q2 = Ok s2 →
  score self d (q1 ++ q2) = Ok (s1 + s2)%R.
Proof.
  unfold score.
  destruct (document (index self) d) as [[ext doc]|e]; cbn; [|done].
  intros H1 H2.
  apply score_loop_Ok in H1 as (ps1 & Hps1 & Hall1 & ->).
  apply score_loop_Ok in H2 as (ps2 & Hps2 & Hall2 & ->).
  rewrite foldM_app.
  rewrite (score_loop_sum _ q1 0 ps1 Hps1 Hall1). cbn.
  rewrite (score_loop_sum _ q2 _ ps2 Hps2 Hall2). f_equal. lra.
Qed.

Lemma doc_transform_zero_sum_fails (t d : Z) (doc : list Z) :
  filter_doc doc ≠ [] → doc_sim_sum self !! d = Some 0%R →
  ∃ e, compute_doc_transform self t d doc = Err e.
Proof.
  intros Hne Hdss. unfold compute_doc_transform.
  destruct (term_vector self t) as [qv|e]; cbn; [|by eauto].
  destruct (forM _ (filter_doc doc)) as [rows|e] eqn:Hrows; cbn; [|by eauto].
  destruct (aligned qv) as [[]|e]; cbn; [|by eauto].
  rewrite Hdss. cbn.
  destruct (doc_len self !! d) as [dl|]; cbn; [|by eauto].
  apply forM_Ok_inv, Forall2_length in Hrows.
  destruct rows as [|[v tf] rows];
    [by destruct (filter_doc doc)|]. cbn.
  destruct (np_div_cases (dot v qv) (norm v)) as [-> | ->];
    cbn; [|by eauto].
  destruct (np_div_cases (dot v qv / norm v) (norm qv)) as [-> | ->];
    cbn; [|by eauto].
  rewrite Rmult_0_l, np_div_zero. cbn. by eauto.
Qed.

(** X20.  A document with a retained term whose similarity sum is [0] (every
    document with one or two retained terms) has no score for any
    nonempty query, whatever the weights: the document transform divides
    by zero. *)
Theorem zero_similarity_sum_never_scores (d : Z) (q : list Z)
    (ext : string) (doc : list Z) :
  documents (index self) !! d = Some (ext, doc) →
  filter_doc doc ≠ [] → doc_sim_sum self !! d = Some 0%R → q ≠ [] →
  ∃ e, score self d q = Err e.
Proof.
  intros Hdoc Hne Hdss Hq. rewrite (score_unfold self d q ext doc Hdoc).
  destruct q as [|t q]; [done|].
  apply (foldM_Err_elem _ (t :: q) t); [by left|]. intros s.
  unfold mixture.
  destruct (compute_term_likelihood self t d) as [tl|e]; cbn; [|by eauto].
  destruct (doc_transform_zero_sum_fails t d doc Hne Hdss) as [e ->].
  cbn. by eauto.
Qed.

(** X21.  A document without a cached similarity sum or without a length has
    no score for any nonempty query: both are read for every query
    term. *)
Theorem uncached_document_never_scores (d : Z) (q : list Z) :
  doc_sim_sum self !! d = None ∨ doc_len self !! d = None → q ≠ [] →
  ∃ e, score self d q = Err e.
Proof.
  intros Hmiss Hq. unfold score.
  destruct (document (index self) d) as [[ext doc]|e]; cbn; [|by eauto].
  destruct q as [|t q]; [done|].
  apply (foldM_Err_elem _ (t :: q) t); [by left|]. intros s.
  unfold mixture, compute_term_likelihood.
  destruct (doc_len self !! d) as [dl|] eqn:Hdl; cbn; [|by eauto].
  destruct Hmiss as [Hdss|?]; [|done].
  destruct (py_div _ _) as [tl|e]; cbn; [|by eauto].
  unfold compute_doc_transform.
  destruct (term_vector self t) as [qv|e]; cbn; [|by eauto].
  destruct (forM _ (filter_doc doc)) as [rows|e]; cbn; [|by eauto].
  destruct (aligned qv) as [[]|e]; cbn; [|by eauto].
  rewrite Hdss. cbn. by eauto.
Qed.
End score_structure.

Section run_failure.
Import GeneralizedLanguageModel.
Variable self : t.

(** X22.  [run] handles no exception: one considered pair that the inverted
    index admits and for which [score] raises an exception ends the whole
    run in an error, and the files are as before.  Stated over the score
    as executed, where [Err] is a raised exception only: a score that is
    [nan] or [inf] is a value, and the run goes on. *)
Theorem failing_pair_aborts_run {V : Type} (zero : V) (is_zero : V → bool)
    (score_fl : Z → list Z → res V)
    (write_run_fl : string → run_data_fl V → nat → string)
    (model_name : string) (doc_col : option (list (string * list Z)))
    (fs : FS) (qid : string) (q : list Z) (d : Z) (ext : string)
    (doc : list Z) (e : exn) :
  files fs !! run_out_path model_name = None →
  Spec.considered self doc_col qid q d →
  documents (index self) !! d = Some (ext, doc) →
  doc_is_in_inverted_index self d q = true →
  score_fl d q = Err e →
  ∃ e', run_fl zero is_zero score_fl write_run_fl self model_name doc_col fs
        = (Err e', fs).
Proof.
  intros Hfresh Hcons Hdoc Hin He.
  destruct (run_loops_fl_abort zero is_zero score_fl self doc_col qid q d ext
              doc e Hcons Hdoc Hin He) as [e' He'].
  exists e'. unfold run_fl.
  destruct (decide (is_Some (files fs !! run_out_path model_name)))
    as [Hsome|_]; [rewrite Hfresh in Hsome; by destruct Hsome|].
  by rewrite He'.
Qed.
End run_failure.

Module ToySubsetFacts.
Import GeneralizedLanguageModel.

Lemma subset_doc_sim_sum_computed l a b :
  compute_doc_sim_sum (ToySubset.model l a b) = Ok ToySubset.doc_sim_sum.
Proof.
  unfold compute_doc_sim_sum, self_doc_col.
  cbn [doc_col ToySubset.model mbind res_bind].
  let r := eval vm_compute in (np_unique (concat ToySubset.doc_col.*2)) in
  change (np_unique (concat ToySubset.doc_col.*2)) with r.
  cbn [foldM].
  rewrite (doc_sim_sum_of_Ok _ 1 "D1" [1; 2; 0; 3; 1]
             [Toy.va; Toy.vb; Toy.vc; Toy.va]);
    [ | reflexivity | reflexivity | cbn [drop]; norms_nonzero ].
  cbn [mbind res_bind].
  rewrite (doc_sim_sum_of_Ok _ 3 "D3" [1; 1; 1] [Toy.va; Toy.va; Toy.va]);
    [ | reflexivity | reflexivity | cbn [drop]; norms_nonzero ].
  cbn [mbind res_bind].
  rewrite ToyCaches.pair_sum_1, ToyCaches.pair_sum_3.
  reflexivity.
Qed.

Lemma subset_col_nt_computed l a b :
  compute_col_nt (ToySubset.model l a b) 3 = Ok (Toy.col_Nt, Toy.sum_nT).
Proof.
  unfold compute_col_nt, self_doc_col, cos_sim.
  cbn [doc_col ToySubset.model mbind res_bind ToySubset.doc_col foldM queries
       id2token word2vec].
  change (dict_get Toy.queries "q2") with (Some [1; 2]).
  repeat first [ rewrite ToyCaches.similar_a | rewrite ToyCaches.similar_b
               | ev_step
               | progress cbn [fmap list_fmap wv Toy.word2vec] ].
  replace (np_sum [(3 / (1 * 5))%R; (0 / (1 * 1))%R]) with (3 / 5)%R
    by real_side.
  replace (np_sum [(4 / (1 * 5))%R; (0 / (1 * 1))%R]) with (4 / 5)%R
    by real_side.
  reflexivity.
Qed.

Lemma subset_init_from_scratch l a b :
  init Toy.index Toy.inverted_index Toy.queries Toy.col_freq Toy.doc_len
    l a b (Some ToySubset.doc_col) Toy.word2vec
    {| pkl_doc_sim_sums := None; pkl_col_Nt := None; files := ∅ |}
  = (Ok (ToySubset.model l a b),
     {| pkl_doc_sim_sums := Some ToySubset.doc_sim_sum;
        pkl_col_Nt := Some (Toy.col_Nt, Toy.sum_nT); files := ∅ |}).
Proof.
  unfold init. cbn [get_dictionary Toy.index pkl_doc_sim_sums pkl_col_Nt].
  change (compute_doc_sim_sum _)
    with (compute_doc_sim_sum (ToySubset.model l a b)).
  rewrite subset_doc_sim_sum_computed. cbn [pkl_col_Nt].
  change (compute_col_nt _ 3) with (compute_col_nt (ToySubset.model l a b) 3).
  rewrite subset_col_nt_computed. reflexivity.
Qed.

End ToySubsetFacts.

Lemma score_is_sum_of_logs_witness :
  GeneralizedLanguageModel.score (Toy.model 1 0 0) 1 [1; 2]
  = Ok (0 + ln (2 / 4) + ln (1 / 4))%R
  ↔ ∃ ps,
      forM (λ t, GeneralizedLanguageModel.mixture (Toy.model 1 0 0) t 1
                   [1; 2; 0; 3; 1]) [1; 2] = Ok ps
      ∧ Forall (λ p, (0 < p)%R) ps
      ∧ (0 + ln (2 / 4) + ln (1 / 4))%R = np_sum (ln <$> ps).
Proof.
  apply (score_is_sum_of_logs (Toy.model 1 0 0) 1 [1; 2] "D1"
           [1; 2; 0; 3; 1]).
  reflexivity.
Defined.

Lemma score_permutation_witness :
  GeneralizedLanguageModel.score (Toy.model 1 0 0) 1 [2; 1]
  = Ok (0 + ln (2 / 4) + ln (1 / 4))%R.
Proof.
  apply (score_permutation (Toy.model 1 0 0) 1 [1; 2] [2; 1]).
  - apply perm_swap.
  - apply ToyMixtures.score_1_q2.
Defined.

Lemma score_app_witness :
  GeneralizedLanguageModel.score (Toy.model 1 0 0) 1 ([1] ++ [1; 2])
  = Ok ((0 + ln (2 / 4)) + (0 + ln (2 / 4) + ln (1 / 4)))%R.
Proof.
  apply (score_app (Toy.model 1 0 0) 1 [1] [1; 2]).
  - apply ToyMixtures.score_1_q1.
  - apply ToyMixtures.score_1_q2.
Defined.

Lemma zero_similarity_sum_never_scores_witness :
  ∃ e, GeneralizedLanguageModel.score (Toy.model 1 0 0) 2 [1] = Err e.
Proof.
  apply (zero_similarity_sum_never_scores (Toy.model 1 0 0) 2 [1] "D2" [1]).
  - reflexivity.
  - discriminate.
  - apply ToyFacts.dss_2.
  - discriminate.
Defined.

Lemma uncached_document_never_scores_witness :
  ∃ e, GeneralizedLanguageModel.score (ToySubset.model 1 0 0) 2 [1] = Err e.
Proof.
  apply (uncached_document_never_scores (ToySubset.model 1 0 0) 2 [1]).
  - left. reflexivity.
  - discriminate.
Defined.

Lemma failing_pair_aborts_run_witness :
  ∃ e', GeneralizedLanguageModel.run_fl ToyFloats.zero ToyFloats.is_zero
          ToyFloats.score_fl ToyFloats.write_run_fl (Toy.model 1 0 0)
          "GLM" (Some [("q2", [3; 1])]) Toy.fs = (Err e', Toy.fs).
Proof.
  apply (failing_pair_aborts_run (Toy.model 1 0 0) ToyFloats.zero
           ToyFloats.is_zero ToyFloats.score_fl ToyFloats.write_run_fl "GLM"
           (Some [("q2", [3; 1])]) Toy.fs "q2" [1; 2] 3 "D3" [1; 1; 1]
           math_domain_error).
  - reflexivity.
  - exists [3; 1]. split; [by left|]. split; [by left | reflexivity].
  - reflexivity.
  - reflexivity.
  - unfold ToyFloats.score_fl. rewrite decide_False by done.
    by rewrite ToyMixtures.score_3_q2.
Defined.

(** ** More on the similarity sums *)


Section doc_sim_sum_domain.
Import GeneralizedLanguageModel.
Variable self : t.


(** X24.  The mapping [compute_doc_sim_sum] returns has an entry for exactly the
    documents listed in [doc_col], whatever else the index holds. *)
Theorem doc_sim_sum_covers_candidates (dc : list (string * list Z))
    (sums : gmap Z R) (d : Z) :
  doc_col self = Some dc →
  compute_doc_sim_sum self = Ok sums →
  is_Some (sums !! d) ↔ d ∈ concat dc.*2.
Proof.
  intros Hdc Hsum. unfold compute_doc_sim_sum, self_doc_col in Hsum.
  rewrite Hdc in Hsum. cbn in Hsum.
  destruct (doc_sim_sums_fold _ _ _ _ Hsum d) as [Hin Hout].
  rewrite <- (elem_of_np_unique (concat dc.*2) d). split.
  - intros Hsome. destruct (decide (d ∈ np_unique (concat dc.*2))); [done|].
    rewrite Hout, lookup_empty in Hsome by done. by destruct Hsome.
  - intros Hd. destruct (Hin Hd) as (r & _ & ->). by eexists.
Qed.

Lemma doc_sim_sum_unknown_candidate (dc : list (string * list Z)) (d : Z) :
  doc_col self = Some dc → d ∈ concat dc.*2 →
  documents (index self) !! d = None →
  ∃ e, compute_doc_sim_sum self = Err e.
Proof.
  intros Hdc Hd Hdoc. unfold compute_doc_sim_sum, self_doc_col.
  rewrite Hdc. cbn [mbind res_bind].
  apply (foldM_Err_elem _ _ d); [by apply elem_of_np_unique|].
  intros acc. unfold doc_sim_sum_of, document. rewrite Hdoc. cbn.
  by eauto.
Qed.
End doc_sim_sum_domain.

Section constructor_failures.
Import GeneralizedLanguageModel.

(** X15.  Without the similarity-sum pickle, a [doc_col] that lists a document
    the index does not hold makes the constructor fail, before anything is
    written. *)
Theorem init_unknown_candidate (ix : Index) (ii : gmap Z (gmap Z Z))
    (qs : list (string * list Z)) (cf dl : gmap Z Z) (l a b : R)
    (dc : list (string * list Z)) (w2v : Word2Vec) (fs : FS) (d : Z) :
  pkl_doc_sim_sums fs = None →
  d ∈ concat dc.*2 → documents ix !! d = None →
  ∃ e, init ix ii qs cf dl l a b (Some dc) w2v fs = (Err e, fs).
Proof.
  intros Hpkl Hd Hdoc. unfold init.
  destruct (get_dictionary ix) as [[t2i i2t] df]. rewrite Hpkl.
  match goal with
  | |- context [compute_doc_sim_sum ?m] =>
      destruct (doc_sim_sum_unknown_candidate m dc d eq_refl Hd Hdoc)
        as [e ->]
  end.
  by exists e.
Qed.

(** X16.  Without the neighbour pickle, a [doc_col] that names a query
    [queries] does not hold makes the constructor fail. *)
Theorem init_unknown_query (ix : Index) (ii : gmap Z (gmap Z Z))
    (qs : list (string * list Z)) (cf dl : gmap Z Z) (l a b : R)
    (dc : list (string * list Z)) (w2v : Word2Vec) (fs : FS)
    (qid : string) (ds : list Z) :
  pkl_col_Nt fs = None →
  (qid, ds) ∈ dc → dict_get qs qid = None →
  ∃ e fs', init ix ii qs cf dl l a b (Some dc) w2v fs = (Err e, fs').
Proof.
  intros Hpkl Hqds Hq. unfold init.
  destruct (get_dictionary ix) as [[t2i i2t] df].
  destruct (pkl_doc_sim_sums fs) as [dss|];
    [|destruct (compute_doc_sim_sum _) as [dss|e]; [|by eauto]];
    cbn [pkl_col_Nt]; rewrite Hpkl.
  all: match goal with
       | |- context [compute_col_nt ?m 3] =>
           destruct (col_nt_unknown_query m 3%nat dc qid ds eq_refl Hqds Hq)
             as [e ->]
       end; by eauto.
Qed.
End constructor_failures.


Lemma doc_sim_sum_covers_candidates_witness :
  is_Some (Toy.doc_sim_sum !! 7) ↔ 7 ∈ concat Toy.doc_col.*2.
Proof.
  apply (doc_sim_sum_covers_candidates (Toy.model 1 0 0) Toy.doc_col
           Toy.doc_sim_sum 7).
  - reflexivity.
  - apply ToyCaches.doc_sim_sum_computed.
Defined.

Lemma init_unknown_candidate_witness :
  ∃ e,
    GeneralizedLanguageModel.init Toy.index Toy.inverted_index Toy.queries
      Toy.col_freq Toy.doc_len 1 0 0 (Some [("q1", [1; 9])]) Toy.word2vec
      {| pkl_doc_sim_sums := None; pkl_col_Nt := None; files := ∅ |}
    = (Err e,
       {| pkl_doc_sim_sums := None; pkl_col_Nt := None; files := ∅ |}).
Proof.
  apply (init_unknown_candidate Toy.index Toy.inverted_index Toy.queries
           Toy.col_freq Toy.doc_len 1 0 0 [("q1", [1; 9])] Toy.word2vec
           {| pkl_doc_sim_sums := None; pkl_col_Nt := None; files := ∅ |}
           9).
  - reflexivity.
  - right. by left.
  - reflexivity.
Defined.

Lemma init_unknown_query_witness :
  ∃ e fs',
    GeneralizedLanguageModel.init Toy.index Toy.inverted_index Toy.queries
      Toy.col_freq Toy.doc_len 1 0 0 (Some [("q9", [1])]) Toy.word2vec
      {| pkl_doc_sim_sums := Some Toy.doc_sim_sum; pkl_col_Nt := None;
         files := ∅ |}
    = (Err e, fs').
Proof.
  apply (init_unknown_query Toy.index Toy.inverted_index Toy.queries
           Toy.col_freq Toy.doc_len 1 0 0 [("q9", [1])] Toy.word2vec
           {| pkl_doc_sim_sums := Some Toy.doc_sim_sum; pkl_col_Nt := None;
              files := ∅ |} "q9" [1]).
  - reflexivity.
  - by left.
  - reflexivity.
Defined.

(** ** The files of a run *)

Lemma string_length_app (a c : string) :
  String.length (a +:+ c) = (String.length a + String.length c)%nat.
Proof.
  induction a as [|x a IH]; [reflexivity|].
  change (String x a +:+ c) with (String x (a +:+ c)). cbn. by rewrite IH.
Qed.

Lemma string_app_inv_tail (a b c : string) : a +:+ c = b +:+ c → a = b.
Proof.
  revert b. induction a as [|x a IH]; intros [|y b] H.
  - reflexivity.
  - apply (f_equal String.length) in H.
    rewrite !string_length_app in H. cbn in H. lia.
  - apply (f_equal String.length) in H.
    rewrite !string_length_app in H. cbn in H. lia.
  - change (String x a +:+ c) with (String x (a +:+ c)) in H.
    change (String y b +:+ c) with (String y (b +:+ c)) in H.
    injection H as -> H. f_equal. by apply IH.
Qed.

Section run_files.
Import GeneralizedLanguageModel.
Variable write_run : string → run_data → nat → string.

(** X29.  Two model names never share a run file. *)
Theorem run_out_path_injective (m1 m2 : string) :
  run_out_path m1 = run_out_path m2 ↔ m1 = m2.
Proof.
  split; [|by intros ->]. unfold run_out_path. intros H.
  apply (inj (String.append "../retrievals/")) in H.
  by apply string_app_inv_tail in H.
Qed.

(** X26.  A run that returns its [data] found no run file of its name, wrote
    exactly that file, with what [Helper.write_run] makes of the [data]
    and the limit of 1000 objects per query, and left every other file and
    both pickles as they were. *)
Theorem run_writes_only_its_file (self : t) (model_name : string)
    (doc_col : option (list (string * list Z))) (fs fs' : FS)
    (data : run_data) :
  run write_run self model_name doc_col fs = (Ok (Some data), fs') →
  files fs !! run_out_path model_name = None
  ∧ files fs' !! run_out_path model_name
    = Some (write_run model_name data 1000%nat)
  ∧ (∀ path, path ≠ run_out_path model_name →
             files fs' !! path = files fs !! path)
  ∧ pkl_doc_sim_sums fs' = pkl_doc_sim_sums fs
  ∧ pkl_col_Nt fs' = pkl_col_Nt fs.
Proof.
  unfold run.
  destruct (decide (is_Some (files fs !! run_out_path model_name)))
    as [|Hfresh]; [discriminate|].
  destruct (match doc_col with
            | Some dc => run_doc_col self dc
            | None => run_all_documents self
            end) as [[scores data']|e]; [|discriminate].
  intros [= <- <-]. cbn. split.
  { destruct (files fs !! run_out_path model_name) eqn:H; [|done].
    destruct Hfresh. by eexists. }
  split; [by rewrite lookup_insert_eq|].
  split; [|done]. intros path Hne. by rewrite lookup_insert_ne.
Qed.
End run_files.

(** The files after the run of [ToyRuns.run_q1]. *)
Definition fs_after_q1 : FS :=
  {| pkl_doc_sim_sums := Some Toy.doc_sim_sum;
     pkl_col_Nt := Some (Toy.col_Nt, Toy.sum_nT);
     files := {[ GeneralizedLanguageModel.run_out_path "GLM"
                 := Toy.write_run "GLM" ToyRuns.data_q1 1000%nat ]} |}.

Lemma run_writes_only_its_file_witness :
  files Toy.fs !! GeneralizedLanguageModel.run_out_path "GLM" = None
  ∧ files fs_after_q1 !! GeneralizedLanguageModel.run_out_path "GLM"
    = Some (Toy.write_run "GLM" ToyRuns.data_q1 1000%nat)
  ∧ (∀ path, path ≠ GeneralizedLanguageModel.run_out_path "GLM" →
       files fs_after_q1 !! path = files Toy.fs !! path)
  ∧ pkl_doc_sim_sums fs_after_q1 = pkl_doc_sim_sums Toy.fs
  ∧ pkl_col_Nt fs_after_q1 = pkl_col_Nt Toy.fs.
Proof.
  apply (run_writes_only_its_file Toy.write_run (Toy.model 1 0 0) "GLM"
           (Some [("q1", [1; 3; 4])]) Toy.fs fs_after_q1 ToyRuns.data_q1).
  apply ToyRuns.run_q1.
Defined.

Lemma run_twice_witness :
  GeneralizedLanguageModel.run Toy.write_run (Toy.model 2 0 (-1)) "GLM" None
    fs_after_q1
  = (Ok None, fs_after_q1).
Proof.
  apply (run_twice Toy.write_run (Toy.model 1 0 0) (Toy.model 2 0 (-1)) "GLM"
           (Some [("q1", [1; 3; 4])]) None Toy.fs fs_after_q1
           ToyRuns.data_q1).
  apply ToyRuns.run_q1.
Defined.

(** ** The logarithmic term frequency *)

Lemma ln_le_mono (x y : R) : (0 < x)%R → (x <= y)%R → (ln x <= ln y)%R.
Proof.
  intros Hx [Hlt| ->]; [|lra]. left. by apply ln_increasing.
Qed.

Lemma ln_below_line (x : R) : (0 < x)%R → (ln x <= x - 1)%R.
Proof.
  intros Hx. destruct (Rle_lt_dec (ln x) (x - 1)) as [|Hlt]; [done|].
  apply exp_increasing in Hlt. rewrite exp_ln in Hlt by done.
  pose proof (exp_ineq1_le (x - 1)). lra.
Qed.

Section log_tf.
Import TFIDF.

(** X30.  From a frequency of [1] on, [log_tf] returns a weight that starts at
    [1], grows with the frequency and never exceeds it. *)
Theorem log_tf_dampens (self : TFIDF.t) (f g : Z) :
  1 ≤ f → f ≤ g →
  ∃ wf wg,
    log_tf self f = Ok wf ∧ log_tf self g = Ok wg
    ∧ (1 <= wf <= wg)%R ∧ (wg <= IZR g)%R
    ∧ log_tf self 1 = Ok 1%R.
Proof.
  intros Hf Hfg. rewrite !log_tf_positive by lia.
  exists (1 + ln (IZR f))%R, (1 + ln (IZR g))%R.
  assert (1 <= IZR f)%R as Hf' by (apply IZR_le in Hf; lra).
  assert (IZR f <= IZR g)%R as Hfg' by by apply IZR_le.
  pose proof (ln_le_mono 1 (IZR f) ltac:(lra) Hf') as H1.
  rewrite ln_1 in H1.
  pose proof (ln_le_mono (IZR f) (IZR g) ltac:(lra) Hfg').
  pose proof (ln_below_line (IZR g) ltac:(lra)).
  split; [done|]. split; [done|]. split; [lra|]. split; [lra|].
  rewrite ln_1. f_equal. lra.
Qed.
End log_tf.

Lemma log_tf_dampens_witness :
  ∃ wf wg,
    TFIDF.log_tf (Toy.tfidf "log") 2 = Ok wf
    ∧ TFIDF.log_tf (Toy.tfidf "log") 5 = Ok wg
    ∧ (1 <= wf <= wg)%R ∧ (wg <= IZR 5)%R
    ∧ TFIDF.log_tf (Toy.tfidf "log") 1 = Ok 1%R.
Proof.
  apply (log_tf_dampens (Toy.tfidf "log") 2 5); lia.
Defined.

(** ** The document transform over the distinct terms *)

Lemma np_sum_cons (a : R) (l : list R) : np_sum (a :: l) = (a + np_sum l)%R.
Proof. reflexivity. Qed.

Section distinct_terms.
Import GeneralizedLanguageModel.

Lemma term_count_cons (x y : Z) (l : list Z) :
  term_count (x :: l) y
  = (term_count l y + (if decide (x = y) then 1 else 0))%R.
Proof.
  unfold term_count. rewrite filter_cons.
  destruct (decide (x = y)); [|lra].
  cbn [length]. rewrite S_INR. lra.
Qed.

Lemma term_count_absent (x : Z) (l : list Z) : x ∉ l → term_count l x = 0%R.
Proof.
  induction l as [|y l IH]; intros Hx; [reflexivity|].
  apply not_elem_of_cons in Hx as [Hne Hx].
  rewrite term_count_cons, IH by done.
  rewrite decide_False by done. lra.
Qed.

Lemma np_sum_count_cons (h : Z → R) (x : Z) (l k : list Z) :
  NoDup k →
  np_sum ((λ y, h y * term_count (x :: l) y)%R <$> k)
  = (np_sum ((λ y, h y * term_count l y)%R <$> k)
     + (if decide (x ∈ k) then h x else 0))%R.
Proof.
  induction 1 as [|y k Hy Hnd IH].
  - cbn. rewrite decide_False by apply not_elem_of_nil. unfold np_sum. cbn. lra.
  - rewrite !fmap_cons, !np_sum_cons, IH, term_count_cons.
    destruct (decide (x = y)) as [->|Hne].
    + rewrite (decide_True (P := y ∈ y :: k)) by left.
      rewrite (decide_False (P := y ∈ k)) by done. lra.
    + destruct (decide (x ∈ k)) as [Hin|Hout].
      * rewrite (decide_True (P := x ∈ y :: k)) by by right. lra.
      * rewrite (decide_False (P := x ∈ y :: k))
          by (rewrite elem_of_cons; tauto). lra.
Qed.

(** A sum over the positions of a stream, regrouped by distinct term. *)
Lemma np_sum_by_distinct_terms (h : Z → R) (l : list Z) :
  np_sum (h <$> l)
  = np_sum ((λ y, h y * term_count l y)%R <$> remove_dups l).
Proof.
  induction l as [|x l IH]; [reflexivity|].
  rewrite fmap_cons, np_sum_cons, IH. cbn [remove_dups].
  destruct (decide_rel elem_of x l) as [Hin|Hout].
  - rewrite np_sum_count_cons by apply NoDup_remove_dups.
    rewrite decide_True by by apply elem_of_remove_dups. lra.
  - rewrite fmap_cons, np_sum_cons, np_sum_count_cons
      by apply NoDup_remove_dups.
    rewrite decide_False by by rewrite elem_of_remove_dups.
    rewrite term_count_cons, decide_True by done.
    rewrite term_count_absent by done. lra.
Qed.

Variable self : t.

(** X25.  Summed over the distinct retained terms of the document, the document
    transform weights the cosine of each term by the square of its
    in-document frequency: a term occurring [f] times is met at [f]
    positions and counted with weight [f] at each. *)
Theorem doc_transform_over_distinct_terms (query_term_id int_doc_id : Z)
    (doc : list Z) (query_vec : list R) (row : Z → list R)
    (dss : R) (dl : Z) :
  term_vector self query_term_id = Ok query_vec →
  length query_vec = dim →
  (∀ term_id, term_id ∈ filter_doc doc →
              term_row self term_id = Ok (row term_id)
              ∧ norm (row term_id) ≠ 0%R) →
  doc_sim_sum self !! int_doc_id = Some dss →
  doc_len self !! int_doc_id = Some dl →
  norm query_vec ≠ 0%R →
  (dss * IZR dl)%R ≠ 0%R →
  compute_doc_transform self query_term_id int_doc_id doc
  = Ok (np_sum ((λ term_id,
                   Spec.cosine (row term_id) query_vec
                   * term_count (filter_doc doc) term_id
                   * term_count (filter_doc doc) term_id)%R
                <$> remove_dups (filter_doc doc))
        / (dss * IZR dl))%R.
Proof.
  intros Hq Hlen Hrows Hdss Hdl Hnq Hc.
  rewrite (compute_doc_transform_Ok self query_term_id int_doc_id doc
             query_vec (row <$> filter_doc doc) dss dl); try done.
  - do 2 f_equal. rewrite zip_with_fmap_l, zip_with_diag.
    apply (np_sum_by_distinct_terms
             (λ term_id, Spec.cosine (row term_id) query_vec
                         * term_count (filter_doc doc) term_id)%R).
  - apply forM_ext. intros term_id Hin. by apply Hrows.
  - apply Forall_fmap, Forall_forall. intros term_id Hin. by apply Hrows.
Qed.
End distinct_terms.

Lemma doc_transform_over_distinct_terms_witness :
  GeneralizedLanguageModel.compute_doc_transform (Toy.model 1 0 0) 1 1
    [1; 2; 0; 3; 1]
  = Ok (np_sum ((λ term_id,
                   Spec.cosine (toy_row term_id) Toy.va
                   * GeneralizedLanguageModel.term_count
                       (GeneralizedLanguageModel.filter_doc
                          [1; 2; 0; 3; 1]%Z) term_id
                   * GeneralizedLanguageModel.term_count
                       (GeneralizedLanguageModel.filter_doc
                          [1; 2; 0; 3; 1]%Z) term_id)%R
                <$> remove_dups
                      (GeneralizedLanguageModel.filter_doc [1; 2; 0; 3; 1]%Z))
        / (7 / 5 * IZR 4))%R.
Proof.
  apply (doc_transform_over_distinct_terms (Toy.model 1 0 0) 1 1
           [1; 2; 0; 3; 1] Toy.va toy_row (7 / 5)%R 4).
  - reflexivity.
  - reflexivity.
  - intros term_id Hin.
    change (term_id ∈ [1; 2; 3; 1]) in Hin.
    repeat (apply elem_of_cons in Hin as [->|Hin]);
      [| | | |by apply elem_of_nil in Hin].
    + split; [reflexivity|]. change (norm Toy.va ≠ 0%R).
      rewrite ToyFacts.norm_a. lra.
    + split; [reflexivity|]. change (norm Toy.vb ≠ 0%R).
      rewrite ToyFacts.norm_b. lra.
    + split; [reflexivity|]. change (norm Toy.vc ≠ 0%R).
      rewrite ToyFacts.norm_c. lra.
    + split; [reflexivity|]. change (norm Toy.va ≠ 0%R).
      rewrite ToyFacts.norm_a. lra.
  - reflexivity.
  - reflexivity.
  - norms_nonzero.
  - lra.
Defined.
